(** * scribdl.content.audiobook: a shallow embedding and its properties

    The development follows [src/scribdl/content/audiobook.py]:

    - Python values, exceptions and the few built-ins the module uses
      ([str.split], [list.remove], [str.replace], [re.search] on digit
      classes, subscripting, truthiness);
    - the outside world (HTTP requests, the stream download helper and
      standard output) as an explicit state with a request log;
    - the classes [Track], [Playlist] and [ScribdAudioBook], every method
      written in a state-and-exception monad in the order the source
      evaluates it;
    - the properties, at the end of the file. *)

From Stdlib Require Import String Ascii List ZArith Bool Arith Lia DecimalString.
Import ListNotations.
Open Scope list_scope.
Open Scope string_scope.

(** ** Python values and exceptions *)

(** The exceptions the module can raise. [JSONDecodeError] is what
    [json.loads] raises, [RequestException] what [requests] raises; the
    others come from subscripting, [list.remove] and attribute access on
    [None]. *)
Inductive PyError : Type :=
| AttributeError
| TypeError
| KeyError
| IndexError
| ValueError
| JSONDecodeError
| RequestException
| OSError.

Inductive Result (A : Type) : Type :=
| Ok (a : A)
| Raise (e : PyError).
Arguments Ok {A} a.
Arguments Raise {A} e.

(** The values [json.loads] produces.  Strings are sequences of 8-bit
    characters (the UTF-8 encoding); JSON numbers are integers, the program
    does no arithmetic on them.  A dict is its list of items in insertion
    order. *)
#[warnings="-register-all"]
Inductive PyVal : Type :=
| PyNone
| PyBool (b : bool)
| PyInt (z : Z)
| PyStr (s : string)
| PyList (l : list PyVal)
| PyDict (items : list (string * PyVal)).

Definition str_empty (s : string) : bool :=
  match s with EmptyString => true | String _ _ => false end.

Definition list_empty {A : Type} (l : list A) : bool :=
  match l with [] => true | _ :: _ => false end.

(** [bool(v)]. *)
Definition truthy (v : PyVal) : bool :=
  match v with
  | PyNone => false
  | PyBool b => b
  | PyInt z => negb (Z.eqb z 0)
  | PyStr s => negb (str_empty s)
  | PyList l => negb (list_empty l)
  | PyDict d => negb (list_empty d)
  end.

(** [bool(v)] for a value that is [None] or a [str]. *)
Definition truthy_str (o : option string) : bool :=
  match o with
  | None => false
  | Some s => negb (str_empty s)
  end.

(** [bool(v)] for a value that is [None] or an object without [__bool__]
    and [__len__], or a dict literal that is never empty. *)
Definition truthy_obj {A : Type} (o : option A) : bool :=
  match o with
  | None => false
  | Some _ => true
  end.

(** The string a value is, for an operation that accepts only strings
    ([re.search] on its subject, [+] with a string on the left). *)
Definition as_str (v : PyVal) : Result string :=
  match v with
  | PyStr s => Ok s
  | _ => Raise TypeError
  end.

Definition of_opt_str (o : option string) : PyVal :=
  match o with
  | None => PyNone
  | Some s => PyStr s
  end.

Fixpoint lookup (k : string) (d : list (string * PyVal)) : option PyVal :=
  match d with
  | [] => None
  | (k', v) :: rest => if String.eqb k k' then Some v else lookup k rest
  end.

(** [v[key]] for a string key. *)
Definition getitem (v : PyVal) (key : string) : Result PyVal :=
  match v with
  | PyDict d =>
      match lookup key d with
      | Some x => Ok x
      | None => Raise KeyError
      end
  | _ => Raise TypeError
  end.

(** [v[0]].  The keys of a JSON object are strings, so [0] is never among
    them. *)
Definition getitem0 (v : PyVal) : Result PyVal :=
  match v with
  | PyList (x :: _) => Ok x
  | PyList [] => Raise IndexError
  | PyStr (String c _) => Ok (PyStr (String c EmptyString))
  | PyStr EmptyString => Raise IndexError
  | PyDict _ => Raise KeyError
  | _ => Raise TypeError
  end.

(** [iter(v)], fully consumed: a list gives its elements, a dict its keys,
    a string its characters. *)
Definition py_iter (v : PyVal) : Result (list PyVal) :=
  match v with
  | PyList l => Ok l
  | PyDict d => Ok (map (fun kv => PyStr (fst kv)) d)
  | PyStr s => Ok (map (fun c => PyStr (String c EmptyString)) (list_ascii_of_string s))
  | _ => Raise TypeError
  end.

(** ** Strings *)

Definition dquote : string := String (ascii_of_nat 34) EmptyString.

Definition is_digit (c : ascii) : bool :=
  Nat.leb 48 (nat_of_ascii c) && Nat.leb (nat_of_ascii c) 57.

Fixpoint all_digits (s : string) : bool :=
  match s with
  | EmptyString => true
  | String c r => is_digit c && all_digits r
  end.

(** Number of digits at the front of [s]. *)
Fixpoint digit_prefix (s : string) : nat :=
  match s with
  | EmptyString => 0
  | String c r => if is_digit c then S (digit_prefix r) else 0
  end.

(** [re.search("[0-9]{lo,hi}", s)], giving [m.group()] of the match:
    positions are tried from the left, and at a position the greedy
    quantifier takes as many digits as there are, up to [hi]. *)
Fixpoint re_search_digits (lo hi : nat) (s : string) : option string :=
  if Nat.leb lo (Nat.min (digit_prefix s) hi)
  then Some (substring 0 (Nat.min (digit_prefix s) hi) s)
  else match s with
       | EmptyString => None
       | String _ r => re_search_digits lo hi r
       end.

(** [s.split(sep)] for a one-character separator. *)
Fixpoint split (sep : ascii) (s : string) : list string :=
  match s with
  | EmptyString => [EmptyString]
  | String c r =>
      if Ascii.eqb c sep then EmptyString :: split sep r
      else match split sep r with
           | h :: t => String c h :: t
           | [] => [String c EmptyString]
           end
  end.

(** [l.remove(x)]: deletes the first occurrence, [ValueError] when there is
    none. *)
Fixpoint list_remove (x : string) (l : list string) : Result (list string) :=
  match l with
  | [] => Raise ValueError
  | y :: rest =>
      if String.eqb y x then Ok rest
      else match list_remove x rest with
           | Ok rest' => Ok (y :: rest')
           | Raise e => Raise e
           end
  end.

(** [l[-1]]. *)
Fixpoint last_item (l : list string) : Result string :=
  match l with
  | [] => Raise IndexError
  | [x] => Ok x
  | _ :: rest => last_item rest
  end.

(** [s.replace(a, b)] for one-character [a] and [b]. *)
Fixpoint replace (a b : ascii) (s : string) : string :=
  match s with
  | EmptyString => EmptyString
  | String c r => String (if Ascii.eqb c a then b else c) (replace a b r)
  end.

(** [str(z)] for an integer. *)
Definition str_of_Z (z : Z) : string := NilZero.string_of_int (Z.to_int z).

(** ** The state-and-exception monad

    A Python method runs against mutable state and either returns or
    raises; the state reached when it raises is kept, as the assignments
    made before the exception stay made. *)

Definition M (St A : Type) : Type := St -> Result A * St.

Definition ret {St A : Type} (a : A) : M St A := fun st => (Ok a, st).

Definition raise {St A : Type} (e : PyError) : M St A := fun st => (Raise e, st).

Definition lift {St A : Type} (r : Result A) : M St A := fun st => (r, st).

Definition bind {St A B : Type} (m : M St A) (k : A -> M St B) : M St B :=
  fun st =>
    match m st with
    | (Ok a, st') => k a st'
    | (Raise e, st') => (Raise e, st')
    end.

Notation "x <- m ;; k" := (bind m (fun x => k))
  (at level 61, m at next level, right associativity).
Notation "m ;;; k" := (bind m (fun _ => k))
  (at level 61, right associativity).

Definition rbind {A B : Type} (r : Result A) (k : A -> Result B) : Result B :=
  match r with
  | Ok a => k a
  | Raise e => Raise e
  end.

Notation "'let!' x ':=' r 'in' k" := (rbind r (fun x => k))
  (at level 61, x name, r at next level, right associativity).

(** A list comprehension [[f(x) for x in l]] whose body may raise. *)
Fixpoint comprehension {A B : Type} (f : A -> Result B) (l : list A) : Result (list B) :=
  match l with
  | [] => Ok []
  | x :: rest =>
      let! y := f x in
      let! ys := comprehension f rest in
      Ok (y :: ys)
  end.

(** [if not c: body]. *)
Definition if_not {St : Type} (c : bool) (body : M St unit) : M St unit :=
  if c then ret tt else body.

(** ** The outside world *)

Definition Cookies : Type := list (string * string).
Definition Headers : Type := list (string * string).

(** What the program asks of the world: [requests.get], [requests.post]
    and the stream download of [internals]. *)
Inductive Request : Type :=
| Get (url : string) (cookies : option Cookies) (headers : option Headers)
| Post (url : string) (headers : Headers) (data : string)
| Stream (url : PyVal) (path : string).

(** The remote side answers a request, knowing the requests made before
    it, with a body or with a failure.  [sent] is the log of requests, the
    oldest first; [stdout] the lines printed. *)
Record World : Type := mkWorld {
  server : list Request -> Request -> Result string;
  sent : list Request;
  stdout : list string
}.

Definition send (r : Request) : M World string :=
  fun w => (server w (sent w) r,
            {| server := server w; sent := sent w ++ [r]; stdout := stdout w |}).

Definition print (line : string) : M World unit :=
  fun w => (Ok tt,
            {| server := server w; sent := sent w; stdout := stdout w ++ [line] |}).

(** [requests.get(url, cookies=c)] and [requests.get(url, headers=h)],
    giving [response.text]. *)
Definition requests_get (url : string) (c : option Cookies) (h : option Headers) : M World string :=
  send (Get url c h).

(** [requests.post(url, headers=h, data=d)], giving [response.text]. *)
Definition requests_post (url : string) (h : Headers) (d : string) : M World string :=
  send (Post url h d).

(** Runs a world action inside a method of an object of type [S]. *)
Definition in_world {S A : Type} (m : M World A) : M (S * World) A :=
  fun st => let (r, w') := m (snd st) in (r, (fst st, w')).

Definition get_self {S : Type} : M (S * World) S :=
  fun st => (Ok (fst st), st).

Definition set_self {S : Type} (f : S -> S) : M (S * World) unit :=
  fun st => (Ok tt, (f (fst st), snd st)).

(** ** The libraries and constants outside the module

    [json.loads], the two BeautifulSoup queries of [_scrape_audiobook],
    [str()] of a container and [const.premium_cookies] are taken as
    given. *)
Class Env : Type := {
  (** [json.loads(text)]; [None] stands for [JSONDecodeError]. *)
  json_parse : string -> option PyVal;
  (** The attributes of
      [soup.find("div", {"data-track_category": "book_preview"})] in the
      page [text], [None] when there is no such tag. *)
  find_book_preview_div : string -> option (list (string * string));
  (** [get_text()] of every tag of
      [soup.find_all("script", {"type": "text/javascript"})], in page
      order. *)
  find_all_script_text : string -> list string;
  (** [str(v)] for a list or a dict. *)
  str_container : PyVal -> string;
  (** [const.premium_cookies]. *)
  const_premium_cookies : Cookies
}.

Definition json_loads {E : Env} (text : string) : Result PyVal :=
  match json_parse text with
  | Some v => Ok v
  | None => Raise JSONDecodeError
  end.

(** [str(v)], which is what ["{}".format(v)] inserts. *)
Definition py_str {E : Env} (v : PyVal) : string :=
  match v with
  | PyNone => "None"
  | PyBool true => "True"
  | PyBool false => "False"
  | PyInt z => str_of_Z z
  | PyStr s => s
  | _ => str_container v
  end.

Definition str_opt (o : option string) : string :=
  match o with
  | None => "None"
  | Some s => s
  end.

Module internals.

(** Modelled from the spec: [internals.download_stream(url, path)] is not
    among the sources.  It performs the chunked byte-stream download of
    [url] to the destination [path] (spec, sections 2 and 4.4): the
    transfer either completes or fails with a transport or file-system
    error, which is the world's answer to the request. *)
Definition download_stream (url : PyVal) (path : string) : M World unit :=
  send (Stream url path) ;;; ret tt.

End internals.

(** ** class Track *)
Module Track.

Record t : Type := Build {
  url : PyVal;
  part_number : PyVal;
  chapter_number : PyVal;
  _track : PyVal
}.

(** [Track.__init__(self, track)] *)
Definition init (track : PyVal) : Result t :=
  let! u := getitem track "url" in
  let! p := getitem track "part_number" in
  let! c := getitem track "chapter_number" in
  Ok {| url := u; part_number := p; chapter_number := c; _track := track |}.

(** [Track.download(self, path)] *)
Definition download (self : t) (path : string) : M World unit :=
  internals.download_stream (url self) path.

End Track.

(** ** class Playlist *)
Module Playlist.

Record t : Type := Build {
  title : string;
  tracks : list Track.t;
  _playlist : PyVal;
  download_paths : list string
}.

(** [Playlist.__init__(self, title, playlist)] *)
Definition init (title : string) (playlist : PyVal) : Result t :=
  let! entries := getitem playlist "playlist" in
  let! items := py_iter entries in
  let! tracks := comprehension Track.init items in
  Ok {| title := title; tracks := tracks; _playlist := playlist;
        download_paths := [] |}.

Definition append_path (path : string) : M (t * World) unit :=
  set_self (fun self =>
    {| title := title self; tracks := tracks self; _playlist := _playlist self;
       download_paths := download_paths self ++ [path] |}).

Section WithEnv.
Context {E : Env}.

(** ["{0}_{1}.mp3".format(title, track.chapter_number)] *)
Definition path_of (title : string) (track : Track.t) : string :=
  title ++ "_" ++ py_str (Track.chapter_number track) ++ ".mp3".

(** The progress line of one chapter. *)
Definition dl_str_of (track : Track.t) (path : string) : string :=
  "Downloading chapter-" ++ py_str (Track.chapter_number track)
  ++ " (" ++ py_str (Track.url track) ++ ") to " ++ dquote ++ path ++ dquote.

(** The body of the [for] loop of [download], over the tracks still to
    visit. *)
Fixpoint download_loop (title : string) (todo : list Track.t) : M (t * World) unit :=
  match todo with
  | [] => ret tt
  | track :: rest =>
      let path := path_of title track in
      let dl_str := dl_str_of track path in
      in_world (print dl_str) ;;;
      in_world (Track.download track path) ;;;
      append_path path ;;;
      download_loop title rest
  end.

(** [Playlist.download(self)] *)
Definition download : M (t * World) unit :=
  self <- get_self ;;
  download_loop (title self) (tracks self).

End WithEnv.

End Playlist.

(** ** class ScribdAudioBook *)
Module ScribdAudioBook.

(** The dict [_scrape_audiobook] returns, with its three keys. *)
Record Keys : Type := {
  keys_preview_url : string;
  keys_book_id : string;
  keys_author_id : option string
}.

(** The attributes of an instance.  Those with an underscore start as
    [None] and hold the value of the property of the same name once it
    was computed. *)
Record t : Type := Build {
  _audiobook_keys : option Keys;
  _preview_url : option string;
  _book_id : option string;
  _author_id : option string;
  _license_url : option string;
  _license_id : PyVal;
  _playlist_url : option string;
  _authenticate_url : option string;
  _title : option string;
  _playlist : option Playlist.t;
  audiobook_url : string;
  scribd_id : string;
  session_key_header : Headers;
  cookies : Cookies
}.

Definition State : Type := (t * World)%type.

Definition set_audiobook_keys (v : option Keys) (self : t) : t :=
  {| _audiobook_keys := v;
     _preview_url := _preview_url self;
     _book_id := _book_id self;
     _author_id := _author_id self;
     _license_url := _license_url self;
     _license_id := _license_id self;
     _playlist_url := _playlist_url self;
     _authenticate_url := _authenticate_url self;
     _title := _title self;
     _playlist := _playlist self;
     audiobook_url := audiobook_url self;
     scribd_id := scribd_id self;
     session_key_header := session_key_header self;
     cookies := cookies self |}.

Definition set_preview_url (v : option string) (self : t) : t :=
  {| _audiobook_keys := _audiobook_keys self;
     _preview_url := v;
     _book_id := _book_id self;
     _author_id := _author_id self;
     _license_url := _license_url self;
     _license_id := _license_id self;
     _playlist_url := _playlist_url self;
     _authenticate_url := _authenticate_url self;
     _title := _title self;
     _playlist := _playlist self;
     audiobook_url := audiobook_url self;
     scribd_id := scribd_id self;
     session_key_header := session_key_header self;
     cookies := cookies self |}.

Definition set_book_id (v : option string) (self : t) : t :=
  {| _audiobook_keys := _audiobook_keys self;
     _preview_url := _preview_url self;
     _book_id := v;
     _author_id := _author_id self;
     _license_url := _license_url self;
     _license_id := _license_id self;
     _playlist_url := _playlist_url self;
     _authenticate_url := _authenticate_url self;
     _title := _title self;
     _playlist := _playlist self;
     audiobook_url := audiobook_url self;
     scribd_id := scribd_id self;
     session_key_header := session_key_header self;
     cookies := cookies self |}.

Definition set_author_id (v : option string) (self : t) : t :=
  {| _audiobook_keys := _audiobook_keys self;
     _preview_url := _preview_url self;
     _book_id := _book_id self;
     _author_id := v;
     _license_url := _license_url self;
     _license_id := _license_id self;
     _playlist_url := _playlist_url self;
     _authenticate_url := _authenticate_url self;
     _title := _title self;
     _playlist := _playlist self;
     audiobook_url := audiobook_url self;
     scribd_id := scribd_id self;
     session_key_header := session_key_header self;
     cookies := cookies self |}.

Definition set_license_url (v : option string) (self : t) : t :=
  {| _audiobook_keys := _audiobook_keys self;
     _preview_url := _preview_url self;
     _book_id := _book_id self;
     _author_id := _author_id self;
     _license_url := v;
     _license_id := _license_id self;
     _playlist_url := _playlist_url self;
     _authenticate_url := _authenticate_url self;
     _title := _title self;
     _playlist := _playlist self;
     audiobook_url := audiobook_url self;
     scribd_id := scribd_id self;
     session_key_header := session_key_header self;
     cookies := cookies self |}.

Definition set_license_id (v : PyVal) (self : t) : t :=
  {| _audiobook_keys := _audiobook_keys self;
     _preview_url := _preview_url self;
     _book_id := _book_id self;
     _author_id := _author_id self;
     _license_url := _license_url self;
     _license_id := v;
     _playlist_url := _playlist_url self;
     _authenticate_url := _authenticate_url self;
     _title := _title self;
     _playlist := _playlist self;
     audiobook_url := audiobook_url self;
     scribd_id := scribd_id self;
     session_key_header := session_key_header self;
     cookies := cookies self |}.

Definition set_playlist_url (v : option string) (self : t) : t :=
  {| _audiobook_keys := _audiobook_keys self;
     _preview_url := _preview_url self;
     _book_id := _book_id self;
     _author_id := _author_id self;
     _license_url := _license_url self;
     _license_id := _license_id self;
     _playlist_url := v;
     _authenticate_url := _authenticate_url self;
     _title := _title self;
     _playlist := _playlist self;
     audiobook_url := audiobook_url self;
     scribd_id := scribd_id self;
     session_key_header := session_key_header self;
     cookies := cookies self |}.

Definition set_authenticate_url (v : option string) (self : t) : t :=
  {| _audiobook_keys := _audiobook_keys self;
     _preview_url := _preview_url self;
     _book_id := _book_id self;
     _author_id := _author_id self;
     _license_url := _license_url self;
     _license_id := _license_id self;
     _playlist_url := _playlist_url self;
     _authenticate_url := v;
     _title := _title self;
     _playlist := _playlist self;
     audiobook_url := audiobook_url self;
     scribd_id := scribd_id self;
     session_key_header := session_key_header self;
     cookies := cookies self |}.

Definition set_title (v : option string) (self : t) : t :=
  {| _audiobook_keys := _audiobook_keys self;
     _preview_url := _preview_url self;
     _book_id := _book_id self;
     _author_id := _author_id self;
     _license_url := _license_url self;
     _license_id := _license_id self;
     _playlist_url := _playlist_url self;
     _authenticate_url := _authenticate_url self;
     _title := v;
     _playlist := _playlist self;
     audiobook_url := audiobook_url self;
     scribd_id := scribd_id self;
     session_key_header := session_key_header self;
     cookies := cookies self |}.

Definition set_playlist (v : option Playlist.t) (self : t) : t :=
  {| _audiobook_keys := _audiobook_keys self;
     _preview_url := _preview_url self;
     _book_id := _book_id self;
     _author_id := _author_id self;
     _license_url := _license_url self;
     _license_id := _license_id self;
     _playlist_url := _playlist_url self;
     _authenticate_url := _authenticate_url self;
     _title := _title self;
     _playlist := v;
     audiobook_url := audiobook_url self;
     scribd_id := scribd_id self;
     session_key_header := session_key_header self;
     cookies := cookies self |}.

(** [audiobook[key]] where [audiobook] is what the property
    [audiobook_keys] returned. *)
Definition keys_item {A : Type} (audiobook : option Keys) (field : Keys -> A) : Result A :=
  match audiobook with
  | Some k => Ok (field k)
  | None => Raise TypeError
  end.

(** [requests.get(url, ...)] for a url that is [None] or a string; a url
    that is not a string is refused by [requests] before anything is sent. *)
Definition get_url (url : option string) (c : option Cookies) (h : option Headers) : M State string :=
  match url with
  | Some u => in_world (requests_get u c h)
  | None => raise RequestException
  end.

Definition post_url (url : option string) (h : Headers) (d : string) : M State string :=
  match url with
  | Some u => in_world (requests_post u h d)
  | None => raise RequestException
  end.

(** [m.group()] for the result [m] of [re.search]. *)
Definition group (m : option string) : Result string :=
  match m with
  | Some g => Ok g
  | None => Raise AttributeError
  end.

Section WithEnv.
Context {E : Env}.

(** [ScribdAudioBook.__init__(self, audiobook_url)] *)
Definition init (audiobook_url : string) : M World t :=
  let scribd_id_search := re_search_digits 9 9 audiobook_url in
  scribd_id <- lift (group scribd_id_search) ;;
  ret {| _audiobook_keys := None;
         _preview_url := None;
         _book_id := None;
         _author_id := None;
         _license_url := None;
         _license_id := PyNone;
         _playlist_url := None;
         _authenticate_url := None;
         _title := None;
         _playlist := None;
         audiobook_url := audiobook_url;
         scribd_id := scribd_id;
         session_key_header := [("Session-Key", "acea0b1d-62b9-4fb7-960b-06d9fbb4999d")];
         cookies := const_premium_cookies |}.

(** [ScribdAudioBook._scrape_audiobook(self)] *)
Definition _scrape_audiobook : M State Keys :=
  self <- get_self ;;
  response_text <- in_world (requests_get (audiobook_url self) (Some (cookies self)) None) ;;
  let div_tag := find_book_preview_div response_text in
  push_state <- lift (match div_tag with
                      | None => Raise TypeError
                      | Some attrs =>
                          match find (fun kv => String.eqb (fst kv) "data-push_state") attrs with
                          | Some kv => Ok (snd kv)
                          | None => Raise KeyError
                          end
                      end) ;;
  text <- lift (json_loads push_state) ;;
  preview_url <- lift (getitem text "audiobook_sample_url") ;;
  preview_url <- lift (as_str preview_url) ;;
  let book_id_search := re_search_digits 5 6 preview_url in
  book_id <- lift (group book_id_search) ;;
  js_code <- lift (last_item (find_all_script_text response_text)) ;;
  let author_id_search := re_search_digits 8 8 js_code in
  let author_id := author_id_search in
  ret {| keys_preview_url := preview_url;
         keys_book_id := book_id;
         keys_author_id := author_id |}.

(** property [audiobook_keys] *)
Definition audiobook_keys : M State (option Keys) :=
  self <- get_self ;;
  if_not (truthy_obj (_audiobook_keys self))
    (k <- _scrape_audiobook ;;
     set_self (set_audiobook_keys (Some k))) ;;;
  self <- get_self ;;
  ret (_audiobook_keys self).

(** property [preview_url] *)
Definition preview_url : M State (option string) :=
  self <- get_self ;;
  if_not (truthy_str (_preview_url self))
    (audiobook <- audiobook_keys ;;
     v <- lift (keys_item audiobook keys_preview_url) ;;
     set_self (set_preview_url (Some v))) ;;;
  self <- get_self ;;
  ret (_preview_url self).

(** property [book_id] *)
Definition book_id : M State (option string) :=
  self <- get_self ;;
  if_not (truthy_str (_book_id self))
    (audiobook <- audiobook_keys ;;
     v <- lift (keys_item audiobook keys_book_id) ;;
     set_self (set_book_id (Some v))) ;;;
  self <- get_self ;;
  ret (_book_id self).

(** property [author_id] *)
Definition author_id : M State (option string) :=
  self <- get_self ;;
  if_not (truthy_str (_author_id self))
    (audiobook <- audiobook_keys ;;
     v <- lift (keys_item audiobook keys_author_id) ;;
     set_self (set_author_id v)) ;;;
  self <- get_self ;;
  ret (_author_id self).

(** property [license_url] *)
Definition license_url : M State (option string) :=
  self <- get_self ;;
  if_not (truthy_str (_license_url self))
    (a <- author_id ;;
     b <- book_id ;;
     set_self (set_license_url
       (Some ("https://api.findawayworld.com/v4/accounts/scribd-" ++ str_opt a
              ++ "/audiobooks/" ++ str_opt b)))) ;;;
  self <- get_self ;;
  ret (_license_url self).

(** property [authenticate_url] *)
Definition authenticate_url : M State (option string) :=
  self <- get_self ;;
  if_not (truthy_str (_authenticate_url self))
    (self <- get_self ;;
     set_self (set_authenticate_url
       (Some ("https://www.scribd.com/listen/" ++ scribd_id self)))) ;;;
  self <- get_self ;;
  ret (_authenticate_url self).

(** property [license_id] *)
Definition license_id : M State PyVal :=
  self <- get_self ;;
  if_not (truthy (_license_id self))
    (au <- authenticate_url ;;
     self <- get_self ;;
     get_url au (Some (cookies self)) None ;;;
     lu <- license_url ;;
     self <- get_self ;;
     response_text <- get_url lu None (Some (session_key_header self)) ;;
     response_dict <- lift (json_loads response_text) ;;
     licenses <- lift (getitem response_dict "licenses") ;;
     license <- lift (getitem0 licenses) ;;
     id <- lift (getitem license "id") ;;
     set_self (set_license_id id)) ;;;
  self <- get_self ;;
  ret (_license_id self).

(** property [playlist_url] *)
Definition playlist_url : M State (option string) :=
  self <- get_self ;;
  if_not (truthy_str (_playlist_url self))
    (b <- book_id ;;
     set_self (set_playlist_url
       (Some ("https://api.findawayworld.com/v4/audiobooks/" ++ str_opt b
              ++ "/playlists")))) ;;;
  self <- get_self ;;
  ret (_playlist_url self).

(** property [premium_cookies] *)
Definition premium_cookies : M State bool :=
  a <- author_id ;;
  ret (truthy_str a).

(** property [title] *)
Definition title : M State (option string) :=
  self <- get_self ;;
  if_not (truthy_str (_title self))
    (self <- get_self ;;
     let splits := split "/" (audiobook_url self) in
     splits <- lift (list_remove "" splits) ;;
     last <- lift (last_item splits) ;;
     set_self (set_title (Some (replace "-" " " last)))) ;;;
  self <- get_self ;;
  ret (_title self).

(** The dict of the [else] branch of [make_playlist]. *)
Definition preview_playlist (preview : option string) : PyVal :=
  PyDict [("playlist",
           PyList [PyDict [("url", of_opt_str preview);
                           ("part_number", PyStr "preview");
                           ("chapter_number", PyStr "preview")]]);
          ("expires", PyNone);
          ("playlist_token", PyNone)].

(** The [if] branch of [make_playlist]: the playlist is asked of the
    server with the license id. *)
Definition premium_branch : M State PyVal :=
  lid <- license_id ;;
  lid <- lift (as_str lid) ;;
  let data := "{" ++ dquote ++ "license_id" ++ dquote ++ ":" ++ dquote ++ lid
              ++ dquote ++ "}" in
  pu <- playlist_url ;;
  self <- get_self ;;
  response_text <- post_url pu (session_key_header self) data ;;
  lift (json_loads response_text).

(** The [else] branch of [make_playlist]. *)
Definition preview_branch : M State PyVal :=
  p <- preview_url ;;
  ret (preview_playlist p).

(** [ScribdAudioBook.make_playlist(self)] *)
Definition make_playlist : M State PyVal :=
  premium <- premium_cookies ;;
  if premium then premium_branch else preview_branch.

(** property [playlist] *)
Definition playlist : M State (option Playlist.t) :=
  self <- get_self ;;
  if_not (truthy_obj (_playlist self))
    (t <- title ;;
     stem <- lift (match t with
                   | Some s => Ok (replace " " "_" s)
                   | None => Raise AttributeError
                   end) ;;
     pl <- make_playlist ;;
     p <- lift (Playlist.init stem pl) ;;
     set_self (set_playlist (Some p))) ;;;
  self <- get_self ;;
  ret (_playlist self).

End WithEnv.

End ScribdAudioBook.

(** ** Vocabulary of the properties *)

(** [window n s i]: the [n] characters of [s] from position [i] exist and
    are all digits. *)
Definition window (n : nat) (s : string) (i : nat) : bool :=
  Nat.eqb (String.length (substring i n s)) n && all_digits (substring i n s).

(** The positions of [s] at which [n] consecutive digits start, in
    increasing order. *)
Definition windows (n : nat) (s : string) : list nat :=
  filter (window n s) (seq 0 (S (String.length s))).

(** The maximal runs of digits of [s], from left to right; [inside] tells
    that the character before [s] was a digit. *)
Fixpoint digit_runs_from (inside : bool) (s : string) : list string :=
  match s with
  | EmptyString => []
  | String c r =>
      if is_digit c
      then if inside then digit_runs_from true r
           else substring 0 (digit_prefix s) s :: digit_runs_from true r
      else digit_runs_from false r
  end.

Definition maximal_digit_runs (s : string) : list string :=
  digit_runs_from false s.

(** The instance [__init__] builds for a URL whose identifier is [id],
    with the cookies [c]. *)
Definition constructed (url id : string) (c : Cookies) : ScribdAudioBook.t :=
  {| ScribdAudioBook._audiobook_keys := None;
     ScribdAudioBook._preview_url := None;
     ScribdAudioBook._book_id := None;
     ScribdAudioBook._author_id := None;
     ScribdAudioBook._license_url := None;
     ScribdAudioBook._license_id := PyNone;
     ScribdAudioBook._playlist_url := None;
     ScribdAudioBook._authenticate_url := None;
     ScribdAudioBook._title := None;
     ScribdAudioBook._playlist := None;
     ScribdAudioBook.audiobook_url := url;
     ScribdAudioBook.scribd_id := id;
     ScribdAudioBook.session_key_header :=
       [("Session-Key", "acea0b1d-62b9-4fb7-960b-06d9fbb4999d")];
     ScribdAudioBook.cookies := c |}.

Definition is_ok {A : Type} (r : Result A) : bool :=
  match r with
  | Ok _ => true
  | Raise _ => false
  end.

(** An entry with the three keys of the wire contract. *)
Definition has_track_keys (e : PyVal) : Prop :=
  exists u p c,
    getitem e "url" = Ok u /\ getitem e "part_number" = Ok p /\
    getitem e "chapter_number" = Ok c.

(** *** The download loop, observed

    The transfer of one track as the loop performs it: the progress line,
    then the stream download. *)
Definition transfer {E : Env} (title : string) (track : Track.t) : M World unit :=
  let path := Playlist.path_of title track in
  print (Playlist.dl_str_of track path) ;;;
  Track.download track path.

(** The request the transfer of a track sends. *)
Definition stream_request {E : Env} (title : string) (track : Track.t) : Request :=
  Stream (Track.url track) (Playlist.path_of title track).

(** Every transfer of [todo] completes, each in the world the transfers
    before it left. *)
Fixpoint transfers_succeed {E : Env} (title : string) (todo : list Track.t) (w : World) : bool :=
  match todo with
  | [] => true
  | track :: rest =>
      let (r, w') := transfer title track w in
      is_ok r && transfers_succeed title rest w'
  end.

(** The transfers of the first [k] tracks of [todo] complete and that of
    track [k] raises; the result is the exception raised. *)
Fixpoint first_failure {E : Env} (title : string) (todo : list Track.t) (w : World) (k : nat)
    : option PyError :=
  match todo with
  | [] => None
  | track :: rest =>
      match transfer title track w, k with
      | (Raise e, _), 0 => Some e
      | (Ok _, w'), S k' => first_failure title rest w' k'
      | _, _ => None
      end
  end.

Definition with_paths (self : Playlist.t) (paths : list string) : Playlist.t :=
  {| Playlist.title := Playlist.title self;
     Playlist.tracks := Playlist.tracks self;
     Playlist._playlist := Playlist._playlist self;
     Playlist.download_paths := paths |}.

(** The points of control of [Playlist.download]: at the head of the loop
    with the tracks still to visit; after the progress line, about to
    transfer; after the transfer, about to record the path; returned;
    raised. *)
Inductive Config : Type :=
| LoopHead (todo : list Track.t) (self : Playlist.t) (w : World)
| Transferring (track : Track.t) (rest : list Track.t) (self : Playlist.t) (w : World)
| Recording (track : Track.t) (rest : list Track.t) (self : Playlist.t) (w : World)
| Returned (self : Playlist.t) (w : World)
| Raised (e : PyError) (self : Playlist.t) (w : World).

Definition step {E : Env} (title : string) (c : Config) : option Config :=
  match c with
  | LoopHead [] self w => Some (Returned self w)
  | LoopHead (track :: rest) self w =>
      let path := Playlist.path_of title track in
      Some (Transferring track rest self (snd (print (Playlist.dl_str_of track path) w)))
  | Transferring track rest self w =>
      match Track.download track (Playlist.path_of title track) w with
      | (Ok _, w') => Some (Recording track rest self w')
      | (Raise e, w') => Some (Raised e self w')
      end
  | Recording track rest self w =>
      Some (LoopHead rest
              (with_paths self (Playlist.download_paths self ++ [Playlist.path_of title track]))
              w)
  | Returned _ _ => None
  | Raised _ _ _ => None
  end.

Inductive reaches {E : Env} (title : string) : Config -> Config -> Prop :=
| reaches_here (c : Config) : reaches title c c
| reaches_next (c c' c'' : Config) :
    step title c = Some c' -> reaches title c' c'' -> reaches title c c''.

Definition config_self (c : Config) : Playlist.t :=
  match c with
  | LoopHead _ self _ | Transferring _ _ self _ | Recording _ _ self _
  | Returned self _ | Raised _ self _ => self
  end.

Definition config_world (c : Config) : World :=
  match c with
  | LoopHead _ _ w | Transferring _ _ _ w | Recording _ _ _ w
  | Returned _ w | Raised _ _ w => w
  end.

(** The point of control at which a run of the loop ended. *)
Definition outcome (r : Result unit * (Playlist.t * World)) : Config :=
  match r with
  | (Ok _, (self, w)) => Returned self w
  | (Raise e, (self, w)) => Raised e self w
  end.

(** [self] is [self0] but for the recorded paths, which are [paths]. *)
Definition recorded (self0 self : Playlist.t) (paths : list string) : Prop :=
  Playlist.title self = Playlist.title self0 /\
  Playlist.tracks self = Playlist.tracks self0 /\
  Playlist._playlist self = Playlist._playlist self0 /\
  Playlist.download_paths self = paths.

(** What holds at each point of control of a run of [download] started on
    [self0] in [w0] over [tracks]: the tracks before the current one are
    done, their paths recorded after those of [self0] and their requests
    sent after those of [w0]; between the transfer and the recording the
    request of the current track is sent and its path not yet recorded. *)
Definition loop_invariant {E : Env} (title : string) (tracks : list Track.t)
    (self0 : Playlist.t) (w0 : World) (c : Config) : Prop :=
  let paths (done : list Track.t) : list string :=
    (Playlist.download_paths self0 ++ map (Playlist.path_of title) done)%list in
  let requests (done : list Track.t) : list Request :=
    (sent w0 ++ map (stream_request title) done)%list in
  match c with
  | LoopHead todo self w =>
      exists done, tracks = (done ++ todo)%list /\
        recorded self0 self (paths done) /\ sent w = requests done
  | Transferring track rest self w =>
      exists done, tracks = (done ++ track :: rest)%list /\
        recorded self0 self (paths done) /\ sent w = requests done
  | Recording track rest self w =>
      exists done, tracks = (done ++ track :: rest)%list /\
        recorded self0 self (paths done) /\ sent w = requests (done ++ [track])%list
  | Returned self w =>
      recorded self0 self (paths tracks) /\ sent w = requests tracks
  | Raised e self w =>
      exists done track rest, tracks = (done ++ track :: rest)%list /\
        recorded self0 self (paths done) /\ sent w = requests (done ++ [track])%list
  end.

(** *** The derived fields of an instance *)

Inductive Field : Type :=
| FAudiobookKeys
| FPreviewUrl
| FBookId
| FAuthorId
| FLicenseUrl
| FLicenseId
| FPlaylistUrl
| FAuthenticateUrl
| FTitle
| FPlaylist.

(** What a derived field holds and what its property returns. *)
Inductive FieldVal : Type :=
| VKeys (k : option ScribdAudioBook.Keys)
| VStr (s : option string)
| VPy (v : PyVal)
| VPlaylist (p : option Playlist.t).

Definition truthy_val (v : FieldVal) : bool :=
  match v with
  | VKeys k => truthy_obj k
  | VStr s => truthy_str s
  | VPy v => truthy v
  | VPlaylist p => truthy_obj p
  end.

(** The attribute behind a property. *)
Definition stored (f : Field) (self : ScribdAudioBook.t) : FieldVal :=
  match f with
  | FAudiobookKeys => VKeys (ScribdAudioBook._audiobook_keys self)
  | FPreviewUrl => VStr (ScribdAudioBook._preview_url self)
  | FBookId => VStr (ScribdAudioBook._book_id self)
  | FAuthorId => VStr (ScribdAudioBook._author_id self)
  | FLicenseUrl => VStr (ScribdAudioBook._license_url self)
  | FLicenseId => VPy (ScribdAudioBook._license_id self)
  | FPlaylistUrl => VStr (ScribdAudioBook._playlist_url self)
  | FAuthenticateUrl => VStr (ScribdAudioBook._authenticate_url self)
  | FTitle => VStr (ScribdAudioBook._title self)
  | FPlaylist => VPlaylist (ScribdAudioBook._playlist self)
  end.

Definition holds (f : Field) (v : FieldVal) (self : ScribdAudioBook.t) : Prop :=
  stored f self = v.

(** Reading the property of a field. *)
Definition access {E : Env} (f : Field) : M ScribdAudioBook.State FieldVal :=
  match f with
  | FAudiobookKeys => v <- ScribdAudioBook.audiobook_keys ;; ret (VKeys v)
  | FPreviewUrl => v <- ScribdAudioBook.preview_url ;; ret (VStr v)
  | FBookId => v <- ScribdAudioBook.book_id ;; ret (VStr v)
  | FAuthorId => v <- ScribdAudioBook.author_id ;; ret (VStr v)
  | FLicenseUrl => v <- ScribdAudioBook.license_url ;; ret (VStr v)
  | FLicenseId => v <- ScribdAudioBook.license_id ;; ret (VPy v)
  | FPlaylistUrl => v <- ScribdAudioBook.playlist_url ;; ret (VStr v)
  | FAuthenticateUrl => v <- ScribdAudioBook.authenticate_url ;; ret (VStr v)
  | FTitle => v <- ScribdAudioBook.title ;; ret (VStr v)
  | FPlaylist => v <- ScribdAudioBook.playlist ;; ret (VPlaylist v)
  end.

(** What a caller can do with an instance: read a property, read
    [premium_cookies], call [make_playlist]. *)
Inductive Call : Type :=
| Property (f : Field)
| PremiumCookies
| MakePlaylist.

Definition call {E : Env} (c : Call) : M ScribdAudioBook.State unit :=
  match c with
  | Property f => access f ;;; ret tt
  | PremiumCookies => ScribdAudioBook.premium_cookies ;;; ret tt
  | MakePlaylist => ScribdAudioBook.make_playlist ;;; ret tt
  end.

(** [later s s']: [s'] is the instance [s] after any number of calls,
    each in any state of the world, whether they returned or raised. *)
Inductive later {E : Env} (s : ScribdAudioBook.t) : ScribdAudioBook.t -> Prop :=
| later_now : later s s
| later_call (s' : ScribdAudioBook.t) (c : Call) (w : World) :
    later s s' -> later s (fst (snd (call c (s', w)))).

(** A method keeps a property of the instance. *)
Definition preserves {A : Type} (P : ScribdAudioBook.t -> Prop)
    (m : M ScribdAudioBook.State A) : Prop :=
  forall st, P (fst st) -> P (fst (snd (m st))).

(** The two requests of [license_id], up to the text of the license
    response. *)
Definition license_exchange {E : Env} : M ScribdAudioBook.State string :=
  au <- ScribdAudioBook.authenticate_url ;;
  self <- get_self ;;
  ScribdAudioBook.get_url au (Some (ScribdAudioBook.cookies self)) None ;;;
  lu <- ScribdAudioBook.license_url ;;
  self <- get_self ;;
  ScribdAudioBook.get_url lu None (Some (ScribdAudioBook.session_key_header self)).

(** The license id attribute is [x]. *)
Definition license_is (x : PyVal) (s : ScribdAudioBook.t) : Prop :=
  ScribdAudioBook._license_id s = x.

(** ** Concrete scenarios

    A small instance of the libraries and of the remote services, on which
    the methods can be run. *)
Module Scenario.

Definition q (s : string) : string := dquote ++ s ++ dquote.

Definition book_url : string :=
  "https://www.scribd.com/audiobook/123456789/My-Great-Book".

Definition sample_url : string := "https://cdn.example.com/audio/54321/sample.mp3".

Definition push_state (sample : string) : string :=
  "{" ++ q "audiobook_sample_url" ++ ":" ++ q sample ++ "}".

(** A content page: the preview container and one inline script. *)
Definition page (sample script : string) : string :=
  "<div data-track_category=" ++ q "book_preview" ++ " data-push_state='"
  ++ push_state sample ++ "'></div><script type=" ++ q "text/javascript" ++ ">"
  ++ script ++ "</script>".

Definition premium_script : string := "var account = 12345678;".
Definition free_script : string := "var account = null;".

Definition premium_page : string := page sample_url premium_script.
Definition free_page : string := page sample_url free_script.
(** A page whose sample URL carries no 5 to 6 digit work id. *)
Definition odd_page : string := page "https://cdn.example.com/sample.mp3" free_script.

Definition license_body (id : string) : string :=
  "{" ++ q "licenses" ++ ":[{" ++ q "id" ++ ":" ++ q id ++ "}]}".
Definition no_license_body : string := "{" ++ q "message" ++ ":" ++ q "denied" ++ "}".
Definition empty_license_body : string := "{" ++ q "licenses" ++ ":[]}".

Definition entry (u p c : string) : PyVal :=
  PyDict [("url", PyStr u); ("part_number", PyStr p); ("chapter_number", PyStr c)].

Definition server_playlist : PyVal :=
  PyDict [("playlist", PyList [entry "https://cdn.example.com/a.mp3" "0" "1";
                               entry "https://cdn.example.com/b.mp3" "0" "2";
                               entry "https://cdn.example.com/a.mp3" "1" "3"]);
          ("expires", PyStr "2030-01-01");
          ("playlist_token", PyStr "tok")].

Definition playlist_body : string := "PLAYLIST".

Definition pages : list (string * (string * string)) :=
  [(premium_page, (sample_url, premium_script));
   (free_page, (sample_url, free_script));
   (odd_page, ("https://cdn.example.com/sample.mp3", free_script))].

Fixpoint assoc {A : Type} (k : string) (l : list (string * A)) : option A :=
  match l with
  | [] => None
  | (k', v) :: rest => if String.eqb k k' then Some v else assoc k rest
  end.

Definition json_table : list (string * PyVal) :=
  [(push_state sample_url, PyDict [("audiobook_sample_url", PyStr sample_url)]);
   (push_state "https://cdn.example.com/sample.mp3",
    PyDict [("audiobook_sample_url", PyStr "https://cdn.example.com/sample.mp3")]);
   (license_body "", PyDict [("licenses", PyList [PyDict [("id", PyStr "")]])]);
   (license_body "L-42", PyDict [("licenses", PyList [PyDict [("id", PyStr "L-42")]])]);
   (no_license_body, PyDict [("message", PyStr "denied")]);
   (empty_license_body, PyDict [("licenses", PyList [])]);
   (playlist_body, server_playlist)].

#[local] Instance env : Env := {|
  json_parse := fun text => assoc text json_table;
  find_book_preview_div := fun text =>
    match assoc text pages with
    | Some (sample, _) =>
        Some [("data-track_category", "book_preview");
              ("data-push_state", push_state sample)]
    | None => None
    end;
  find_all_script_text := fun text =>
    match assoc text pages with
    | Some (_, script) => [script]
    | None => []
    end;
  str_container := fun _ => "[...]";
  const_premium_cookies := [("_scribd_session", "s3cr3t")]
|}.

Definition is_license_get (r : Request) : bool :=
  match r with
  | Get url _ (Some _) => true
  | _ => false
  end.

(** A remote side that serves [page_text] for the book, accepts the
    listen request, answers the [i]-th license request with the [i]-th of
    [license_bodies], serves the playlist, and completes every transfer
    but the one to [bad_path]. *)
Definition remote (page_text : string) (license_bodies : list string) (bad_path : string)
    (history : list Request) (r : Request) : Result string :=
  match r with
  | Get url (Some _) None =>
      if String.prefix book_url url then Ok page_text
      else Ok EmptyString
  | Get url _ _ =>
      match nth_error license_bodies (List.length (filter is_license_get history)) with
      | Some body => Ok body
      | None => Raise RequestException
      end
  | Post _ _ _ => Ok playlist_body
  | Stream _ path =>
      if String.eqb path bad_path then Raise RequestException else Ok EmptyString
  end.

Definition world (page_text : string) (license_bodies : list string) (bad_path : string) : World :=
  {| server := remote page_text license_bodies bad_path; sent := []; stdout := [] |}.

(** The instance [ScribdAudioBook(url)] right after construction. *)
Definition fresh (url id : string) : ScribdAudioBook.t :=
  constructed url id const_premium_cookies.

Definition book : ScribdAudioBook.t := fresh book_url "123456789".

Definition free_world : World := world free_page [] EmptyString.
Definition premium_world : World := world premium_page [license_body "L-42"] EmptyString.

(** A playlist of three chapters, as [Playlist.__init__] builds it. *)
Definition three_tracks : list Track.t :=
  map (fun e => {| Track.url := PyStr (fst e);
                   Track.part_number := PyStr "0";
                   Track.chapter_number := snd e;
                   Track._track := PyDict [("url", PyStr (fst e));
                                          ("part_number", PyStr "0");
                                          ("chapter_number", snd e)] |})
      [("https://cdn.example.com/a.mp3", PyInt 1);
       ("https://cdn.example.com/b.mp3", PyInt 2);
       ("https://cdn.example.com/c.mp3", PyInt 3)].

Definition three_chapters : Playlist.t :=
  {| Playlist.title := "My_Great_Book";
     Playlist.tracks := three_tracks;
     Playlist._playlist := PyNone;
     Playlist.download_paths := [] |}.

End Scenario.

(** *** A page without push state

    The libraries of [Scenario] on one more page, whose preview container
    carries the category attribute and nothing else. *)
Definition bare_page : string :=
  "<div data-track_category=" ++ Scenario.q "book_preview" ++ "></div><script type="
  ++ Scenario.q "text/javascript" ++ ">" ++ Scenario.premium_script ++ "</script>".

Definition bare_env : Env := {|
  json_parse := @json_parse Scenario.env;
  find_book_preview_div := fun text =>
    if String.eqb text bare_page then Some [("data-track_category", "book_preview")]
    else @find_book_preview_div Scenario.env text;
  find_all_script_text := fun text =>
    if String.eqb text bare_page then [Scenario.premium_script]
    else @find_all_script_text Scenario.env text;
  str_container := @str_container Scenario.env;
  const_premium_cookies := @const_premium_cookies Scenario.env
|}.

(** *** Requests and pages *)

(** The world after the request [r] was sent. *)
Definition after_request (w : World) (r : Request) : World :=
  {| server := server w; sent := sent w ++ [r]; stdout := stdout w |}.

(** The request [_scrape_audiobook] sends for an instance. *)
Definition page_request (s : ScribdAudioBook.t) : Request :=
  Get (ScribdAudioBook.audiobook_url s) (Some (ScribdAudioBook.cookies s)) None.

(** [div_tag["data-push_state"]] for the attributes of a tag. *)
Definition push_state_of (attrs : list (string * string)) : option string :=
  match find (fun kv => String.eqb (fst kv) "data-push_state") attrs with
  | Some kv => Some (snd kv)
  | None => None
  end.

(** Why [_scrape_audiobook] can fail on an instance [s] in a world [w],
    with the exception of each cause. *)
Inductive ScrapeFailure {E : Env} (s : ScribdAudioBook.t) (w : World) : PyError -> Prop :=
| transport_failed (e : PyError) :
    server w (sent w) (page_request s) = Raise e ->
    ScrapeFailure s w e
| no_preview_container (text : string) :
    server w (sent w) (page_request s) = Ok text ->
    find_book_preview_div text = None ->
    ScrapeFailure s w TypeError
| no_push_state (text : string) (attrs : list (string * string)) :
    server w (sent w) (page_request s) = Ok text ->
    find_book_preview_div text = Some attrs ->
    push_state_of attrs = None ->
    ScrapeFailure s w KeyError
| push_state_not_json (text : string) (attrs : list (string * string)) (push : string) :
    server w (sent w) (page_request s) = Ok text ->
    find_book_preview_div text = Some attrs ->
    push_state_of attrs = Some push ->
    json_parse push = None ->
    ScrapeFailure s w JSONDecodeError
| no_sample_url (text : string) (attrs : list (string * string)) (push : string)
    (doc : PyVal) (e : PyError) :
    server w (sent w) (page_request s) = Ok text ->
    find_book_preview_div text = Some attrs ->
    push_state_of attrs = Some push ->
    json_parse push = Some doc ->
    getitem doc "audiobook_sample_url" = Raise e ->
    ScrapeFailure s w e
| sample_url_not_str (text : string) (attrs : list (string * string)) (push : string)
    (doc sample : PyVal) :
    server w (sent w) (page_request s) = Ok text ->
    find_book_preview_div text = Some attrs ->
    push_state_of attrs = Some push ->
    json_parse push = Some doc ->
    getitem doc "audiobook_sample_url" = Ok sample ->
    as_str sample = Raise TypeError ->
    ScrapeFailure s w TypeError
| no_book_id (text : string) (attrs : list (string * string)) (push : string)
    (doc : PyVal) (sample : string) :
    server w (sent w) (page_request s) = Ok text ->
    find_book_preview_div text = Some attrs ->
    push_state_of attrs = Some push ->
    json_parse push = Some doc ->
    getitem doc "audiobook_sample_url" = Ok (PyStr sample) ->
    windows 5 sample = [] ->
    ScrapeFailure s w AttributeError
| no_script (text : string) (attrs : list (string * string)) (push : string)
    (doc : PyVal) (sample : string) (i : nat) (rest : list nat) :
    server w (sent w) (page_request s) = Ok text ->
    find_book_preview_div text = Some attrs ->
    push_state_of attrs = Some push ->
    json_parse push = Some doc ->
    getitem doc "audiobook_sample_url" = Ok (PyStr sample) ->
    windows 5 sample = i :: rest ->
    find_all_script_text text = [] ->
    ScrapeFailure s w IndexError.

(** *** Which attributes a property may assign *)

Definition field_eqb (f g : Field) : bool :=
  match f, g with
  | FAudiobookKeys, FAudiobookKeys | FPreviewUrl, FPreviewUrl | FBookId, FBookId
  | FAuthorId, FAuthorId | FLicenseUrl, FLicenseUrl | FLicenseId, FLicenseId
  | FPlaylistUrl, FPlaylistUrl | FAuthenticateUrl, FAuthenticateUrl
  | FTitle, FTitle | FPlaylist, FPlaylist => true
  | _, _ => false
  end.

(** The attributes a read of the property [f] may assign: its own and
    those of the properties it reads. *)
Definition footprint (f : Field) : list Field :=
  match f with
  | FAudiobookKeys => [FAudiobookKeys]
  | FPreviewUrl => [FPreviewUrl; FAudiobookKeys]
  | FBookId => [FBookId; FAudiobookKeys]
  | FAuthorId => [FAuthorId; FAudiobookKeys]
  | FLicenseUrl => [FLicenseUrl; FAuthorId; FBookId; FAudiobookKeys]
  | FLicenseId =>
      [FLicenseId; FAuthenticateUrl; FLicenseUrl; FAuthorId; FBookId; FAudiobookKeys]
  | FPlaylistUrl => [FPlaylistUrl; FBookId; FAudiobookKeys]
  | FAuthenticateUrl => [FAuthenticateUrl]
  | FTitle => [FTitle]
  | FPlaylist =>
      [FPlaylist; FTitle; FAuthorId; FAudiobookKeys; FLicenseId; FAuthenticateUrl;
       FLicenseUrl; FBookId; FPlaylistUrl; FPreviewUrl]
  end.

(** The attributes a call may assign. *)
Definition call_footprint (c : Call) : list Field :=
  match c with
  | Property f => footprint f
  | PremiumCookies => footprint FAuthorId
  | MakePlaylist =>
      [FAuthorId; FAudiobookKeys; FLicenseId; FAuthenticateUrl; FLicenseUrl; FBookId;
       FPlaylistUrl; FPreviewUrl]
  end.

Definition writes (fp : list Field) (g : Field) : bool := existsb (field_eqb g) fp.

(** A method that raises keeps a property of the instance. *)
Definition keeps_on_raise {A : Type} (P : ScribdAudioBook.t -> Prop)
    (m : M ScribdAudioBook.State A) : Prop :=
  forall st, P (fst st) -> is_ok (fst (m st)) = false -> P (fst (snd (m st))).

(** The attributes set at construction and never assigned afterwards. *)
Definition same_inputs (s s' : ScribdAudioBook.t) : Prop :=
  ScribdAudioBook.audiobook_url s' = ScribdAudioBook.audiobook_url s /\
  ScribdAudioBook.scribd_id s' = ScribdAudioBook.scribd_id s /\
  ScribdAudioBook.session_key_header s' = ScribdAudioBook.session_key_header s /\
  ScribdAudioBook.cookies s' = ScribdAudioBook.cookies s.

(** *** Characters of a string *)

(** [c in s]. *)
Fixpoint has_char (c : ascii) (s : string) : bool :=
  match s with
  | EmptyString => false
  | String c' r => Ascii.eqb c' c || has_char c r
  end.

(** The progress line and the path of a track, as [download] forms
    them. *)
Definition progress_line {E : Env} (title : string) (track : Track.t) : string :=
  Playlist.dl_str_of track (Playlist.path_of title track).

(** *** What the attributes are derived from *)

(** The URL of the license record for the scraped keys [k]. *)
Definition license_url_of (k : ScribdAudioBook.Keys) : string :=
  "https://api.findawayworld.com/v4/accounts/scribd-"
  ++ str_opt (ScribdAudioBook.keys_author_id k)
  ++ "/audiobooks/" ++ ScribdAudioBook.keys_book_id k.

(** The URL of the playlist endpoint for the scraped keys [k]. *)
Definition playlist_url_of (k : ScribdAudioBook.Keys) : string :=
  "https://api.findawayworld.com/v4/audiobooks/" ++ ScribdAudioBook.keys_book_id k
  ++ "/playlists".

(** The URL of the listen page of an instance. *)
Definition listen_url_of (s : ScribdAudioBook.t) : string :=
  "https://www.scribd.com/listen/" ++ ScribdAudioBook.scribd_id s.

(** The title of a content URL. *)
Definition title_of_url (url : string) : Result string :=
  let! splits := list_remove EmptyString (split "/" url) in
  let! last := last_item splits in
  Ok (replace "-" " " last).

(** The two requests of the license exchange, and the playlist request. *)
Definition listen_request (s : ScribdAudioBook.t) : Request :=
  Get (listen_url_of s) (Some (ScribdAudioBook.cookies s)) None.

Definition license_request (s : ScribdAudioBook.t) (k : ScribdAudioBook.Keys) : Request :=
  Get (license_url_of k) None (Some (ScribdAudioBook.session_key_header s)).

Definition playlist_request (s : ScribdAudioBook.t) (k : ScribdAudioBook.Keys)
    (license : string) : Request :=
  Post (playlist_url_of k) (ScribdAudioBook.session_key_header s)
    ("{" ++ dquote ++ "license_id" ++ dquote ++ ":" ++ dquote ++ license ++ dquote ++ "}").

(** Every attribute that is set agrees with what it is derived from: the
    identifiers and the API URLs with the scraped keys, the listen URL
    with the content identifier, the title with the content URL, the
    playlist with the title. *)
Definition coherent (s : ScribdAudioBook.t) : Prop :=
  (forall v, ScribdAudioBook._preview_url s = Some v ->
     exists k, ScribdAudioBook._audiobook_keys s = Some k /\
       v = ScribdAudioBook.keys_preview_url k) /\
  (forall v, ScribdAudioBook._book_id s = Some v ->
     exists k, ScribdAudioBook._audiobook_keys s = Some k /\
       v = ScribdAudioBook.keys_book_id k) /\
  (forall v, ScribdAudioBook._author_id s = Some v ->
     exists k, ScribdAudioBook._audiobook_keys s = Some k /\
       ScribdAudioBook.keys_author_id k = Some v) /\
  (forall v, ScribdAudioBook._license_url s = Some v ->
     exists k, ScribdAudioBook._audiobook_keys s = Some k /\ v = license_url_of k) /\
  (forall v, ScribdAudioBook._playlist_url s = Some v ->
     exists k, ScribdAudioBook._audiobook_keys s = Some k /\ v = playlist_url_of k) /\
  (forall v, ScribdAudioBook._authenticate_url s = Some v -> v = listen_url_of s) /\
  (forall v, ScribdAudioBook._title s = Some v ->
     title_of_url (ScribdAudioBook.audiobook_url s) = Ok v) /\
  (forall p, ScribdAudioBook._playlist s = Some p ->
     exists t, ScribdAudioBook._title s = Some t /\
       Playlist.title p = replace " " "_" t).

(** A method keeps the attributes coherent, and when it returns [a],
    [post a] holds of the instance. *)
Definition spec {E : Env} {A : Type} (m : M ScribdAudioBook.State A)
    (post : A -> ScribdAudioBook.t -> Prop) : Prop :=
  forall st r st',
    coherent (fst st) -> m st = (r, st') ->
    coherent (fst st') /\ forall a, r = Ok a -> post a (fst st').

(** With the keys [k] scraped, a method returns a value satisfying [post]
    without raising, sends nothing and leaves the keys in place. *)
Definition quiet {A : Type} (k : ScribdAudioBook.Keys) (m : M ScribdAudioBook.State A)
    (post : A -> Prop) : Prop :=
  forall s w,
    ScribdAudioBook._audiobook_keys s = Some k ->
    exists a s',
      m (s, w) = (Ok a, (s', w)) /\
      ScribdAudioBook._audiobook_keys s' = Some k /\
      post a.

(** The id of the first license record of a response text:
    [json.loads(text)["licenses"][0]["id"]]. *)
Definition first_license_id {E : Env} (text : string) : Result PyVal :=
  let! response_dict := json_loads text in
  let! licenses := getitem response_dict "licenses" in
  let! license := getitem0 licenses in
  getitem license "id".

(** An entry of a playlist record with numeric part and chapter numbers. *)
Definition numbered_entry (u : string) (part chapter : Z) : PyVal :=
  PyDict [("url", PyStr u); ("part_number", PyInt part); ("chapter_number", PyInt chapter)].

(** * Properties *)

(** ** Digit search *)

Lemma re_search_digits_eq (lo hi : nat) (s : string) :
  re_search_digits lo hi s =
  if Nat.leb lo (Nat.min (digit_prefix s) hi)
  then Some (substring 0 (Nat.min (digit_prefix s) hi) s)
  else match s with
       | EmptyString => None
       | String _ r => re_search_digits lo hi r
       end.
Proof. destruct s; reflexivity. Qed.

Lemma substring_empty (i n : nat) : substring i n EmptyString = EmptyString.
Proof. destruct i, n; reflexivity. Qed.

Lemma window_head (n : nat) (s : string) :
  window n s 0 = Nat.leb n (digit_prefix s).
Proof.
  revert s; induction n as [|n IH]; intros s.
  - destruct s; reflexivity.
  - destruct s as [|c r].
    + reflexivity.
    + specialize (IH r). unfold window in *.
      cbn [substring String.length all_digits digit_prefix].
      destruct (is_digit c); cbn [andb Nat.eqb Nat.leb].
      * exact IH.
      * apply andb_false_r.
Qed.

Lemma window_tail (n : nat) (c : ascii) (r : string) (i : nat) :
  window n (String c r) (S i) = window n r i.
Proof. reflexivity. Qed.

Lemma filter_seq_shift (f : nat -> bool) (a m : nat) :
  filter f (seq (S a) m) = map S (filter (fun j => f (S j)) (seq a m)).
Proof.
  revert a; induction m as [|m IH]; intros a; cbn [seq filter map].
  - reflexivity.
  - destruct (f (S a)); cbn [map]; rewrite IH; reflexivity.
Qed.

Lemma windows_cons (n : nat) (c : ascii) (r : string) :
  windows n (String c r) =
  ((if window n (String c r) 0 then [0] else []) ++ map S (windows n r))%list.
Proof.
  unfold windows.
  change (seq 0 (S (String.length (String c r))))
    with (0 :: seq 1 (S (String.length r))).
  change (filter (window n (String c r)) (0 :: seq 1 (S (String.length r))))
    with (if window n (String c r) 0
          then 0 :: filter (window n (String c r)) (seq 1 (S (String.length r)))
          else filter (window n (String c r)) (seq 1 (S (String.length r)))).
  rewrite filter_seq_shift.
  destruct (window n (String c r) 0); reflexivity.
Qed.

(** [re.search] finds the leftmost window. *)
Lemma re_search_windows (n : nat) (s : string) :
  0 < n ->
  re_search_digits n n s =
  match windows n s with
  | [] => None
  | i :: _ => Some (substring i n s)
  end.
Proof.
  intros Hn. induction s as [|c r IH].
  - destruct n; [lia|]. reflexivity.
  - rewrite re_search_digits_eq, windows_cons, window_head.
    destruct (Nat.leb n (digit_prefix (String c r))) eqn:Hd.
    + apply Nat.leb_le in Hd.
      replace (Nat.min (digit_prefix (String c r)) n) with n by lia.
      replace (Nat.leb n n) with true by (symmetry; apply Nat.leb_refl).
      reflexivity.
    + apply Nat.leb_gt in Hd.
      replace (Nat.leb n (Nat.min (digit_prefix (String c r)) n)) with false
        by (symmetry; apply Nat.leb_gt; lia).
      rewrite IH. cbn [app].
      destruct (windows n r); reflexivity.
Qed.

Lemma filter_seq_head (f : nat -> bool) (a m i : nat) (rest : list nat) :
  filter f (seq a m) = i :: rest ->
  f i = true /\ a <= i /\ forall j, a <= j < i -> f j = false.
Proof.
  revert a; induction m as [|m IH]; intros a; cbn [seq filter].
  - discriminate.
  - destruct (f a) eqn:Hfa.
    + intros H; injection H as <- _. repeat split; auto; intros; lia.
    + intros H. destruct (IH _ H) as (Hi & Hle & Hlt).
      repeat split; auto; [lia|].
      intros j Hj. destruct (Nat.eq_dec j a) as [->|]; auto. apply Hlt; lia.
Qed.

Lemma length_substring_le (i n : nat) (s : string) :
  String.length (substring i n s) = n -> 0 < n -> i < String.length s.
Proof.
  revert i; induction s as [|c r IH]; intros i Hlen Hn.
  - rewrite substring_empty in Hlen. cbn in Hlen. lia.
  - destruct i; cbn [String.length]; [lia|].
    cbn [substring] in Hlen. apply IH in Hlen; lia.
Qed.

Lemma windows_nil (n : nat) (s : string) (i : nat) :
  0 < n -> windows n s = [] -> window n s i = false.
Proof.
  intros Hn Hw. destruct (window n s i) eqn:Hi; [|reflexivity].
  assert (In i (windows n s)) as Hin.
  { unfold windows. apply filter_In. split; [|exact Hi].
    apply in_seq. unfold window in Hi. apply andb_prop in Hi as [Hl _].
    apply Nat.eqb_eq in Hl. apply length_substring_le in Hl; lia. }
  rewrite Hw in Hin. destruct Hin.
Qed.

(** ** Construction and the content identifier *)

Lemma init_found {E : Env} (url : string) (w : World) (i : nat) (rest : list nat) :
  windows 9 url = i :: rest ->
  ScribdAudioBook.init url w =
  (Ok (constructed url (substring i 9 url) const_premium_cookies), w).
Proof.
  intros Hw. unfold ScribdAudioBook.init.
  rewrite re_search_windows by lia. rewrite Hw. reflexivity.
Qed.

Lemma init_not_found {E : Env} (url : string) (w : World) :
  windows 9 url = [] ->
  ScribdAudioBook.init url w = (Raise AttributeError, w).
Proof.
  intros Hw. unfold ScribdAudioBook.init.
  rewrite re_search_windows by lia. rewrite Hw. reflexivity.
Qed.

(** C10.  The content identifier is taken when the instance is
    constructed, and it is the leftmost window of 9 consecutive digits of
    the URL: when the windows of the URL start at [i :: rest] (in
    increasing order), construction succeeds without any request to the
    world, [scribd_id] is the 9 characters from [i], no position before [i]
    starts a window, and no derived field is computed yet.  When the URL
    has no window, construction itself raises, again without any
    request. *)
Theorem C10_scribd_id_leftmost_at_construction {E : Env} (url : string) (w : World) :
  (forall i rest, windows 9 url = i :: rest ->
     exists s,
       ScribdAudioBook.init url w = (Ok s, w) /\
       ScribdAudioBook.scribd_id s = substring i 9 url /\
       window 9 url i = true /\
       (forall j, j < i -> window 9 url j = false) /\
       ScribdAudioBook.audiobook_url s = url /\
       ScribdAudioBook._audiobook_keys s = None) /\
  (windows 9 url = [] ->
     (forall i, window 9 url i = false) /\
     ScribdAudioBook.init url w = (Raise AttributeError, w)).
Proof.
  split.
  - intros i rest Hw. eexists. split; [apply (init_found url w i rest Hw)|].
    cbn [ScribdAudioBook.scribd_id ScribdAudioBook.audiobook_url
         ScribdAudioBook._audiobook_keys].
    unfold windows in Hw. apply filter_seq_head in Hw as (Hi & _ & Hlt).
    repeat split; auto. intros j Hj. apply Hlt. lia.
  - intros Hw. split.
    + intros i. apply windows_nil; [lia|exact Hw].
    + apply init_not_found, Hw.
Qed.

Lemma C10_witness :
  (exists s,
     ScribdAudioBook.init (E := Scenario.env)
       "https://www.scribd.com/audiobook/1234567890123/987654321" Scenario.free_world
     = (Ok s, Scenario.free_world) /\
     ScribdAudioBook.scribd_id s = "123456789") /\
  ScribdAudioBook.init (E := Scenario.env) "https://www.scribd.com/audiobook/12345678"
    Scenario.free_world
  = (Raise AttributeError, Scenario.free_world).
Proof.
  split.
  - destruct (proj1 (C10_scribd_id_leftmost_at_construction (E := Scenario.env)
       "https://www.scribd.com/audiobook/1234567890123/987654321" Scenario.free_world)
       33 [34; 35; 36; 37; 47] eq_refl) as (s & Hs & Hid & _).
    exists s. split; [exact Hs|exact Hid].
  - exact (proj2 (proj2 (C10_scribd_id_leftmost_at_construction (E := Scenario.env)
       "https://www.scribd.com/audiobook/12345678" Scenario.free_world) eq_refl)).
Defined.

(** C2, as the code has it.  When exactly one position of the URL starts
    a window of 9 consecutive digits, construction succeeds and
    [scribd_id] is that window.  When no position does, construction
    raises [AttributeError] (the [group] call on the [None] that
    [re.search] returned) and no instance exists; the module defines no
    error kind of its own. *)
Theorem C2_single_window_extracted {E : Env} (url : string) (w : World) :
  (forall i, windows 9 url = [i] ->
     exists s,
       ScribdAudioBook.init url w = (Ok s, w) /\
       ScribdAudioBook.scribd_id s = substring i 9 url /\
       window 9 url i = true /\
       (forall j, j <> i -> window 9 url j = false)) /\
  (windows 9 url = [] ->
     ScribdAudioBook.init url w = (Raise AttributeError, w)).
Proof.
  split.
  - intros i Hw. eexists. split; [apply (init_found url w i [] Hw)|].
    cbn [ScribdAudioBook.scribd_id].
    assert (Hin : forall j, window 9 url j = true -> In j (windows 9 url)).
    { intros j Hj. unfold windows. apply filter_In. split; [|exact Hj].
      apply in_seq. unfold window in Hj. apply andb_prop in Hj as [Hl _].
      apply Nat.eqb_eq in Hl. apply length_substring_le in Hl; lia. }
    repeat split.
    + unfold windows in Hw. apply filter_seq_head in Hw. tauto.
    + intros j Hj. destruct (window 9 url j) eqn:Hwj; [|reflexivity].
      apply Hin in Hwj. rewrite Hw in Hwj. destruct Hwj as [->|[]]. congruence.
  - apply init_not_found.
Qed.

Lemma C2_witness :
  (exists s,
     ScribdAudioBook.init (E := Scenario.env) Scenario.book_url Scenario.free_world
     = (Ok s, Scenario.free_world) /\
     ScribdAudioBook.scribd_id s = "123456789") /\
  ScribdAudioBook.init (E := Scenario.env) "https://www.scribd.com/audiobook/My-Great-Book"
    Scenario.free_world
  = (Raise AttributeError, Scenario.free_world).
Proof.
  split.
  - destruct (proj1 (C2_single_window_extracted (E := Scenario.env)
       Scenario.book_url Scenario.free_world) 33 eq_refl) as (s & Hs & Hid & _).
    exists s. split; [exact Hs|exact Hid].
  - exact (proj2 (C2_single_window_extracted (E := Scenario.env)
       "https://www.scribd.com/audiobook/My-Great-Book" Scenario.free_world) eq_refl).
Defined.

(** C2 as stated fails twice.  The URL below has exactly one maximal run
    of 9 digits, ["987654321"], after a longer run; [scribd_id] is not that
    run but the first 9 digits of the longer one.  And the error raised
    for a URL without identifier is the [AttributeError] that scraping a
    page whose sample URL has no work id raises as well, so its kind does
    not tell the two failures apart. *)
Lemma C2_counterexample :
  filter (fun r => Nat.eqb (String.length r) 9)
    (maximal_digit_runs "https://www.scribd.com/audiobook/1234567890/987654321")
  = ["987654321"] /\
  fst (ScribdAudioBook.init (E := Scenario.env)
         "https://www.scribd.com/audiobook/1234567890/987654321" Scenario.free_world)
  = Ok (Scenario.fresh "https://www.scribd.com/audiobook/1234567890/987654321" "123456789") /\
  fst (ScribdAudioBook.init (E := Scenario.env)
         "https://www.scribd.com/audiobook/My-Great-Book" Scenario.free_world)
  = Raise AttributeError /\
  fst (ScribdAudioBook._scrape_audiobook (E := Scenario.env)
         (Scenario.book, Scenario.world Scenario.odd_page [] EmptyString))
  = Raise AttributeError.
Proof. repeat split; vm_compute; reflexivity. Qed.

(** ** The title *)

Lemma split_with_final_separator (sep : ascii) (s : string) :
  exists x l, split sep (s ++ String sep EmptyString) = x :: (l ++ [EmptyString])%list.
Proof.
  induction s as [|c r (x & l & IH)]; cbn [append split].
  - rewrite Ascii.eqb_refl. exists EmptyString, []. reflexivity.
  - rewrite IH. destruct (Ascii.eqb c sep).
    + exists EmptyString, (x :: l). reflexivity.
    + exists (String c x), l. reflexivity.
Qed.

Lemma last_item_snoc (l : list string) (a : string) : last_item (l ++ [a]) = Ok a.
Proof.
  induction l as [|x l IH]; [reflexivity|].
  cbn [app last_item]. destruct (l ++ [a])%list eqn:Hl; [|exact IH].
  destruct l; discriminate.
Qed.

Lemma last_segment_of_final_slash (rest : string) :
  (let! splits := list_remove EmptyString (split "/" ("https://" ++ rest ++ "/")) in
   last_item splits) = Ok EmptyString.
Proof.
  change (split "/" ("https://" ++ rest ++ "/"))
    with ("https:" :: EmptyString :: split "/" (rest ++ "/")).
  destruct (split_with_final_separator "/" rest) as (x & l & ->).
  change (list_remove EmptyString ("https:" :: EmptyString :: x :: (l ++ [EmptyString])%list))
    with (Ok ("https:" :: x :: (l ++ [EmptyString])%list)).
  cbn [rbind].
  change (last_item ("https:" :: x :: (l ++ [EmptyString])%list))
    with (last_item ((x :: l) ++ [EmptyString])%list).
  apply last_item_snoc.
Qed.

(** Every URL with a scheme that ends in a slash has the empty title. *)
Lemma title_of_final_slash (rest id : string) (c : Cookies) (w : World) :
  fst (ScribdAudioBook.title (constructed ("https://" ++ rest ++ "/") id c, w))
  = Ok (Some EmptyString).
Proof.
  pose proof (last_segment_of_final_slash rest) as H.
  unfold ScribdAudioBook.title, bind, get_self, if_not, lift, set_self, ret.
  cbn -[split append list_remove last_item].
  destruct (list_remove EmptyString (split "/" ("https://" ++ rest ++ "/")))
    as [splits|e]; cbn [rbind] in H; [|discriminate H].
  rewrite H. reflexivity.
Qed.

(** C3.  What [title] and the file-name stem of [playlist] are for the
    example URL, which ends in a slash: [remove] deletes only the first
    empty segment, the one after the scheme, so the last segment is the
    empty one after the final slash, and both the title and the stem are
    empty; so it is for every URL with a scheme and a final slash.
    Without the final slash the title is ["My Great Book"] and the stem
    ["My_Great_Book"].  Reading the title again gives the same value. *)
Theorem C3_title_of_url_with_final_slash {E : Env} (w : World) :
  (exists s st,
     ScribdAudioBook.init "https://x.com/123456789/My-Great-Book/" w = (Ok s, w) /\
     ScribdAudioBook.title (s, w) = (Ok (Some EmptyString), st) /\
     ScribdAudioBook.title st = (Ok (Some EmptyString), st) /\
     replace " " "_" EmptyString = EmptyString) /\
  (forall rest id c,
     fst (ScribdAudioBook.title (constructed ("https://" ++ rest ++ "/") id c, w))
     = Ok (Some EmptyString)) /\
  (exists s st,
     ScribdAudioBook.init "https://x.com/123456789/My-Great-Book" w = (Ok s, w) /\
     ScribdAudioBook.title (s, w) = (Ok (Some "My Great Book"), st) /\
     ScribdAudioBook.title st = (Ok (Some "My Great Book"), st) /\
     replace " " "_" "My Great Book" = "My_Great_Book") /\
  (exists p st,
     ScribdAudioBook.playlist (E := Scenario.env)
       (Scenario.fresh (Scenario.book_url ++ "/") "123456789", Scenario.free_world)
     = (Ok (Some p), st) /\
     Playlist.title p = EmptyString /\
     map (Playlist.path_of (E := Scenario.env) (Playlist.title p)) (Playlist.tracks p)
     = ["_preview.mp3"]) /\
  (exists p st,
     ScribdAudioBook.playlist (E := Scenario.env) (Scenario.book, Scenario.free_world)
     = (Ok (Some p), st) /\
     Playlist.title p = "My_Great_Book" /\
     map (Playlist.path_of (E := Scenario.env) (Playlist.title p)) (Playlist.tracks p)
     = ["My_Great_Book_preview.mp3"]).
Proof.
  split; [|split; [|split; [|split]]].
  - do 2 eexists. split; [reflexivity|]; repeat split; reflexivity.
  - intros rest id c. apply title_of_final_slash.
  - do 2 eexists. split; [reflexivity|]; repeat split; reflexivity.
  - do 2 eexists. split; [vm_compute; reflexivity|]; split; reflexivity.
  - do 2 eexists. split; [vm_compute; reflexivity|]; split; reflexivity.
Qed.

(** ** Building the playlist *)

Lemma comprehension_Forall2 {A B : Type} (f : A -> Result B) (l : list A) (l' : list B) :
  comprehension f l = Ok l' -> Forall2 (fun x y => f x = Ok y) l l'.
Proof.
  revert l'; induction l as [|x l IH]; intros l' H; cbn in H.
  - injection H as <-. constructor.
  - destruct (f x) as [y|e] eqn:Hx; cbn in H; [|discriminate].
    destruct (comprehension f l) as [ys|e] eqn:Hl; cbn in H; [|discriminate].
    injection H as <-. constructor; auto.
Qed.

Lemma comprehension_total {A B : Type} (f : A -> Result B) (l : list A) :
  Forall (fun x => exists y, f x = Ok y) l -> exists l', comprehension f l = Ok l'.
Proof.
  induction 1 as [|x l [y Hy] _ [ys Hys]]; cbn.
  - eexists; reflexivity.
  - rewrite Hy, Hys. eexists; reflexivity.
Qed.

Lemma comprehension_raises {A B : Type} (f : A -> Result B) (l : list A) :
  Exists (fun x => is_ok (f x) = false) l -> is_ok (comprehension f l) = false.
Proof.
  induction 1 as [x l Hx|x l _ IH]; cbn.
  - destruct (f x); [discriminate|reflexivity].
  - destruct (f x); [|reflexivity]. cbn.
    destruct (comprehension f l); [discriminate|reflexivity].
Qed.

Lemma track_init_fields (e : PyVal) (t : Track.t) :
  Track.init e = Ok t ->
  getitem e "url" = Ok (Track.url t) /\
  getitem e "part_number" = Ok (Track.part_number t) /\
  getitem e "chapter_number" = Ok (Track.chapter_number t) /\
  Track._track t = e.
Proof.
  unfold Track.init. intros H.
  destruct (getitem e "url") as [u|]; cbn in H; [|discriminate].
  destruct (getitem e "part_number") as [p|]; cbn in H; [|discriminate].
  destruct (getitem e "chapter_number") as [c|]; cbn in H; [|discriminate].
  injection H as <-. cbn. auto.
Qed.

(** C4.  For a record whose ["playlist"] is the array [entries]:
    whenever [Playlist] is constructed, its tracks are the entries, one
    for one and in the same order, each with the url, part number and
    chapter number of its entry unchanged (and the entry itself kept);
    construction succeeds when every entry has the three keys, and raises
    rather than leave an entry out when one has not. *)
Theorem C4_tracks_follow_entries (title : string) (record : PyVal) (entries : list PyVal) :
  getitem record "playlist" = Ok (PyList entries) ->
  (forall p, Playlist.init title record = Ok p ->
     Forall2 (fun e t =>
                getitem e "url" = Ok (Track.url t) /\
                getitem e "part_number" = Ok (Track.part_number t) /\
                getitem e "chapter_number" = Ok (Track.chapter_number t) /\
                Track._track t = e)
             entries (Playlist.tracks p) /\
     List.length (Playlist.tracks p) = List.length entries /\
     map Track._track (Playlist.tracks p) = entries /\
     Playlist.title p = title /\
     Playlist.download_paths p = []) /\
  (Forall has_track_keys entries -> exists p, Playlist.init title record = Ok p) /\
  (Exists (fun e => ~ has_track_keys e) entries ->
     is_ok (Playlist.init title record) = false).
Proof.
  intros Hrec. unfold Playlist.init. rewrite Hrec. cbn [rbind py_iter].
  split; [|split].
  - intros p Hp.
    destruct (comprehension Track.init entries) as [ts|] eqn:Hts; cbn in Hp;
      [|discriminate].
    injection Hp as <-. cbn [Playlist.tracks Playlist.title Playlist.download_paths].
    apply comprehension_Forall2 in Hts.
    assert (HF : Forall2 (fun e t => getitem e "url" = Ok (Track.url t) /\
                getitem e "part_number" = Ok (Track.part_number t) /\
                getitem e "chapter_number" = Ok (Track.chapter_number t) /\
                Track._track t = e) entries ts).
    { eapply Forall2_impl; [|exact Hts]. exact track_init_fields. }
    repeat split; auto.
    + symmetry. eapply Forall2_length; eauto.
    + clear Hts Hrec.
      induction HF as [|e t es ts' (_ & _ & _ & He) _ IH]; cbn [map];
        [reflexivity|rewrite He, IH; reflexivity].
  - intros Hall.
    destruct (comprehension_total Track.init entries) as [ts Hts].
    { eapply Forall_impl; [|exact Hall]. intros e (u & p & c & Hu & Hp & Hc).
      unfold Track.init. rewrite Hu, Hp, Hc. cbn. eexists; reflexivity. }
    rewrite Hts. cbn. eexists; reflexivity.
  - intros Hex.
    assert (Hc : is_ok (comprehension Track.init entries) = false).
    { apply comprehension_raises. eapply Exists_impl; [|exact Hex].
      intros e Hne. destruct (Track.init e) as [t|] eqn:Ht; [|reflexivity].
      exfalso. apply Hne. apply track_init_fields in Ht.
      destruct Ht as (Hu & Hp & Hcn & _). do 3 eexists; eauto. }
    destruct (comprehension Track.init entries); [discriminate|reflexivity].
Qed.

Lemma C4_witness :
  exists p,
    Playlist.init "My_Great_Book" Scenario.server_playlist = Ok p /\
    map Track.url (Playlist.tracks p)
    = [PyStr "https://cdn.example.com/a.mp3"; PyStr "https://cdn.example.com/b.mp3";
       PyStr "https://cdn.example.com/a.mp3"] /\
    map Track.chapter_number (Playlist.tracks p) = [PyStr "1"; PyStr "2"; PyStr "3"].
Proof.
  destruct (C4_tracks_follow_entries "My_Great_Book" Scenario.server_playlist _ eq_refl)
    as (_ & Hex & _).
  destruct Hex as [p Hp].
  - repeat constructor; do 3 eexists; repeat split; reflexivity.
  - exists p. split; [exact Hp|].
    cbv in Hp. injection Hp as <-. split; reflexivity.
Defined.

(** ** Downloading the playlist *)

Section Download.
#[local] Open Scope list_scope.
Context {E : Env}.
Variable title : string.

Lemma transfer_sent (track : Track.t) (w : World) :
  sent (snd (transfer title track w)) = sent w ++ [stream_request title track].
Proof.
  unfold transfer, bind, print, Track.download, internals.download_stream, bind, send, ret.
  cbn. destruct (server w (sent w) _); reflexivity.
Qed.

Lemma download_loop_cons (track : Track.t) (rest : list Track.t) (self : Playlist.t) (w : World) :
  Playlist.download_loop title (track :: rest) (self, w) =
  match transfer title track w with
  | (Ok _, w') =>
      Playlist.download_loop title rest
        (with_paths self (Playlist.download_paths self ++ [Playlist.path_of title track]), w')
  | (Raise e, w') => (Raise e, (self, w'))
  end.
Proof.
  cbn [Playlist.download_loop].
  unfold transfer, bind, in_world, print, Track.download, internals.download_stream,
    bind, send, ret, Playlist.append_path, set_self, with_paths.
  cbn. destruct (server w (sent w) _); reflexivity.
Qed.

Lemma recorded_with_paths (self0 self : Playlist.t) (paths paths' : list string) :
  recorded self0 self paths -> recorded self0 (with_paths self paths') paths'.
Proof. unfold recorded. cbn. tauto. Qed.

Lemma download_loop_succeeds (todo : list Track.t) :
  forall (self0 self : Playlist.t) (w : World),
    transfers_succeed title todo w = true ->
    recorded self0 self (Playlist.download_paths self) ->
    exists self' w',
      Playlist.download_loop title todo (self, w) = (Ok tt, (self', w')) /\
      recorded self0 self'
        (Playlist.download_paths self ++ map (Playlist.path_of title) todo) /\
      sent w' = sent w ++ map (stream_request title) todo.
Proof.
  induction todo as [|track rest IH]; intros self0 self w Hok Hrec.
  - exists self, w. cbn [map]. rewrite !app_nil_r. auto.
  - rewrite download_loop_cons. cbn [transfers_succeed] in Hok.
    pose proof (transfer_sent track w) as Hsent.
    destruct (transfer title track w) as [[[]|e] w1]; cbn in Hok; [|discriminate].
    cbn [snd] in Hsent.
    destruct (IH self0
                (with_paths self (Playlist.download_paths self ++ [Playlist.path_of title track]))
                w1 Hok) as (self' & w' & Hrun & Hrec' & Hs).
    { apply recorded_with_paths with (paths := Playlist.download_paths self). exact Hrec. }
    exists self', w'. split; [exact Hrun|].
    cbn [with_paths Playlist.download_paths] in Hrec'.
    rewrite <- app_assoc in Hrec'. rewrite Hs, Hsent, <- app_assoc.
    split; [exact Hrec'|reflexivity].
Qed.

Lemma download_loop_fails (todo : list Track.t) :
  forall (self0 self : Playlist.t) (w : World) (k : nat) (e : PyError),
    first_failure title todo w k = Some e ->
    recorded self0 self (Playlist.download_paths self) ->
    exists self' w',
      Playlist.download_loop title todo (self, w) = (Raise e, (self', w')) /\
      recorded self0 self'
        (Playlist.download_paths self ++ map (Playlist.path_of title) (firstn k todo)) /\
      sent w' = sent w ++ map (stream_request title) (firstn (S k) todo) /\
      k < List.length todo.
Proof.
  induction todo as [|track rest IH]; intros self0 self w k e Hf Hrec.
  - discriminate.
  - rewrite download_loop_cons. cbn [first_failure] in Hf.
    pose proof (transfer_sent track w) as Hsent.
    destruct (transfer title track w) as [[[]|e'] w1]; cbn [snd] in Hsent.
    + destruct k as [|k]; [discriminate|].
      destruct (IH self0
                  (with_paths self (Playlist.download_paths self ++ [Playlist.path_of title track]))
                  w1 k e Hf) as (self' & w' & Hrun & Hrec' & Hs & Hk).
      { apply recorded_with_paths with (paths := Playlist.download_paths self). exact Hrec. }
      exists self', w'. split; [exact Hrun|].
      cbn [with_paths Playlist.download_paths] in Hrec'.
      rewrite <- app_assoc in Hrec'. rewrite Hs, Hsent, <- app_assoc.
      split; [exact Hrec'|]. split; [reflexivity|]. cbn [List.length]. lia.
    + destruct k as [|k]; [|discriminate]. injection Hf as ->.
      exists self, w1. cbn [firstn map List.length]. rewrite app_nil_r.
      split; [reflexivity|]. split; [exact Hrec|]. split; [exact Hsent|lia].
Qed.

(** The run of the loop, point by point, ends where [download_loop]
    ends. *)
Lemma download_loop_reaches (todo : list Track.t) :
  forall (self : Playlist.t) (w : World),
    reaches title (LoopHead todo self w)
      (outcome (Playlist.download_loop title todo (self, w))).
Proof.
  induction todo as [|track rest IH]; intros self w.
  - eapply reaches_next; [reflexivity|]. apply reaches_here.
  - eapply reaches_next; [reflexivity|].
    rewrite download_loop_cons. unfold transfer, bind, print. cbn [snd].
    set (w1 := {| server := server w; sent := sent w; stdout := _ |}).
    destruct (Track.download track (Playlist.path_of title track) w1) as [[[]|e] w2] eqn:Hd.
    + eapply reaches_next; [cbn [step]; rewrite Hd; reflexivity|].
      eapply reaches_next; [reflexivity|]. apply IH.
    + eapply reaches_next; [cbn [step]; rewrite Hd; reflexivity|].
      apply reaches_here.
Qed.

Lemma step_invariant (tracks : list Track.t) (self0 : Playlist.t) (w0 : World)
    (c c' : Config) :
  step title c = Some c' ->
  loop_invariant title tracks self0 w0 c ->
  loop_invariant title tracks self0 w0 c'.
Proof.
  destruct c as [todo self w|track rest self w|track rest self w|self w|e self w];
    cbn [step]; intros Hstep Hinv.
  - destruct todo as [|track rest]; injection Hstep as <-.
    + destruct Hinv as (done & Ht & Hrec & Hs). rewrite app_nil_r in Ht. subst done.
      split; assumption.
    + exact Hinv.
  - destruct Hinv as (done & Ht & Hrec & Hs).
    assert (Hsent : sent (snd (Track.download track (Playlist.path_of title track) w))
                    = sent w ++ [stream_request title track]).
    { unfold Track.download, internals.download_stream, bind, send, ret. cbn.
      destruct (server w (sent w) _); reflexivity. }
    destruct (Track.download track (Playlist.path_of title track) w) as [[[]|e] w1];
      injection Hstep as <-; cbn [snd] in Hsent; cbn [loop_invariant].
    + exists done. rewrite Hsent, Hs, map_app, app_assoc. auto.
    + exists done, track, rest. rewrite Hsent, Hs, map_app, app_assoc. auto.
  - injection Hstep as <-. destruct Hinv as (done & Ht & Hrec & Hs).
    exists (done ++ [track]). rewrite <- app_assoc. split; [exact Ht|].
    split; [|exact Hs].
    destruct Hrec as (H1 & H2 & H3 & H4). unfold recorded. cbn.
    rewrite H4, map_app, app_assoc. auto.
  - discriminate.
  - discriminate.
Qed.

Lemma reaches_invariant (tracks : list Track.t) (self0 : Playlist.t) (w0 : World)
    (c c' : Config) :
  reaches title c c' ->
  loop_invariant title tracks self0 w0 c ->
  loop_invariant title tracks self0 w0 c'.
Proof.
  induction 1 as [c|c c1 c2 Hstep _ IH]; intros Hinv; [exact Hinv|].
  apply IH. eapply step_invariant; eassumption.
Qed.

(** The bounds the invariant gives at any point: the paths recorded are
    those of [completed], the requests sent those of [attempted], both
    initial segments of the tracks, and [attempted] is [completed] or
    [completed] and the track in transfer. *)
Lemma invariant_bounds (tracks : list Track.t) (self0 : Playlist.t) (w0 : World) (c : Config) :
  loop_invariant title tracks self0 w0 c ->
  exists completed pending rest,
    tracks = completed ++ pending ++ rest /\
    List.length pending <= 1 /\
    Playlist.download_paths (config_self c)
    = Playlist.download_paths self0 ++ map (Playlist.path_of title) completed /\
    sent (config_world c)
    = sent w0 ++ map (stream_request title) (completed ++ pending) /\
    Playlist.tracks (config_self c) = Playlist.tracks self0.
Proof.
  destruct c as [todo self w|track rest self w|track rest self w|self w|e self w];
    cbn [loop_invariant config_self config_world].
  - intros (done & Ht & (H1 & H2 & H3 & H4) & Hs).
    exists done, [], todo. rewrite app_nil_r. cbn. auto.
  - intros (done & Ht & (H1 & H2 & H3 & H4) & Hs).
    exists done, [], (track :: rest). rewrite app_nil_r. cbn. auto.
  - intros (done & Ht & (H1 & H2 & H3 & H4) & Hs).
    exists done, [track], rest. cbn. auto.
  - intros ((H1 & H2 & H3 & H4) & Hs).
    exists tracks, [], []. rewrite !app_nil_r. cbn. auto.
  - intros (done & track & rest & Ht & (H1 & H2 & H3 & H4) & Hs).
    exists done, [track], rest. cbn. auto.
Qed.

End Download.




(** C6.  When the transfers of tracks [0..k-1] complete and that of track
    [k] raises [e], [download] raises [e]; the paths recorded by then are
    those of tracks [0..k-1], in order, after the paths already there
    (exactly those [k] paths on a playlist as constructed), and the stream
    requests sent are those of tracks [0..k], none for a later track.  At every point of control of any run, the paths recorded since
    the start are those of an initial segment [completed] of the tracks,
    and the requests sent since the start those of [completed] followed by
    at most the one track in transfer; the point at which [download] ends
    is such a point. *)
Theorem C6_abort_at_first_failure {E : Env} (self : Playlist.t) (w : World) :
  (forall k e,
     first_failure (Playlist.title self) (Playlist.tracks self) w k = Some e ->
     exists self' w',
       Playlist.download (self, w) = (Raise e, (self', w')) /\
       k < List.length (Playlist.tracks self) /\
       Playlist.tracks self' = Playlist.tracks self /\
       Playlist.download_paths self'
       = (Playlist.download_paths self
          ++ map (Playlist.path_of (Playlist.title self)) (firstn k (Playlist.tracks self)))%list /\
       sent w'
       = (sent w
          ++ map (stream_request (Playlist.title self)) (firstn (S k) (Playlist.tracks self)))%list /\
       (Playlist.download_paths self = [] ->
          Playlist.download_paths self'
          = map (Playlist.path_of (Playlist.title self)) (firstn k (Playlist.tracks self)) /\
          List.length (Playlist.download_paths self') = k)) /\
  (forall c,
     reaches (Playlist.title self) (LoopHead (Playlist.tracks self) self w) c ->
     exists completed pending rest,
       Playlist.tracks self = (completed ++ pending ++ rest)%list /\
       List.length pending <= 1 /\
       Playlist.download_paths (config_self c)
       = (Playlist.download_paths self
          ++ map (Playlist.path_of (Playlist.title self)) completed)%list /\
       sent (config_world c)
       = (sent w ++ map (stream_request (Playlist.title self)) (completed ++ pending))%list /\
       List.length (Playlist.download_paths (config_self c))
         - List.length (Playlist.download_paths self)
       <= List.length (sent (config_world c)) - List.length (sent w)) /\
  reaches (Playlist.title self) (LoopHead (Playlist.tracks self) self w)
    (outcome (Playlist.download (self, w))).
Proof.
  split; [|split].
  - intros k e Hf.
    destruct (download_loop_fails (Playlist.title self) (Playlist.tracks self)
                self self w k e Hf) as (self' & w' & Hrun & (Ht & Htr & _ & Hp) & Hs & Hk).
    { unfold recorded. auto. }
    exists self', w'. split; [exact Hrun|]. split; [exact Hk|]. split; [exact Htr|].
    split; [exact Hp|]. split; [exact Hs|]. intros Hfresh.
    rewrite Hp, Hfresh. cbn [app]. split; [reflexivity|].
    rewrite length_map, length_firstn. lia.
  - intros c Hc.
    apply (reaches_invariant _ (Playlist.tracks self) self w) in Hc.
    + apply invariant_bounds in Hc.
      destruct Hc as (completed & pending & rest & Ht & Hl & Hp & Hs & _).
      exists completed, pending, rest.
      split; [exact Ht|]. split; [exact Hl|]. split; [exact Hp|]. split; [exact Hs|].
      rewrite Hp, Hs, !length_app, !length_map, length_app. lia.
    + exists []. cbn [app map]. rewrite !app_nil_r. unfold recorded.
      repeat split; reflexivity.
  - apply download_loop_reaches.
Qed.

Lemma C6_witness :
  exists self' w',
    Playlist.download (E := Scenario.env)
      (Scenario.three_chapters,
       Scenario.world Scenario.premium_page [] "My_Great_Book_2.mp3")
    = (Raise RequestException, (self', w')) /\
    Playlist.download_paths self' = ["My_Great_Book_1.mp3"] /\
    sent w' = [Stream (PyStr "https://cdn.example.com/a.mp3") "My_Great_Book_1.mp3";
               Stream (PyStr "https://cdn.example.com/b.mp3") "My_Great_Book_2.mp3"].
Proof.
  destruct (proj1 (C6_abort_at_first_failure (E := Scenario.env)
              Scenario.three_chapters
              (Scenario.world Scenario.premium_page [] "My_Great_Book_2.mp3"))
              1 RequestException eq_refl)
    as (self' & w' & Hrun & _ & _ & Hp & Hs & _).
  exists self', w'. split; [exact Hrun|]. split; [exact Hp|exact Hs].
Defined.

(** C6 as stated fails on a playlist that holds paths already.  After a
    first run that completed, a second run on the same playlist fails at
    its first track ([k = 0]): one track was attempted and none completed,
    yet [download_paths] holds the three paths of the first run, where the
    paths of tracks [0..k-1] are none. *)
Lemma C6_counterexample :
  let first :=
    Playlist.download (E := Scenario.env) (Scenario.three_chapters, Scenario.premium_world) in
  let self1 := fst (snd first) in
  let w := Scenario.world Scenario.premium_page [] "My_Great_Book_1.mp3" in
  let second := Playlist.download (E := Scenario.env) (self1, w) in
  let self2 := fst (snd second) in
  fst first = Ok tt /\
  first_failure (E := Scenario.env) (Playlist.title self1) (Playlist.tracks self1) w 0
  = Some RequestException /\
  fst second = Raise RequestException /\
  sent (snd (snd second))
  = [Stream (PyStr "https://cdn.example.com/a.mp3") "My_Great_Book_1.mp3"] /\
  map (Playlist.path_of (E := Scenario.env) (Playlist.title self1))
    (firstn 0 (Playlist.tracks self1)) = [] /\
  Playlist.download_paths self2
  = ["My_Great_Book_1.mp3"; "My_Great_Book_2.mp3"; "My_Great_Book_3.mp3"] /\
  List.length (sent (snd (snd second))) = 1 /\
  List.length (Playlist.download_paths self2) = 3.
Proof. vm_compute. repeat split; reflexivity. Qed.

(** ** Properties of the instance: what a call keeps *)

Section Preserves.
Context {E : Env}.
Variable P : ScribdAudioBook.t -> Prop.

Lemma preserves_ret {A : Type} (a : A) : preserves P (ret a).
Proof. intros st H; exact H. Qed.

Lemma preserves_raise {A : Type} (e : PyError) : preserves P (raise (A := A) e).
Proof. intros st H; exact H. Qed.

Lemma preserves_lift {A : Type} (r : Result A) : preserves P (lift r).
Proof. intros st H; exact H. Qed.

Lemma preserves_in_world {A : Type} (m : M World A) : preserves P (in_world m).
Proof. intros [s w] H. unfold in_world. cbn. destruct (m w). exact H. Qed.

Lemma preserves_bind {A B : Type} (m : M ScribdAudioBook.State A)
    (k : A -> M ScribdAudioBook.State B) :
  preserves P m -> (forall a, preserves P (k a)) -> preserves P (bind m k).
Proof.
  intros Hm Hk st H. unfold bind. specialize (Hm st H).
  destruct (m st) as [[a|e] st']; [apply Hk|]; exact Hm.
Qed.

Lemma preserves_get_self {B : Type} (k : ScribdAudioBook.t -> M ScribdAudioBook.State B) :
  (forall self, P self -> preserves P (k self)) -> preserves P (bind get_self k).
Proof. intros Hk st H. unfold bind, get_self. apply Hk; exact H. Qed.

Lemma preserves_set_self (f : ScribdAudioBook.t -> ScribdAudioBook.t) :
  (forall s, P s -> P (f s)) -> preserves P (set_self f).
Proof. intros Hf st H. apply Hf, H. Qed.

Lemma preserves_if_not (c : bool) (body : M ScribdAudioBook.State unit) :
  (c = false -> preserves P body) -> preserves P (if_not c body).
Proof. destruct c; intros H; [apply preserves_ret|apply H; reflexivity]. Qed.

Lemma preserves_get_url (url : option string) (c : option Cookies) (h : option Headers) :
  preserves P (ScribdAudioBook.get_url url c h).
Proof. destruct url; [apply preserves_in_world|apply preserves_raise]. Qed.

Lemma preserves_post_url (url : option string) (h : Headers) (d : string) :
  preserves P (ScribdAudioBook.post_url url h d).
Proof. destruct url; [apply preserves_in_world|apply preserves_raise]. Qed.

End Preserves.

Create HintDb memo.

(** Walks a method along its binds; [leaf] settles the assignments. *)
Ltac walk leaf :=
  repeat lazymatch goal with
  | |- preserves _ (bind get_self _) => apply preserves_get_self; intros ? ?
  | |- preserves _ (bind _ _) => apply preserves_bind; [|intros ?]
  | |- preserves _ (if_not _ _) => apply preserves_if_not; intros ?
  | |- preserves _ (ret _) => apply preserves_ret
  | |- preserves _ (lift _) => apply preserves_lift
  | |- preserves _ (raise _) => apply preserves_raise
  | |- preserves _ (in_world _) => apply preserves_in_world
  | |- preserves _ (ScribdAudioBook.get_url _ _ _) => apply preserves_get_url
  | |- preserves _ (ScribdAudioBook.post_url _ _ _) => apply preserves_post_url
  | |- preserves _ (set_self _) => apply preserves_set_self; leaf
  | |- preserves _ (if ?b then _ else _) => destruct b
  | |- preserves _ _ => solve [eauto with memo]
  end.

(** An assignment to a derived field keeps [holds f v] for a truthy [v]:
    either it is to another field, or the guard of the property, which saw
    the field falsy, excludes it. *)
Ltac leaf_truthy :=
  let s := fresh "s" in
  let Hs := fresh "Hs" in
  intros s Hs;
  match goal with
  | f : Field |- _ =>
      destruct f; unfold holds, stored in *; cbn in *;
      first [exact Hs | exfalso; subst; cbn in *; congruence]
  end.

Section Truthy.
Context {E : Env}.
Variables (f : Field) (v : FieldVal).
Hypothesis Hv : truthy_val v = true.

Lemma scrape_keeps : preserves (holds f v) ScribdAudioBook._scrape_audiobook.
Proof. unfold ScribdAudioBook._scrape_audiobook. walk leaf_truthy. Qed.
#[local] Hint Resolve scrape_keeps : memo.

Lemma audiobook_keys_keeps : preserves (holds f v) ScribdAudioBook.audiobook_keys.
Proof. unfold ScribdAudioBook.audiobook_keys. walk leaf_truthy. Qed.
#[local] Hint Resolve audiobook_keys_keeps : memo.

Lemma preview_url_keeps : preserves (holds f v) ScribdAudioBook.preview_url.
Proof. unfold ScribdAudioBook.preview_url. walk leaf_truthy. Qed.
#[local] Hint Resolve preview_url_keeps : memo.

Lemma book_id_keeps : preserves (holds f v) ScribdAudioBook.book_id.
Proof. unfold ScribdAudioBook.book_id. walk leaf_truthy. Qed.
#[local] Hint Resolve book_id_keeps : memo.

Lemma author_id_keeps : preserves (holds f v) ScribdAudioBook.author_id.
Proof. unfold ScribdAudioBook.author_id. walk leaf_truthy. Qed.
#[local] Hint Resolve author_id_keeps : memo.

Lemma license_url_keeps : preserves (holds f v) ScribdAudioBook.license_url.
Proof. unfold ScribdAudioBook.license_url. walk leaf_truthy. Qed.
#[local] Hint Resolve license_url_keeps : memo.

Lemma authenticate_url_keeps : preserves (holds f v) ScribdAudioBook.authenticate_url.
Proof. unfold ScribdAudioBook.authenticate_url. walk leaf_truthy. Qed.
#[local] Hint Resolve authenticate_url_keeps : memo.

Lemma license_id_keeps : preserves (holds f v) ScribdAudioBook.license_id.
Proof. unfold ScribdAudioBook.license_id. walk leaf_truthy. Qed.
#[local] Hint Resolve license_id_keeps : memo.

Lemma playlist_url_keeps : preserves (holds f v) ScribdAudioBook.playlist_url.
Proof. unfold ScribdAudioBook.playlist_url. walk leaf_truthy. Qed.
#[local] Hint Resolve playlist_url_keeps : memo.

Lemma premium_cookies_keeps : preserves (holds f v) ScribdAudioBook.premium_cookies.
Proof. unfold ScribdAudioBook.premium_cookies. walk leaf_truthy. Qed.
#[local] Hint Resolve premium_cookies_keeps : memo.

Lemma title_keeps : preserves (holds f v) ScribdAudioBook.title.
Proof. unfold ScribdAudioBook.title. walk leaf_truthy. Qed.
#[local] Hint Resolve title_keeps : memo.

Lemma make_playlist_keeps : preserves (holds f v) ScribdAudioBook.make_playlist.
Proof.
  unfold ScribdAudioBook.make_playlist, ScribdAudioBook.premium_branch,
    ScribdAudioBook.preview_branch.
  walk leaf_truthy.
Qed.
#[local] Hint Resolve make_playlist_keeps : memo.

Lemma playlist_keeps : preserves (holds f v) ScribdAudioBook.playlist.
Proof. unfold ScribdAudioBook.playlist. walk leaf_truthy. Qed.
#[local] Hint Resolve playlist_keeps : memo.

Lemma call_keeps (c : Call) : preserves (holds f v) (call c).
Proof.
  destruct c as [g| |]; [destruct g|..]; unfold call, access; walk leaf_truthy.
Qed.

End Truthy.

(** ** Memoization *)

Section Memo.
Context {E : Env}.

Lemma returns_attribute {A : Type} (guard : ScribdAudioBook.t -> M ScribdAudioBook.State unit)
    (proj : ScribdAudioBook.t -> A) (st st' : ScribdAudioBook.State) (v : A) :
  bind get_self (fun self =>
    bind (guard self) (fun _ =>
      bind get_self (fun self' => ret (proj self')))) st = (Ok v, st') ->
  proj (fst st') = v.
Proof.
  unfold bind, get_self, ret.
  destruct (guard (fst st) st) as [[[]|e] st1]; intros H; inversion H; reflexivity.
Qed.

(** Reads off an equation [m st = (Ok v, st')], for a property [m], that
    [v] is what the attribute holds in [st']. *)
Ltac attribute_of H :=
  unfold ScribdAudioBook.audiobook_keys, ScribdAudioBook.preview_url,
    ScribdAudioBook.book_id, ScribdAudioBook.author_id, ScribdAudioBook.license_url,
    ScribdAudioBook.license_id, ScribdAudioBook.playlist_url,
    ScribdAudioBook.authenticate_url, ScribdAudioBook.title, ScribdAudioBook.playlist
    in H;
  match type of H with
  | bind get_self (fun self => bind (@?g self) (fun _ =>
      bind get_self (fun self' => ret (@?p self')))) _ = _ =>
      apply (returns_attribute g p) in H
  end.

(** A property returns what its attribute holds when it returns. *)
Lemma access_returns_stored (f : Field) (st st' : ScribdAudioBook.State) (v : FieldVal) :
  access f st = (Ok v, st') -> stored f (fst st') = v.
Proof.
  intros H.
  destruct f; unfold access in H; unfold bind at 1 in H;
    match type of H with
    | match ?g with _ => _ end = _ =>
        destruct g as [[r|?] st1] eqn:Hg; [|discriminate H]
    end;
    unfold ret in H; injection H as <- <-;
    attribute_of Hg; cbn [stored]; rewrite Hg; reflexivity.
Qed.

(** A property whose attribute is truthy returns it and touches neither
    the instance nor the world. *)
Lemma access_cached (f : Field) (s : ScribdAudioBook.t) (w : World) :
  truthy_val (stored f s) = true ->
  access f (s, w) = (Ok (stored f s), (s, w)).
Proof.
  intros H.
  destruct f; cbn [stored truthy_val] in H;
    unfold access, ScribdAudioBook.audiobook_keys, ScribdAudioBook.preview_url,
      ScribdAudioBook.book_id, ScribdAudioBook.author_id, ScribdAudioBook.license_url,
      ScribdAudioBook.license_id, ScribdAudioBook.playlist_url,
      ScribdAudioBook.authenticate_url, ScribdAudioBook.title, ScribdAudioBook.playlist;
    unfold bind at 1 2 3; unfold get_self at 1; cbn [fst];
    rewrite H; reflexivity.
Qed.

Lemma later_keeps (f : Field) (v : FieldVal) (s s' : ScribdAudioBook.t) :
  truthy_val v = true -> later s s' -> holds f v s -> holds f v s'.
Proof.
  intros Hv Hl Hs. induction Hl as [|s' c w _ IH]; [exact Hs|].
  apply (call_keeps f v Hv c (s', w)). exact IH.
Qed.

End Memo.

(** C8, as the code has it.  What a property returns is what its
    attribute then holds.  Once a property has returned a truthy value,
    every later read of it, after any calls on the instance and in any
    state of the world, returns that value, leaves the instance as it is
    and sends nothing: the value is neither recomputed nor replaced.  (A
    falsy value leaves the attribute falsy, which is the state the guard
    of the property takes for not computed.) *)
Theorem C8_truthy_values_are_memoized {E : Env} (f : Field)
    (s s1 : ScribdAudioBook.t) (w w1 : World) (v : FieldVal) :
  access f (s, w) = (Ok v, (s1, w1)) ->
  stored f s1 = v /\
  (truthy_val v = true ->
   forall s2 w2, later s1 s2 -> access f (s2, w2) = (Ok v, (s2, w2))).
Proof.
  intros Hacc.
  apply access_returns_stored in Hacc. cbn [fst] in Hacc.
  split; [exact Hacc|]. intros Hv s2 w2 Hl.
  pose proof (later_keeps f v s1 s2 Hv Hl Hacc) as Hs2.
  unfold holds in Hs2. rewrite <- Hs2. apply access_cached. rewrite Hs2. exact Hv.
Qed.

Lemma C8_witness :
  let st1 := snd (access (E := Scenario.env) FTitle (Scenario.book, Scenario.free_world)) in
  let s2 := fst (snd (call (E := Scenario.env) MakePlaylist (fst st1, snd st1))) in
  access (E := Scenario.env) FTitle (s2, Scenario.premium_world)
  = (Ok (VStr (Some "My Great Book")), (s2, Scenario.premium_world)).
Proof.
  intros st1 s2.
  apply (proj2 (C8_truthy_values_are_memoized (E := Scenario.env) FTitle
                  Scenario.book (fst st1) Scenario.free_world (snd st1)
                  (VStr (Some "My Great Book")) eq_refl)).
  - reflexivity.
  - apply later_call. apply later_now.
Defined.

(** C8 as stated fails on falsy values.  The license service answers the
    first license request with an empty id and the second with ["L-42"]:
    the first read of [license_id] returns the empty id after three
    requests, the second read sends two more and returns ["L-42"].  And
    after [author_id] returned [None], or [title] the empty string, the
    attribute is as falsy as before the read, so the next read runs the
    body again. *)
Lemma C8_counterexample :
  let w := Scenario.world Scenario.premium_page
             [Scenario.license_body EmptyString; Scenario.license_body "L-42"] EmptyString in
  let first := ScribdAudioBook.license_id (E := Scenario.env) (Scenario.book, w) in
  let second := ScribdAudioBook.license_id (E := Scenario.env) (snd first) in
  let author := ScribdAudioBook.author_id (E := Scenario.env)
                  (Scenario.book, Scenario.free_world) in
  let title := ScribdAudioBook.title
                 (Scenario.fresh (Scenario.book_url ++ "/") "123456789", Scenario.free_world) in
  fst first = Ok (PyStr EmptyString) /\
  List.length (sent (snd (snd first))) = 3 /\
  fst second = Ok (PyStr "L-42") /\
  List.length (sent (snd (snd second))) = 5 /\
  fst author = Ok None /\
  truthy_str (ScribdAudioBook._author_id (fst (snd author))) = false /\
  fst title = Ok (Some EmptyString) /\
  truthy_str (ScribdAudioBook._title (fst (snd title))) = false.
Proof. vm_compute. repeat split; reflexivity. Qed.

(** ** The two branches of [make_playlist] *)

Section Branches.
Context {E : Env}.

Lemma audiobook_keys_some (st st' : ScribdAudioBook.State) (o : option ScribdAudioBook.Keys) :
  ScribdAudioBook.audiobook_keys st = (Ok o, st') ->
  exists k, o = Some k /\ ScribdAudioBook._audiobook_keys (fst st') = Some k.
Proof.
  unfold ScribdAudioBook.audiobook_keys, bind, get_self, if_not, ret, set_self.
  destruct (ScribdAudioBook._audiobook_keys (fst st)) as [k|] eqn:Hk; cbn [truthy_obj].
  - intros H. injection H as <- <-. eauto.
  - destruct (ScribdAudioBook._scrape_audiobook st) as [[k|e] st1]; intros H;
      [|discriminate].
    cbn in H. injection H as <- <-. eauto.
Qed.

(** When [author_id] returns [None], the scraped keys are in place. *)
Lemma author_none_keys (st st1 : ScribdAudioBook.State) :
  ScribdAudioBook.author_id st = (Ok None, st1) ->
  exists k, ScribdAudioBook._audiobook_keys (fst st1) = Some k.
Proof.
  unfold ScribdAudioBook.author_id.
  unfold bind at 1 2. unfold get_self at 1. unfold if_not.
  destruct (truthy_str (ScribdAudioBook._author_id (fst st))) eqn:Ht.
  - unfold ret, bind, get_self. intros H. injection H as H _.
    rewrite H in Ht. discriminate.
  - unfold bind at 1.
    destruct (ScribdAudioBook.audiobook_keys st) as [[o|e] st2] eqn:Hk; [|discriminate].
    apply audiobook_keys_some in Hk as (k & -> & Hk).
    unfold lift, bind, set_self, get_self, ret. cbn.
    intros H. injection H as _ <-. cbn. eauto.
Qed.

(** With the scraped keys in place, [preview_url] returns a string. *)
Lemma preview_url_with_keys (st : ScribdAudioBook.State) (k : ScribdAudioBook.Keys) :
  ScribdAudioBook._audiobook_keys (fst st) = Some k ->
  exists u st', ScribdAudioBook.preview_url st = (Ok (Some u), st').
Proof.
  intros Hk. unfold ScribdAudioBook.preview_url.
  unfold bind at 1 2. unfold get_self at 1. unfold if_not.
  destruct (ScribdAudioBook._preview_url (fst st)) as [[|c u]|] eqn:Hp; cbn [truthy_str negb str_empty].
  2: { unfold ret, bind, get_self. rewrite Hp. eauto. }
  all: unfold ScribdAudioBook.audiobook_keys, bind, get_self, if_not, ret, lift, set_self;
    rewrite Hk; cbn; rewrite ?Hk; cbn; eauto.
Qed.

End Branches.

(** C1.  When [author_id] resolves to [None], whatever else the instance
    holds, [make_playlist] returns the dict of the fallback branch: its
    ["playlist"] list has exactly one entry, whose url is what the
    property [preview_url] returns and whose part and chapter numbers are
    the string ["preview"]; a [Playlist] built from it has exactly one
    track, with these three values. *)
Theorem C1_author_none_gives_preview {E : Env}
    (s : ScribdAudioBook.t) (w : World) (st1 : ScribdAudioBook.State) :
  ScribdAudioBook.author_id (s, w) = (Ok None, st1) ->
  exists u st2 record entry,
    ScribdAudioBook.preview_url st1 = (Ok (Some u), st2) /\
    ScribdAudioBook.make_playlist (s, w) = (Ok record, st2) /\
    getitem record "playlist" = Ok (PyList [entry]) /\
    getitem entry "url" = Ok (PyStr u) /\
    getitem entry "part_number" = Ok (PyStr "preview") /\
    getitem entry "chapter_number" = Ok (PyStr "preview") /\
    forall title,
      Playlist.init title record
      = Ok (Playlist.Build title
              [Track.Build (PyStr u) (PyStr "preview") (PyStr "preview") entry]
              record []).
Proof.
  intros Ha.
  destruct (author_none_keys _ _ Ha) as [k Hk].
  destruct (preview_url_with_keys st1 k Hk) as (u & st2 & Hp).
  exists u, st2. do 2 eexists. split; [exact Hp|]. split.
  - unfold ScribdAudioBook.make_playlist, ScribdAudioBook.premium_cookies.
    unfold bind at 1 2. rewrite Ha. unfold ret. cbn [truthy_str].
    unfold ScribdAudioBook.preview_branch, bind. rewrite Hp. reflexivity.
  - repeat split; reflexivity.
Qed.

Lemma C1_witness :
  exists st2 record,
    ScribdAudioBook.make_playlist (E := Scenario.env) (Scenario.book, Scenario.free_world)
    = (Ok record, st2) /\
    getitem record "playlist"
    = Ok (PyList [PyDict [("url", PyStr Scenario.sample_url);
                          ("part_number", PyStr "preview");
                          ("chapter_number", PyStr "preview")]]).
Proof.
  destruct (C1_author_none_gives_preview (E := Scenario.env)
              Scenario.book Scenario.free_world
              (snd (ScribdAudioBook.author_id (E := Scenario.env)
                      (Scenario.book, Scenario.free_world))))
    as (u & st2 & record & entry & Hp & Hm & Hg & _).
  - vm_compute. reflexivity.
  - exists st2, record. split; [exact Hm|].
    vm_compute in Hp. injection Hp as <- _.
    vm_compute in Hm. injection Hm as <- _. reflexivity.
Defined.



(** ** The license id *)

(** An assignment to another attribute keeps the license id. *)
Ltac leaf_license :=
  let s := fresh "s" in
  let Hs := fresh "Hs" in
  intros s Hs; unfold license_is in *; cbn; exact Hs.

Section LicenseFrame.
Context {E : Env}.
Variable x : PyVal.

Lemma scrape_keeps_license : preserves (license_is x) ScribdAudioBook._scrape_audiobook.
Proof. unfold ScribdAudioBook._scrape_audiobook. walk leaf_license. Qed.
#[local] Hint Resolve scrape_keeps_license : memo.

Lemma audiobook_keys_keeps_license : preserves (license_is x) ScribdAudioBook.audiobook_keys.
Proof. unfold ScribdAudioBook.audiobook_keys. walk leaf_license. Qed.
#[local] Hint Resolve audiobook_keys_keeps_license : memo.

Lemma author_id_keeps_license : preserves (license_is x) ScribdAudioBook.author_id.
Proof. unfold ScribdAudioBook.author_id. walk leaf_license. Qed.
#[local] Hint Resolve author_id_keeps_license : memo.

Lemma book_id_keeps_license : preserves (license_is x) ScribdAudioBook.book_id.
Proof. unfold ScribdAudioBook.book_id. walk leaf_license. Qed.
#[local] Hint Resolve book_id_keeps_license : memo.

Lemma license_url_keeps_license : preserves (license_is x) ScribdAudioBook.license_url.
Proof. unfold ScribdAudioBook.license_url. walk leaf_license. Qed.
#[local] Hint Resolve license_url_keeps_license : memo.

Lemma authenticate_url_keeps_license : preserves (license_is x) ScribdAudioBook.authenticate_url.
Proof. unfold ScribdAudioBook.authenticate_url. walk leaf_license. Qed.
#[local] Hint Resolve authenticate_url_keeps_license : memo.

Lemma license_exchange_keeps_license : preserves (license_is x) license_exchange.
Proof. unfold license_exchange. walk leaf_license. Qed.

End LicenseFrame.

(** With the license id not yet set, [license_id] is the exchange
    followed by the reading of the first license record. *)
Lemma license_id_after_exchange {E : Env} (s s1 : ScribdAudioBook.t) (w w1 : World)
    (body : string) :
  truthy (ScribdAudioBook._license_id s) = false ->
  license_exchange (s, w) = (Ok body, (s1, w1)) ->
  ScribdAudioBook.license_id (s, w) =
  match
    (let! response_dict := json_loads body in
     let! licenses := getitem response_dict "licenses" in
     let! license := getitem0 licenses in
     getitem license "id")
  with
  | Ok id => (Ok id, (ScribdAudioBook.set_license_id id s1, w1))
  | Raise e => (Raise e, (s1, w1))
  end.
Proof.
  intros Hf Hx.
  unfold ScribdAudioBook.license_id.
  unfold bind at 1 2. unfold get_self at 1. cbn [fst]. rewrite Hf. unfold if_not.
  unfold license_exchange in Hx.
  unfold bind, get_self in *. cbn [fst snd] in *.
  repeat match type of Hx with
         | match ?g with _ => _ end = _ =>
             destruct g as [[?|?] [? ?]]; [|discriminate Hx]; cbn [fst snd] in *
         end.
  rewrite Hx. unfold lift, ret, set_self. cbn [fst snd].
  destruct (json_loads body) as [response_dict|]; cbn [rbind]; [|reflexivity].
  destruct (getitem response_dict "licenses") as [licenses|]; cbn [rbind]; [|reflexivity].
  destruct (getitem0 licenses) as [license|]; cbn [rbind]; [|reflexivity].
  destruct (getitem license "id") as [id|]; reflexivity.
Qed.

(** C7.  With no license id memoized yet, when the text the license
    endpoint answers parses to a value that is not a dict with a
    ["licenses"] key, or whose ["licenses"] is the empty list, [license_id]
    raises instead of returning a value, and [_license_id] is what it was
    before the call.  What it raises is the exception of the subscripting:
    [KeyError] for a dict without the key, [IndexError] for the empty
    list, [TypeError] for a value that is no dict. *)
Theorem C7_missing_license_raises {E : Env} (s s1 : ScribdAudioBook.t) (w w1 : World)
    (body : string) (response_dict : PyVal) :
  truthy (ScribdAudioBook._license_id s) = false ->
  license_exchange (s, w) = (Ok body, (s1, w1)) ->
  json_parse body = Some response_dict ->
  (forall d, response_dict = PyDict d ->
     lookup "licenses" d = None \/ lookup "licenses" d = Some (PyList [])) ->
  exists e,
    ScribdAudioBook.license_id (s, w) = (Raise e, (s1, w1)) /\
    e = match response_dict with
        | PyDict d =>
            match lookup "licenses" d with
            | None => KeyError
            | Some _ => IndexError
            end
        | _ => TypeError
        end /\
    ScribdAudioBook._license_id s1 = ScribdAudioBook._license_id s /\
    truthy (ScribdAudioBook._license_id s1) = false.
Proof.
  intros Hf Hx Hparse Hshape.
  assert (Hkeep : ScribdAudioBook._license_id s1 = ScribdAudioBook._license_id s).
  { pose proof (license_exchange_keeps_license (ScribdAudioBook._license_id s) (s, w) eq_refl)
      as H.
    rewrite Hx in H. exact H. }
  rewrite (license_id_after_exchange s s1 w w1 body Hf Hx).
  unfold json_loads. rewrite Hparse. cbn [rbind].
  destruct response_dict as [| | | | |d]; cbn [getitem rbind];
    try solve [exists TypeError; rewrite Hkeep; repeat split; auto].
  destruct (Hshape d eq_refl) as [Hl | Hl]; rewrite Hl; cbn [rbind getitem0].
  - exists KeyError. rewrite Hkeep. repeat split; auto.
  - exists IndexError. rewrite Hkeep. repeat split; auto.
Qed.

Lemma C7_witness :
  let w := Scenario.world Scenario.premium_page [Scenario.no_license_body] EmptyString in
  let st1 := snd (license_exchange (E := Scenario.env) (Scenario.book, w)) in
  ScribdAudioBook.license_id (E := Scenario.env) (Scenario.book, w) = (Raise KeyError, st1) /\
  ScribdAudioBook._license_id (fst st1) = PyNone.
Proof.
  intros w st1.
  destruct (C7_missing_license_raises (E := Scenario.env)
              Scenario.book (fst st1) w (snd st1) Scenario.no_license_body
              (PyDict [("message", PyStr "denied")]))
    as (e & Hrun & _ & Hkeep & _).
  - reflexivity.
  - vm_compute. reflexivity.
  - reflexivity.
  - intros d Hd. injection Hd as <-. left. reflexivity.
  - split; [|exact Hkeep].
    rewrite Hrun. vm_compute in Hrun. injection Hrun as <-. reflexivity.
Defined.

(** C7 as stated fails on the kind of the error.  What a license answer
    without the key, or with an empty list, makes [license_id] raise is
    the [KeyError] or [IndexError] of the subscript.  The same read raises
    the same kinds for other reasons: on a page whose preview container
    has no push state the scrape it runs raises [KeyError], and on a page
    without preview container [TypeError], both before the license
    endpoint is asked (two requests sent, the listen page and the content
    page). *)
Lemma C7_counterexample :
  let missing :=
    ScribdAudioBook.license_id (E := Scenario.env)
      (Scenario.book,
       Scenario.world Scenario.premium_page [Scenario.no_license_body] EmptyString) in
  let empty :=
    ScribdAudioBook.license_id (E := Scenario.env)
      (Scenario.book,
       Scenario.world Scenario.premium_page [Scenario.empty_license_body] EmptyString) in
  let bare :=
    ScribdAudioBook.license_id (E := bare_env)
      (Scenario.book, Scenario.world bare_page [Scenario.license_body "L-42"] EmptyString) in
  let blank :=
    ScribdAudioBook.license_id (E := Scenario.env)
      (Scenario.book,
       Scenario.world "<html></html>" [Scenario.license_body "L-42"] EmptyString) in
  fst missing = Raise KeyError /\
  fst empty = Raise IndexError /\
  fst bare = Raise KeyError /\
  sent (snd (snd bare))
  = [Get "https://www.scribd.com/listen/123456789"
       (Some (@const_premium_cookies Scenario.env)) None;
     Get Scenario.book_url (Some (@const_premium_cookies Scenario.env)) None] /\
  fst blank = Raise TypeError /\
  List.length (sent (snd (snd blank))) = 2.
Proof. vm_compute. repeat split; reflexivity. Qed.

(** ** Scraping the page *)

(** [re.search("[0-9]{lo,hi}", s)] matches at the leftmost position
    where [lo] digits start, and takes there as many digits as follow, up
    to [hi]. *)
Lemma re_search_greedy (lo hi : nat) (s : string) :
  0 < lo -> lo <= hi ->
  match windows lo s with
  | [] => re_search_digits lo hi s = None
  | i :: _ =>
      exists n,
        re_search_digits lo hi s = Some (substring i n s) /\
        lo <= n <= hi /\
        window n s i = true /\
        (n < hi -> window (S n) s i = false)
  end.
Proof.
  intros Hlo Hle. induction s as [|c r IH].
  - destruct lo; [lia|]. reflexivity.
  - rewrite windows_cons, window_head, re_search_digits_eq.
    destruct (Nat.leb lo (digit_prefix (String c r))) eqn:Hd.
    + apply Nat.leb_le in Hd. cbn [app].
      replace (Nat.leb lo (Nat.min (digit_prefix (String c r)) hi)) with true
        by (symmetry; apply Nat.leb_le; lia).
      exists (Nat.min (digit_prefix (String c r)) hi).
      split; [reflexivity|]. split; [lia|]. rewrite !window_head. split.
      * apply Nat.leb_le. lia.
      * intros Hn. apply Nat.leb_gt. lia.
    + apply Nat.leb_gt in Hd. cbn [app].
      replace (Nat.leb lo (Nat.min (digit_prefix (String c r)) hi)) with false
        by (symmetry; apply Nat.leb_gt; lia).
      destruct (windows lo r) as [|i rest]; cbn [map]; [exact IH|].
      destruct IH as (n & Hs & Hn & Hw & Hmax).
      exists n. rewrite !window_tail. cbn [substring]. auto.
Qed.

Lemma window_length (n : nat) (s : string) (i : nat) :
  window n s i = true ->
  String.length (substring i n s) = n /\ all_digits (substring i n s) = true.
Proof.
  unfold window. intros H. apply andb_prop in H as [Hl Hd].
  apply Nat.eqb_eq in Hl. auto.
Qed.

Section Scrape.
Context {E : Env}.

(** The page is asked for once, and the instance is not touched. *)
Lemma scrape_state (s : ScribdAudioBook.t) (w : World) :
  snd (ScribdAudioBook._scrape_audiobook (s, w)) = (s, after_request w (page_request s)).
Proof.
  unfold ScribdAudioBook._scrape_audiobook, bind, get_self, in_world, requests_get, send,
    lift, ret, after_request, page_request.
  cbn [fst snd].
  repeat match goal with
         | |- snd (match ?x with _ => _ end) = _ => destruct x; cbn [fst snd]
         | |- snd (let (_, _) := ?x in _) = _ => destruct x; cbn [fst snd]
         end; reflexivity.
Qed.

(** Steps through the stages of [_scrape_audiobook] in a hypothesis or in
    the goal. *)
Ltac scrape_unfold :=
  unfold ScribdAudioBook._scrape_audiobook, bind, get_self, in_world, requests_get, send,
    lift, ret, json_loads, page_request, push_state_of in *;
  cbn [fst snd] in *.

Lemma scrape_result (s : ScribdAudioBook.t) (w : World) :
  fst (ScribdAudioBook._scrape_audiobook (s, w)) =
  (let! text := server w (sent w) (page_request s) in
   let! attrs := match find_book_preview_div text with
                 | Some attrs => Ok attrs
                 | None => Raise TypeError
                 end in
   let! push := match push_state_of attrs with
                | Some push => Ok push
                | None => Raise KeyError
                end in
   let! doc := json_loads push in
   let! sample := getitem doc "audiobook_sample_url" in
   let! sample := as_str sample in
   let! book := ScribdAudioBook.group (re_search_digits 5 6 sample) in
   let! js := last_item (find_all_script_text text) in
   Ok {| ScribdAudioBook.keys_preview_url := sample;
         ScribdAudioBook.keys_book_id := book;
         ScribdAudioBook.keys_author_id := re_search_digits 8 8 js |}).
Proof.
  scrape_unfold.
  destruct (server w (sent w) _) as [text|]; cbn [rbind fst]; [|reflexivity].
  destruct (find_book_preview_div text) as [attrs|]; cbn [rbind fst]; [|reflexivity].
  destruct (find _ attrs) as [kv|]; cbn [rbind fst]; [|reflexivity].
  destruct (json_parse (snd kv)) as [doc|]; cbn [rbind fst]; [|reflexivity].
  destruct (getitem doc "audiobook_sample_url") as [sample|]; cbn [rbind fst]; [|reflexivity].
  destruct (as_str sample) as [u|]; cbn [rbind fst]; [|reflexivity].
  destruct (ScribdAudioBook.group (re_search_digits 5 6 u)) as [b|]; cbn [rbind fst];
    [|reflexivity].
  destruct (last_item (find_all_script_text text)) as [js|]; reflexivity.
Qed.

Lemma as_str_ok (v : PyVal) (u : string) : as_str v = Ok u -> v = PyStr u.
Proof. destruct v; cbn; intros H; try discriminate. injection H as ->. reflexivity. Qed.

Lemma as_str_raise (v : PyVal) (e : PyError) : as_str v = Raise e -> e = TypeError.
Proof. destruct v; cbn; intros H; try discriminate; injection H as <-; reflexivity. Qed.

Lemma last_item_raise (l : list string) (e : PyError) :
  last_item l = Raise e -> l = [] /\ e = IndexError.
Proof.
  induction l as [|x l IH]; cbn [last_item].
  - intros H. injection H as <-. auto.
  - destruct l as [|y l]; [discriminate|]. intros H. destruct (IH H) as [Hl _].
    discriminate Hl.
Qed.

End Scrape.

(** X1.  What [_scrape_audiobook] returns.  The page is requested once,
    with the cookies of the instance, and the instance is left as it was.
    The preview URL is the string under ["audiobook_sample_url"] of the
    push state; the book id is taken at the leftmost position of the
    preview URL where 5 digits start and is the 5 digits there, or 6 when
    a sixth follows; the author id is looked for in the last script only
    and is its leftmost 8 digits, or [None] when it has no 8 digits in a
    row. *)
Theorem X1_scrape_returns {E : Env} (s : ScribdAudioBook.t) (w : World)
    (k : ScribdAudioBook.Keys) (st' : ScribdAudioBook.State) :
  ScribdAudioBook._scrape_audiobook (s, w) = (Ok k, st') ->
  st' = (s, after_request w (page_request s)) /\
  exists text attrs push doc js i rest n,
    server w (sent w) (page_request s) = Ok text /\
    find_book_preview_div text = Some attrs /\
    push_state_of attrs = Some push /\
    json_parse push = Some doc /\
    getitem doc "audiobook_sample_url" = Ok (PyStr (ScribdAudioBook.keys_preview_url k)) /\
    windows 5 (ScribdAudioBook.keys_preview_url k) = i :: rest /\
    ScribdAudioBook.keys_book_id k = substring i n (ScribdAudioBook.keys_preview_url k) /\
    (n = 5 \/ n = 6) /\
    String.length (ScribdAudioBook.keys_book_id k) = n /\
    all_digits (ScribdAudioBook.keys_book_id k) = true /\
    (n = 5 -> window 6 (ScribdAudioBook.keys_preview_url k) i = false) /\
    last_item (find_all_script_text text) = Ok js /\
    match ScribdAudioBook.keys_author_id k with
    | None => windows 8 js = []
    | Some a =>
        exists j rest', windows 8 js = j :: rest' /\ a = substring j 8 js /\
          String.length a = 8 /\ all_digits a = true
    end.
Proof.
  intros H. split.
  { rewrite <- (scrape_state s w), H. reflexivity. }
  apply (f_equal fst) in H. rewrite scrape_result in H. cbn [fst] in H.
  destruct (server w (sent w) (page_request s)) as [text|] eqn:Hsrv; cbn [rbind] in H;
    [|discriminate].
  destruct (find_book_preview_div text) as [attrs|] eqn:Hdiv; cbn [rbind] in H;
    [|discriminate].
  destruct (push_state_of attrs) as [push|] eqn:Hpush; cbn [rbind] in H; [|discriminate].
  unfold json_loads in H.
  destruct (json_parse push) as [doc|] eqn:Hdoc; cbn [rbind] in H; [|discriminate].
  destruct (getitem doc "audiobook_sample_url") as [sample|] eqn:Hsample; cbn [rbind] in H;
    [|discriminate].
  destruct (as_str sample) as [u|] eqn:Hu; cbn [rbind] in H; [|discriminate].
  apply as_str_ok in Hu. subst sample.
  pose proof (re_search_greedy 5 6 u) as Hb.
  destruct (windows 5 u) as [|i rest] eqn:Hwin.
  { rewrite Hb in H by lia. discriminate. }
  destruct Hb as (n & Hs & Hn & Hw & Hmax); [lia|lia|].
  rewrite Hs in H. cbn [rbind ScribdAudioBook.group] in H.
  destruct (last_item (find_all_script_text text)) as [js|] eqn:Hjs; cbn [rbind] in H;
    [|discriminate].
  injection H as <-. cbn [ScribdAudioBook.keys_preview_url ScribdAudioBook.keys_book_id
    ScribdAudioBook.keys_author_id].
  exists text, attrs, push, doc, js, i, rest, n.
  destruct (window_length _ _ _ Hw) as [Hl Hd].
  repeat (split; [first [reflexivity | assumption | lia]|]).
  split; [intros ->; apply Hmax; lia|]. split; [exact Hjs|].
  pose proof (re_search_greedy 8 8 js) as Ha.
  destruct (windows 8 js) as [|j rest'] eqn:Hwin8.
  - rewrite Ha by lia. reflexivity.
  - destruct Ha as (m & Hs' & Hm & Hw' & _); [lia|lia|].
    assert (m = 8) by lia. subst m. rewrite Hs'.
    destruct (window_length _ _ _ Hw') as [Hl' Hd'].
    exists j, rest'. auto.
Qed.

Lemma X1_witness :
  exists st',
    ScribdAudioBook._scrape_audiobook (E := Scenario.env) (Scenario.book, Scenario.premium_world)
    = (Ok {| ScribdAudioBook.keys_preview_url := Scenario.sample_url;
             ScribdAudioBook.keys_book_id := "54321";
             ScribdAudioBook.keys_author_id := Some "12345678" |}, st') /\
    sent (snd st') = [page_request Scenario.book].
Proof.
  exists (snd (ScribdAudioBook._scrape_audiobook (E := Scenario.env)
                 (Scenario.book, Scenario.premium_world))).
  pose proof (X1_scrape_returns (E := Scenario.env) Scenario.book Scenario.premium_world
                {| ScribdAudioBook.keys_preview_url := Scenario.sample_url;
                   ScribdAudioBook.keys_book_id := "54321";
                   ScribdAudioBook.keys_author_id := Some "12345678" |}
                (snd (ScribdAudioBook._scrape_audiobook (E := Scenario.env)
                        (Scenario.book, Scenario.premium_world)))) as H.
  destruct H as [Hst _]; [vm_compute; reflexivity|].
  split; [vm_compute; reflexivity|]. rewrite Hst. reflexivity.
Defined.

(** X2.  How [_scrape_audiobook] fails.  It raises [e] exactly when one
    of these holds: the request fails with [e]; the page has no preview
    container ([TypeError]); the container has no push state
    ([KeyError]); the push state is not JSON ([JSONDecodeError]); the
    document has no sample URL (the error of the subscript); the sample
    URL is not a string ([TypeError]); it has no 5 digits in a row
    ([AttributeError]); or, all that being in order, the page has no
    script ([IndexError]).  In every case the page was requested once and
    the instance is left as it was. *)
Theorem X2_scrape_raises {E : Env} (s : ScribdAudioBook.t) (w : World) (e : PyError) :
  (fst (ScribdAudioBook._scrape_audiobook (s, w)) = Raise e <-> ScrapeFailure s w e) /\
  snd (ScribdAudioBook._scrape_audiobook (s, w)) = (s, after_request w (page_request s)).
Proof.
  split; [|apply scrape_state].
  rewrite scrape_result. split.
  - intros H.
    destruct (server w (sent w) (page_request s)) as [text|e0] eqn:Hsrv; cbn [rbind] in H.
    2: { injection H as <-. eapply transport_failed; eauto. }
    destruct (find_book_preview_div text) as [attrs|] eqn:Hdiv; cbn [rbind] in H.
    2: { injection H as <-. eapply no_preview_container; eauto. }
    destruct (push_state_of attrs) as [push|] eqn:Hpush; cbn [rbind] in H.
    2: { injection H as <-. eapply no_push_state; eauto. }
    unfold json_loads in H.
    destruct (json_parse push) as [doc|] eqn:Hdoc; cbn [rbind] in H.
    2: { injection H as <-. eapply push_state_not_json; eauto. }
    destruct (getitem doc "audiobook_sample_url") as [sample|e0] eqn:Hsample;
      cbn [rbind] in H.
    2: { injection H as <-. eapply no_sample_url; eauto. }
    destruct (as_str sample) as [u|e0] eqn:Hu; cbn [rbind] in H.
    2: { injection H as <-. pose proof (as_str_raise _ _ Hu) as ->.
         eapply sample_url_not_str; eauto. }
    apply as_str_ok in Hu. subst sample.
    pose proof (re_search_greedy 5 6 u) as Hb.
    destruct (windows 5 u) as [|i rest] eqn:Hwin.
    { rewrite Hb in H by lia. cbn in H. injection H as <-. eapply no_book_id; eauto. }
    destruct Hb as (n & Hs & _); [lia|lia|].
    rewrite Hs in H. cbn [rbind ScribdAudioBook.group] in H.
    destruct (last_item (find_all_script_text text)) as [js|e0] eqn:Hjs; cbn [rbind] in H;
      [discriminate|].
    injection H as <-. apply last_item_raise in Hjs as [Hnil ->].
    eapply no_script; eauto.
  - intros H.
    destruct H as [e Hsrv|text Hsrv Hdiv|text attrs Hsrv Hdiv Hpush
                  |text attrs push Hsrv Hdiv Hpush Hdoc
                  |text attrs push doc e Hsrv Hdiv Hpush Hdoc Hsample
                  |text attrs push doc sample Hsrv Hdiv Hpush Hdoc Hsample Hstr
                  |text attrs push doc sample Hsrv Hdiv Hpush Hdoc Hsample Hwin
                  |text attrs push doc sample i rest Hsrv Hdiv Hpush Hdoc Hsample Hwin Hjs];
      rewrite Hsrv; cbn [rbind]; try reflexivity;
      rewrite Hdiv; cbn [rbind]; try reflexivity;
      rewrite Hpush; cbn [rbind]; try reflexivity;
      unfold json_loads; rewrite Hdoc; cbn [rbind]; try reflexivity;
      rewrite Hsample; cbn [rbind]; try reflexivity.
    + rewrite Hstr. reflexivity.
    + cbn [as_str rbind]. pose proof (re_search_greedy 5 6 sample) as Hb.
      rewrite Hwin in Hb. rewrite Hb by lia. reflexivity.
    + cbn [as_str rbind]. pose proof (re_search_greedy 5 6 sample) as Hb.
      rewrite Hwin in Hb. destruct Hb as (n & -> & _); [lia|lia|].
      cbn [ScribdAudioBook.group rbind]. rewrite Hjs. reflexivity.
Qed.

Lemma X2_witness :
  fst (ScribdAudioBook._scrape_audiobook (E := Scenario.env)
         (Scenario.book, Scenario.world Scenario.odd_page [] EmptyString))
  = Raise AttributeError.
Proof.
  apply (proj1 (X2_scrape_raises (E := Scenario.env) Scenario.book
                  (Scenario.world Scenario.odd_page [] EmptyString) AttributeError)).
  eapply (no_book_id (E := Scenario.env)); reflexivity.
Defined.

(** ** What a read assigns, and what it leaves alone *)

(** An assignment to one attribute keeps what another holds. *)
Ltac leaf_frame :=
  let s := fresh "s" in
  let Hs := fresh "Hs" in
  intros s Hs; unfold holds, stored, same_inputs in *; cbn; exact Hs.

Lemma scrape_preserves {E : Env} (P : ScribdAudioBook.t -> Prop) :
  preserves P ScribdAudioBook._scrape_audiobook.
Proof. intros [s w] H. rewrite scrape_state. exact H. Qed.

(** Settles [writes fp g = false] for a concrete footprint: [g] is then
    none of its fields. *)
Ltac outside g := destruct g; try discriminate.

Lemma audiobook_keys_frame {E : Env} (g : Field) (x : FieldVal) :
  writes (footprint FAudiobookKeys) g = false ->
  preserves (holds g x) ScribdAudioBook.audiobook_keys.
Proof.
  pose proof (scrape_preserves (holds g x)).
  outside g; intros _; unfold ScribdAudioBook.audiobook_keys; walk leaf_frame.
Qed.
#[local] Hint Resolve audiobook_keys_frame : memo.

Lemma preview_url_frame {E : Env} (g : Field) (x : FieldVal) :
  writes (footprint FPreviewUrl) g = false ->
  preserves (holds g x) ScribdAudioBook.preview_url.
Proof. outside g; intros _; unfold ScribdAudioBook.preview_url; walk leaf_frame. Qed.
#[local] Hint Resolve preview_url_frame : memo.

Lemma book_id_frame {E : Env} (g : Field) (x : FieldVal) :
  writes (footprint FBookId) g = false ->
  preserves (holds g x) ScribdAudioBook.book_id.
Proof. outside g; intros _; unfold ScribdAudioBook.book_id; walk leaf_frame. Qed.
#[local] Hint Resolve book_id_frame : memo.

Lemma author_id_frame {E : Env} (g : Field) (x : FieldVal) :
  writes (footprint FAuthorId) g = false ->
  preserves (holds g x) ScribdAudioBook.author_id.
Proof. outside g; intros _; unfold ScribdAudioBook.author_id; walk leaf_frame. Qed.
#[local] Hint Resolve author_id_frame : memo.

Lemma license_url_frame {E : Env} (g : Field) (x : FieldVal) :
  writes (footprint FLicenseUrl) g = false ->
  preserves (holds g x) ScribdAudioBook.license_url.
Proof. outside g; intros _; unfold ScribdAudioBook.license_url; walk leaf_frame. Qed.
#[local] Hint Resolve license_url_frame : memo.

Lemma authenticate_url_frame {E : Env} (g : Field) (x : FieldVal) :
  writes (footprint FAuthenticateUrl) g = false ->
  preserves (holds g x) ScribdAudioBook.authenticate_url.
Proof. outside g; intros _; unfold ScribdAudioBook.authenticate_url; walk leaf_frame. Qed.
#[local] Hint Resolve authenticate_url_frame : memo.

Lemma license_id_frame {E : Env} (g : Field) (x : FieldVal) :
  writes (footprint FLicenseId) g = false ->
  preserves (holds g x) ScribdAudioBook.license_id.
Proof. outside g; intros _; unfold ScribdAudioBook.license_id; walk leaf_frame. Qed.
#[local] Hint Resolve license_id_frame : memo.

Lemma playlist_url_frame {E : Env} (g : Field) (x : FieldVal) :
  writes (footprint FPlaylistUrl) g = false ->
  preserves (holds g x) ScribdAudioBook.playlist_url.
Proof. outside g; intros _; unfold ScribdAudioBook.playlist_url; walk leaf_frame. Qed.
#[local] Hint Resolve playlist_url_frame : memo.

Lemma premium_cookies_frame {E : Env} (g : Field) (x : FieldVal) :
  writes (call_footprint PremiumCookies) g = false ->
  preserves (holds g x) ScribdAudioBook.premium_cookies.
Proof. outside g; intros _; unfold ScribdAudioBook.premium_cookies; walk leaf_frame. Qed.
#[local] Hint Resolve premium_cookies_frame : memo.

Lemma title_frame {E : Env} (g : Field) (x : FieldVal) :
  writes (footprint FTitle) g = false ->
  preserves (holds g x) ScribdAudioBook.title.
Proof. outside g; intros _; unfold ScribdAudioBook.title; walk leaf_frame. Qed.
#[local] Hint Resolve title_frame : memo.

Lemma make_playlist_frame {E : Env} (g : Field) (x : FieldVal) :
  writes (call_footprint MakePlaylist) g = false ->
  preserves (holds g x) ScribdAudioBook.make_playlist.
Proof.
  outside g; intros _;
    unfold ScribdAudioBook.make_playlist, ScribdAudioBook.premium_branch,
      ScribdAudioBook.preview_branch;
    walk leaf_frame.
Qed.
#[local] Hint Resolve make_playlist_frame : memo.

Lemma playlist_frame {E : Env} (g : Field) (x : FieldVal) :
  writes (footprint FPlaylist) g = false ->
  preserves (holds g x) ScribdAudioBook.playlist.
Proof. outside g; intros _; unfold ScribdAudioBook.playlist; walk leaf_frame. Qed.

Lemma call_frame {E : Env} (g : Field) (x : FieldVal) (c : Call) :
  writes (call_footprint c) g = false -> preserves (holds g x) (call c).
Proof.
  pose proof playlist_frame.
  destruct c as [f| |]; [destruct f|..]; outside g; intros _;
    unfold call, access; walk leaf_frame.
Qed.

(** X3.  A call assigns no attribute outside its footprint: whether it
    returns or raises, every derived attribute that is neither the one of
    the property read nor one of a property it reads holds afterwards what
    it held before.  Reading [title], for one, fills no other attribute,
    and reading a URL or an identifier never sets [_license_id],
    [_title] or [_playlist]. *)
Theorem X3_call_assigns_within_footprint {E : Env} (c : Call) (g : Field)
    (s : ScribdAudioBook.t) (w : World) :
  writes (call_footprint c) g = false ->
  stored g (fst (snd (call c (s, w)))) = stored g s.
Proof.
  intros Hw. apply (call_frame g (stored g s) c Hw (s, w)). reflexivity.
Qed.

Lemma X3_witness :
  ScribdAudioBook._title
    (fst (snd (call (E := Scenario.env) MakePlaylist (Scenario.book, Scenario.premium_world))))
  = None /\
  ScribdAudioBook._audiobook_keys
    (fst (snd (call (E := Scenario.env) (Property FTitle)
                 (Scenario.book, Scenario.premium_world))))
  = None.
Proof.
  split.
  - exact (f_equal (fun v => match v with VStr o => o | _ => None end)
             (X3_call_assigns_within_footprint (E := Scenario.env) MakePlaylist FTitle
                Scenario.book Scenario.premium_world eq_refl)).
  - exact (f_equal (fun v => match v with VKeys o => o | _ => None end)
             (X3_call_assigns_within_footprint (E := Scenario.env) (Property FTitle)
                FAudiobookKeys Scenario.book Scenario.premium_world eq_refl)).
Defined.

Section Inputs.
Context {E : Env}.
Variable s0 : ScribdAudioBook.t.

Lemma audiobook_keys_inputs : preserves (same_inputs s0) ScribdAudioBook.audiobook_keys.
Proof.
  pose proof (scrape_preserves (same_inputs s0)).
  unfold ScribdAudioBook.audiobook_keys. walk leaf_frame.
Qed.
#[local] Hint Resolve audiobook_keys_inputs : memo.

Lemma preview_url_inputs : preserves (same_inputs s0) ScribdAudioBook.preview_url.
Proof. unfold ScribdAudioBook.preview_url. walk leaf_frame. Qed.
#[local] Hint Resolve preview_url_inputs : memo.

Lemma book_id_inputs : preserves (same_inputs s0) ScribdAudioBook.book_id.
Proof. unfold ScribdAudioBook.book_id. walk leaf_frame. Qed.
#[local] Hint Resolve book_id_inputs : memo.

Lemma author_id_inputs : preserves (same_inputs s0) ScribdAudioBook.author_id.
Proof. unfold ScribdAudioBook.author_id. walk leaf_frame. Qed.
#[local] Hint Resolve author_id_inputs : memo.

Lemma license_url_inputs : preserves (same_inputs s0) ScribdAudioBook.license_url.
Proof. unfold ScribdAudioBook.license_url. walk leaf_frame. Qed.
#[local] Hint Resolve license_url_inputs : memo.

Lemma authenticate_url_inputs : preserves (same_inputs s0) ScribdAudioBook.authenticate_url.
Proof. unfold ScribdAudioBook.authenticate_url. walk leaf_frame. Qed.
#[local] Hint Resolve authenticate_url_inputs : memo.

Lemma license_id_inputs : preserves (same_inputs s0) ScribdAudioBook.license_id.
Proof. unfold ScribdAudioBook.license_id. walk leaf_frame. Qed.
#[local] Hint Resolve license_id_inputs : memo.

Lemma playlist_url_inputs : preserves (same_inputs s0) ScribdAudioBook.playlist_url.
Proof. unfold ScribdAudioBook.playlist_url. walk leaf_frame. Qed.
#[local] Hint Resolve playlist_url_inputs : memo.

Lemma title_inputs : preserves (same_inputs s0) ScribdAudioBook.title.
Proof. unfold ScribdAudioBook.title. walk leaf_frame. Qed.
#[local] Hint Resolve title_inputs : memo.

Lemma make_playlist_inputs : preserves (same_inputs s0) ScribdAudioBook.make_playlist.
Proof.
  unfold ScribdAudioBook.make_playlist, ScribdAudioBook.premium_cookies,
    ScribdAudioBook.premium_branch, ScribdAudioBook.preview_branch.
  walk leaf_frame.
Qed.
#[local] Hint Resolve make_playlist_inputs : memo.

Lemma playlist_inputs : preserves (same_inputs s0) ScribdAudioBook.playlist.
Proof. unfold ScribdAudioBook.playlist. walk leaf_frame. Qed.
#[local] Hint Resolve playlist_inputs : memo.

Lemma call_inputs (c : Call) : preserves (same_inputs s0) (call c).
Proof.
  destruct c as [f| |]; [destruct f|..];
    unfold call, access, ScribdAudioBook.premium_cookies; walk leaf_frame.
Qed.

End Inputs.

(** X4.  The content URL, the content identifier, the session-key header
    and the cookies are those of construction for the life of the
    instance: no property read, [premium_cookies] or [make_playlist] call,
    returning or raising, assigns any of them. *)
Theorem X4_inputs_never_assigned {E : Env} (s s' : ScribdAudioBook.t) :
  later s s' ->
  ScribdAudioBook.audiobook_url s' = ScribdAudioBook.audiobook_url s /\
  ScribdAudioBook.scribd_id s' = ScribdAudioBook.scribd_id s /\
  ScribdAudioBook.session_key_header s' = ScribdAudioBook.session_key_header s /\
  ScribdAudioBook.cookies s' = ScribdAudioBook.cookies s.
Proof.
  intros Hl. change (same_inputs s s').
  induction Hl as [|s' c w _ IH].
  - unfold same_inputs. auto.
  - apply (call_inputs s c (s', w)). exact IH.
Qed.

Lemma X4_witness :
  ScribdAudioBook.scribd_id
    (fst (snd (call (E := Scenario.env) (Property FPlaylist)
                 (Scenario.book, Scenario.premium_world))))
  = "123456789".
Proof.
  destruct (X4_inputs_never_assigned (E := Scenario.env) Scenario.book _
              (later_call _ _ (Property FPlaylist) Scenario.premium_world (later_now _)))
    as (_ & Hid & _).
  exact Hid.
Defined.

(** ** A read that raises *)

Section OnRaise.
Context {E : Env}.
Variable P : ScribdAudioBook.t -> Prop.

Lemma kor_bind {A B : Type} (m : M ScribdAudioBook.State A)
    (k : A -> M ScribdAudioBook.State B) :
  preserves P m -> (forall a, keeps_on_raise P (k a)) -> keeps_on_raise P (bind m k).
Proof.
  intros Hm Hk st HP. unfold bind. specialize (Hm st HP).
  destruct (m st) as [[a|e] st1]; cbn [fst snd] in *; intros Hr;
    [apply Hk; assumption|exact Hm].
Qed.

Lemma kor_bind_tail {A B : Type} (m : M ScribdAudioBook.State A)
    (k : A -> M ScribdAudioBook.State B) :
  keeps_on_raise P m -> (forall a st, is_ok (fst (k a st)) = true) ->
  keeps_on_raise P (bind m k).
Proof.
  intros Hm Hk st HP. unfold bind. specialize (Hm st HP).
  destruct (m st) as [[a|e] st1]; cbn [fst snd] in *; intros Hr.
  - rewrite Hk in Hr. discriminate.
  - apply Hm. reflexivity.
Qed.

Lemma kor_get_self {B : Type} (k : ScribdAudioBook.t -> M ScribdAudioBook.State B) :
  (forall self, keeps_on_raise P (k self)) -> keeps_on_raise P (bind get_self k).
Proof. intros Hk st HP. unfold bind, get_self. apply Hk. exact HP. Qed.

Lemma kor_set_self (f : ScribdAudioBook.t -> ScribdAudioBook.t) :
  keeps_on_raise P (set_self f).
Proof. intros st _ Hr. discriminate Hr. Qed.

Lemma kor_if_not (c : bool) (body : M ScribdAudioBook.State unit) :
  keeps_on_raise P body -> keeps_on_raise P (if_not c body).
Proof. destruct c; intros H; [|exact H]. intros st _ Hr. discriminate Hr. Qed.

End OnRaise.

(** Walks the body of a property up to its assignment: every step before
    it keeps the attribute, by the footprints of the properties read. *)
Ltac walk_body :=
  repeat first
    [ apply kor_get_self; intros ?
    | apply kor_set_self
    | apply kor_bind; [walk leaf_frame|intros ?] ].

Ltac walk_property :=
  apply kor_get_self; intros ?;
  apply kor_bind_tail; [apply kor_if_not; walk_body|intros; reflexivity].

Lemma access_keeps_on_raise {E : Env} (f : Field) (x : FieldVal) :
  keeps_on_raise (holds f x) (access f).
Proof.
  pose proof (scrape_preserves (holds f x)).
  destruct f; unfold access; (apply kor_bind_tail; [|intros; reflexivity]);
    unfold ScribdAudioBook.audiobook_keys, ScribdAudioBook.preview_url,
      ScribdAudioBook.book_id, ScribdAudioBook.author_id, ScribdAudioBook.license_url,
      ScribdAudioBook.license_id, ScribdAudioBook.playlist_url,
      ScribdAudioBook.authenticate_url, ScribdAudioBook.title, ScribdAudioBook.playlist;
    walk_property.
Qed.

(** X5.  A read that raises stores nothing: when a property raises, its
    attribute holds what it held before the read, so the next read starts
    the computation again (other attributes, of properties read on the
    way, may have been set). *)
Theorem X5_raising_read_stores_nothing {E : Env} (f : Field)
    (s : ScribdAudioBook.t) (w : World) (e : PyError) (st' : ScribdAudioBook.State) :
  access f (s, w) = (Raise e, st') ->
  stored f (fst st') = stored f s.
Proof.
  intros H.
  pose proof (access_keeps_on_raise f (stored f s) (s, w) eq_refl) as Hk.
  rewrite H in Hk. apply Hk. reflexivity.
Qed.

Lemma X5_witness :
  let r := access (E := Scenario.env) FPlaylist
             (Scenario.book, Scenario.world Scenario.premium_page [Scenario.no_license_body]
                               EmptyString) in
  fst r = Raise KeyError /\
  ScribdAudioBook._playlist (fst (snd r)) = None /\
  ScribdAudioBook._title (fst (snd r)) = Some "My Great Book".
Proof.
  intros r.
  pose proof (X5_raising_read_stores_nothing (E := Scenario.env) FPlaylist Scenario.book
                (Scenario.world Scenario.premium_page [Scenario.no_license_body] EmptyString)
                KeyError (snd r)) as H.
  split; [vm_compute; reflexivity|]. split.
  - exact (f_equal (fun v => match v with VPlaylist o => o | _ => None end)
             (H ltac:(vm_compute; reflexivity))).
  - vm_compute. reflexivity.
Defined.

(** ** The characters of the title and of the file names *)

Lemma split_nonempty (sep : ascii) (s : string) : split sep s <> [].
Proof.
  destruct s as [|c r]; cbn [split]; [discriminate|].
  destruct (Ascii.eqb c sep); [discriminate|].
  destruct (split sep r); discriminate.
Qed.

Lemma split_no_separator (sep : ascii) (s seg : string) :
  In seg (split sep s) -> has_char sep seg = false.
Proof.
  revert seg; induction s as [|c r IH]; intros seg; cbn [split].
  - intros [<-|[]]. reflexivity.
  - destruct (Ascii.eqb c sep) eqn:Hc.
    + intros [<-|Hin]; [reflexivity|apply IH, Hin].
    + destruct (split sep r) as [|h t] eqn:Hs.
      * intros [<-|[]]. cbn. rewrite Hc. reflexivity.
      * intros [<-|Hin].
        -- cbn [has_char]. rewrite Hc. apply IH. left. reflexivity.
        -- apply IH. right. exact Hin.
Qed.

Lemma list_remove_In (x : string) (l l' : list string) (y : string) :
  list_remove x l = Ok l' -> In y l' -> In y l.
Proof.
  revert l'; induction l as [|z l IH]; intros l'; cbn [list_remove]; [discriminate|].
  destruct (String.eqb z x).
  - intros H; injection H as <-. intros Hin. right. exact Hin.
  - destruct (list_remove x l) as [l0|]; [|discriminate].
    intros H; injection H as <-. intros [<-|Hin]; [left; reflexivity|].
    right. apply (IH l0); [reflexivity|exact Hin].
Qed.

Lemma list_remove_absent (x : string) (l : list string) :
  ~ In x l -> list_remove x l = Raise ValueError.
Proof.
  induction l as [|z l IH]; cbn [list_remove]; [reflexivity|].
  intros Hn. destruct (String.eqb z x) eqn:Hz.
  - apply String.eqb_eq in Hz. exfalso. apply Hn. left. exact Hz.
  - rewrite IH; [reflexivity|]. intros Hin. apply Hn. right. exact Hin.
Qed.

Lemma list_remove_raised (x : string) (l : list string) (e : PyError) :
  list_remove x l = Raise e -> ~ In x l /\ e = ValueError.
Proof.
  induction l as [|z l IH]; cbn [list_remove].
  - intros H; injection H as <-. auto.
  - destruct (String.eqb z x) eqn:Hz; [discriminate|].
    apply String.eqb_neq in Hz.
    destruct (list_remove x l) as [l0|e0]; [discriminate|].
    intros H; injection H as <-. destruct (IH eq_refl) as [Hn ->].
    split; [|reflexivity]. intros [Heq|Hin]; [apply Hz, Heq|apply Hn, Hin].
Qed.

Lemma list_remove_raises (x : string) (l : list string) (e : PyError) :
  list_remove x l = Raise e <-> (~ In x l /\ e = ValueError).
Proof.
  split; [apply list_remove_raised|].
  intros [Hn ->]. apply list_remove_absent, Hn.
Qed.

Lemma last_item_In (l : list string) (x : string) : last_item l = Ok x -> In x l.
Proof.
  induction l as [|y l IH]; cbn [last_item]; [discriminate|].
  destruct l as [|z l].
  - intros H; injection H as <-. left. reflexivity.
  - intros H. right. apply IH, H.
Qed.

Lemma replace_removes (a b : ascii) (s : string) :
  a <> b -> has_char a (replace a b s) = false.
Proof.
  intros Hab. induction s as [|c r IH]; [reflexivity|].
  cbn [replace has_char]. rewrite IH, orb_false_r.
  destruct (Ascii.eqb c a) eqn:Hc; [|exact Hc].
  apply Ascii.eqb_neq. congruence.
Qed.

Lemma replace_adds_only (a b c : ascii) (s : string) :
  c <> b -> has_char c s = false -> has_char c (replace a b s) = false.
Proof.
  intros Hcb. induction s as [|d r IH]; [reflexivity|].
  cbn [replace has_char]. intros H. apply orb_false_elim in H as [Hd Hr].
  rewrite (IH Hr), orb_false_r.
  destruct (Ascii.eqb d a); [|exact Hd].
  apply Ascii.eqb_neq. congruence.
Qed.

(** Reading [title] with [_title] falsy is the computation on the URL;
    the world is not touched. *)
Lemma title_computed (s : ScribdAudioBook.t) (w : World) :
  truthy_str (ScribdAudioBook._title s) = false ->
  ScribdAudioBook.title (s, w) =
  match
    (let! splits := list_remove EmptyString (split "/" (ScribdAudioBook.audiobook_url s)) in
     let! last := last_item splits in
     Ok (replace "-" " " last))
  with
  | Ok t => (Ok (Some t), (ScribdAudioBook.set_title (Some t) s, w))
  | Raise e => (Raise e, (s, w))
  end.
Proof.
  intros Hf. unfold ScribdAudioBook.title, bind, get_self, if_not, lift, set_self, ret.
  cbn [fst snd]. rewrite Hf. cbn [fst snd].
  destruct (list_remove EmptyString (split "/" (ScribdAudioBook.audiobook_url s)))
    as [splits|]; cbn [rbind fst snd]; [|reflexivity].
  destruct (last_item splits); reflexivity.
Qed.

(** X6.  When [title] computes a title, it is the last segment of the
    URL once the first empty segment is removed, with hyphens turned into
    spaces, and no request is sent for it.  The title holds no slash and
    no hyphen, and the file-name stem made of it by replacing spaces holds
    no slash, no hyphen and no space. *)
Theorem X6_title_characters (s : ScribdAudioBook.t) (w : World)
    (t : string) (st' : ScribdAudioBook.State) :
  truthy_str (ScribdAudioBook._title s) = false ->
  ScribdAudioBook.title (s, w) = (Ok (Some t), st') ->
  (exists splits seg,
     list_remove EmptyString (split "/" (ScribdAudioBook.audiobook_url s)) = Ok splits /\
     last_item splits = Ok seg /\
     In seg (split "/" (ScribdAudioBook.audiobook_url s)) /\
     t = replace "-" " " seg) /\
  snd st' = w /\
  has_char "/" t = false /\
  has_char "-" t = false /\
  has_char "/" (replace " " "_" t) = false /\
  has_char "-" (replace " " "_" t) = false /\
  has_char " " (replace " " "_" t) = false.
Proof.
  intros Hf H. rewrite (title_computed s w Hf) in H.
  destruct (list_remove EmptyString (split "/" (ScribdAudioBook.audiobook_url s)))
    as [splits|] eqn:Hr; cbn [rbind] in H; [|discriminate].
  destruct (last_item splits) as [seg|] eqn:Hl; cbn [rbind] in H; [|discriminate].
  injection H as <- <-.
  assert (Hin : In seg (split "/" (ScribdAudioBook.audiobook_url s))).
  { eapply list_remove_In; [exact Hr|]. apply last_item_In, Hl. }
  assert (Hslash : has_char "/" (replace "-" " " seg) = false).
  { apply replace_adds_only; [discriminate|]. eapply split_no_separator, Hin. }
  assert (Hhyphen : has_char "-" (replace "-" " " seg) = false).
  { apply replace_removes. discriminate. }
  split; [exists splits, seg; auto|]. split; [reflexivity|].
  split; [exact Hslash|]. split; [exact Hhyphen|].
  split; [apply replace_adds_only; [discriminate|exact Hslash]|].
  split; [apply replace_adds_only; [discriminate|exact Hhyphen]|].
  apply replace_removes. discriminate.
Qed.

Lemma X6_witness :
  exists st',
    ScribdAudioBook.title (Scenario.book, Scenario.free_world)
    = (Ok (Some "My Great Book"), st') /\
    has_char "/" (replace " " "_" "My Great Book") = false.
Proof.
  exists (snd (ScribdAudioBook.title (Scenario.book, Scenario.free_world))).
  split; [reflexivity|].
  destruct (X6_title_characters Scenario.book Scenario.free_world "My Great Book"
              (snd (ScribdAudioBook.title (Scenario.book, Scenario.free_world)))
              eq_refl eq_refl) as (_ & _ & _ & _ & H & _).
  exact H.
Defined.

(** X7.  When the URL has no empty segment (no doubled, leading or final
    slash), [title] raises [ValueError], stores nothing and sends nothing;
    it raises [ValueError] in no other case, and [IndexError] only for the
    empty URL. *)
Theorem X7_title_raises (s : ScribdAudioBook.t) (w : World) (e : PyError) :
  truthy_str (ScribdAudioBook._title s) = false ->
  (fst (ScribdAudioBook.title (s, w)) = Raise e <->
   (~ In EmptyString (split "/" (ScribdAudioBook.audiobook_url s)) /\ e = ValueError) \/
   (ScribdAudioBook.audiobook_url s = EmptyString /\ e = IndexError)) /\
  (is_ok (fst (ScribdAudioBook.title (s, w))) = false ->
   snd (ScribdAudioBook.title (s, w)) = (s, w)).
Proof.
  intros Hf. rewrite (title_computed s w Hf).
  pose proof (list_remove_raises EmptyString (split "/" (ScribdAudioBook.audiobook_url s)))
    as Hrm.
  destruct (list_remove EmptyString (split "/" (ScribdAudioBook.audiobook_url s)))
    as [splits|e0] eqn:Hr; cbn [rbind].
  - destruct (last_item splits) as [seg|e1] eqn:Hl; cbn [rbind fst snd].
    + split; [|discriminate]. split; [discriminate|].
      intros [[Hn ->]|[Hu ->]].
      * destruct (Hrm ValueError) as [_ H]. discriminate H. auto.
      * rewrite Hu in Hr. cbn in Hr. injection Hr as <-. discriminate Hl.
    + split; [|reflexivity].
      apply last_item_raise in Hl as [-> ->].
      assert (Hu : ScribdAudioBook.audiobook_url s = EmptyString).
      { destruct (ScribdAudioBook.audiobook_url s) as [|c r]; [reflexivity|].
        exfalso. cbn [split] in Hr. destruct (Ascii.eqb c "/").
        - cbn [list_remove String.eqb] in Hr. injection Hr as Hr.
          exact (split_nonempty _ _ Hr).
        - destruct (split "/" r) as [|h t]; cbn [list_remove String.eqb] in Hr.
          + discriminate.
          + destruct (list_remove EmptyString t); discriminate. }
      split.
      * intros H; injection H as <-. right. auto.
      * intros [[Hn ->]|[_ ->]]; [|reflexivity].
        exfalso. apply Hn. rewrite Hu. left. reflexivity.
  - split; [|reflexivity]. destruct (Hrm e0) as [H _].
    destruct (H eq_refl) as [Hn ->]. split.
    + intros Heq; injection Heq as <-. left. auto.
    + intros [[_ ->]|[Hu ->]]; [reflexivity|].
      exfalso. apply Hn. rewrite Hu. left. reflexivity.
Qed.

Lemma X7_witness :
  fst (ScribdAudioBook.title
         (constructed "www.scribd.com/audiobook/123456789/My-Great-Book" "123456789" [],
          Scenario.free_world))
  = Raise ValueError.
Proof.
  apply (proj1 (X7_title_raises
                  (constructed "www.scribd.com/audiobook/123456789/My-Great-Book"
                     "123456789" [])
                  Scenario.free_world ValueError eq_refl)).
  left. split; [|reflexivity].
  cbv. intuition discriminate.
Defined.

(** ** More on building and downloading a playlist *)

Lemma comprehension_first_failure {A B : Type} (f : A -> Result B)
    (good : list A) (bad : A) (rest : list A) (e : PyError) :
  Forall (fun x => is_ok (f x) = true) good ->
  f bad = Raise e ->
  comprehension f (good ++ bad :: rest) = Raise e.
Proof.
  intros Hgood Hbad. induction Hgood as [|x good Hx _ IH]; cbn [app comprehension].
  - rewrite Hbad. reflexivity.
  - destruct (f x); [|discriminate]. cbn [rbind]. rewrite IH. reflexivity.
Qed.

Lemma track_init_raises (entry : PyVal) (e : PyError) :
  Track.init entry = Raise e ->
  ((forall d, entry <> PyDict d) /\ e = TypeError) \/
  (exists d key, entry = PyDict d /\ lookup key d = None /\ e = KeyError /\
     (key = "url" \/ key = "part_number" \/ key = "chapter_number")).
Proof.
  unfold Track.init. destruct entry as [| | | | |d]; cbn [getitem rbind];
    try (intros H; injection H as <-; left; split; [discriminate|reflexivity]).
  intros H. right.
  destruct (lookup "url" d) eqn:H1; cbn [rbind] in H.
  2: { injection H as <-. exists d, "url". repeat split; auto. }
  destruct (lookup "part_number" d) eqn:H2; cbn [rbind] in H.
  2: { injection H as <-. exists d, "part_number". repeat split; auto. }
  destruct (lookup "chapter_number" d) eqn:H3; cbn [rbind] in H; [discriminate|].
  injection H as <-. exists d, "chapter_number". repeat split; auto.
Qed.

(** X8.  How [Playlist.__init__] fails and what it builds from nothing.
    It raises the error of the subscript when the record has no
    ["playlist"] (or is no dict), [TypeError] when what is there cannot be
    iterated, and otherwise the error of the first entry that [Track]
    refuses, whatever the entries after it are: [TypeError] for an entry
    that is no dict, [KeyError] for a dict without one of the three keys.
    An empty list, an empty dict or an empty string under ["playlist"]
    gives a playlist without tracks; a non-empty dict or string raises
    [TypeError], its items being strings. *)
Theorem X8_playlist_init_raises (title : string) (record entries : PyVal) :
  (forall e, getitem record "playlist" = Raise e -> Playlist.init title record = Raise e) /\
  (getitem record "playlist" = Ok entries ->
   (py_iter entries = Raise TypeError -> Playlist.init title record = Raise TypeError) /\
   (forall good bad rest e,
      py_iter entries = Ok (good ++ bad :: rest)%list ->
      Forall (fun x => is_ok (Track.init x) = true) good ->
      Track.init bad = Raise e ->
      Playlist.init title record = Raise e /\
      (((forall d, bad <> PyDict d) /\ e = TypeError) \/
       (exists d key, bad = PyDict d /\ lookup key d = None /\ e = KeyError /\
          (key = "url" \/ key = "part_number" \/ key = "chapter_number")))) /\
   (entries = PyList [] \/ entries = PyDict [] \/ entries = PyStr EmptyString ->
    Playlist.init title record = Ok (Playlist.Build title [] record [])) /\
   ((exists kv d, entries = PyDict (kv :: d)) \/ (exists c r, entries = PyStr (String c r)) ->
    Playlist.init title record = Raise TypeError)).
Proof.
  unfold Playlist.init. split.
  - intros e ->. reflexivity.
  - intros ->. cbn [rbind]. split; [|split; [|split]].
    + intros ->. reflexivity.
    + intros good bad rest e -> Hgood Hbad. cbn [rbind].
      rewrite (comprehension_first_failure _ _ _ _ _ Hgood Hbad).
      split; [reflexivity|]. apply track_init_raises, Hbad.
    + intros [->|[->| ->]]; reflexivity.
    + intros [(kv & d & ->)|(c & r & ->)]; reflexivity.
Qed.

Lemma X8_witness :
  Playlist.init "t"
    (PyDict [("playlist",
              PyList [Scenario.entry "u" "0" "1";
                      PyDict [("url", PyStr "u"); ("chapter_number", PyStr "2")];
                      PyNone])])
  = Raise KeyError.
Proof.
  apply (proj1 (proj1 (proj2 (proj2 (X8_playlist_init_raises "t"
           (PyDict [("playlist",
                     PyList [Scenario.entry "u" "0" "1";
                             PyDict [("url", PyStr "u"); ("chapter_number", PyStr "2")];
                             PyNone])])
           (PyList [Scenario.entry "u" "0" "1";
                    PyDict [("url", PyStr "u"); ("chapter_number", PyStr "2")];
                    PyNone])) eq_refl))
         [Scenario.entry "u" "0" "1"]
         (PyDict [("url", PyStr "u"); ("chapter_number", PyStr "2")])
         [PyNone] KeyError eq_refl
         ltac:(repeat constructor) eq_refl)).
Defined.

Section Progress.
#[local] Open Scope list_scope.
Context {E : Env}.
Variable title : string.

Lemma transfer_stdout (track : Track.t) (w : World) :
  stdout (snd (transfer title track w)) = stdout w ++ [progress_line title track].
Proof.
  unfold transfer, bind, print, Track.download, internals.download_stream, bind, send, ret.
  cbn. destruct (server w (sent w) _); reflexivity.
Qed.

Lemma download_loop_prints (todo : list Track.t) :
  forall (self : Playlist.t) (w : World),
    (transfers_succeed title todo w = true ->
     stdout (snd (snd (Playlist.download_loop title todo (self, w))))
     = stdout w ++ map (progress_line title) todo) /\
    (forall k e, first_failure title todo w k = Some e ->
     stdout (snd (snd (Playlist.download_loop title todo (self, w))))
     = stdout w ++ map (progress_line title) (firstn (S k) todo)).
Proof.
  induction todo as [|track rest IH]; intros self w.
  - split; [intros _; cbn; rewrite app_nil_r; reflexivity|discriminate].
  - rewrite download_loop_cons. cbn [transfers_succeed first_failure].
    pose proof (transfer_stdout track w) as Hout.
    destruct (transfer title track w) as [[[]|e'] w1]; cbn [snd is_ok andb] in *.
    + destruct (IH (with_paths self
                     (Playlist.download_paths self ++ [Playlist.path_of title track])) w1)
        as [IHok IHfail].
      split.
      * intros Hok. rewrite (IHok Hok), Hout, <- app_assoc. reflexivity.
      * intros [|k] e Hf; [discriminate|].
        rewrite (IHfail k e Hf), Hout, <- app_assoc. reflexivity.
    + split; [discriminate|].
      intros [|k] e Hf; [|discriminate]. cbn [snd firstn map]. exact Hout.
Qed.

End Progress.

(** X9.  [download] prints one progress line per track it attempts, in
    playlist order, each before its transfer: every track's line when all
    transfers complete, and the lines of tracks [0..k], the failing one
    included, when the transfer of track [k] raises (one line more than
    paths recorded). *)
Theorem X9_progress_lines {E : Env} (self : Playlist.t) (w : World) :
  (transfers_succeed (Playlist.title self) (Playlist.tracks self) w = true ->
   stdout (snd (snd (Playlist.download (self, w))))
   = (stdout w ++ map (progress_line (Playlist.title self)) (Playlist.tracks self))%list) /\
  (forall k e,
     first_failure (Playlist.title self) (Playlist.tracks self) w k = Some e ->
     stdout (snd (snd (Playlist.download (self, w))))
     = (stdout w
        ++ map (progress_line (Playlist.title self)) (firstn (S k) (Playlist.tracks self)))%list).
Proof.
  exact (download_loop_prints (Playlist.title self) (Playlist.tracks self) self w).
Qed.

Lemma X9_witness :
  List.length
    (stdout (snd (snd (Playlist.download (E := Scenario.env)
                         (Scenario.three_chapters,
                          Scenario.world Scenario.premium_page [] "My_Great_Book_2.mp3")))))
  = 2 /\
  List.length
    (stdout (snd (snd (Playlist.download (E := Scenario.env)
                         (Scenario.three_chapters, Scenario.premium_world)))))
  = 3.
Proof.
  split.
  - rewrite (proj2 (X9_progress_lines (E := Scenario.env) Scenario.three_chapters
                      (Scenario.world Scenario.premium_page [] "My_Great_Book_2.mp3"))
               1 RequestException eq_refl).
    reflexivity.
  - rewrite (proj1 (X9_progress_lines (E := Scenario.env) Scenario.three_chapters
                      Scenario.premium_world) eq_refl).
    reflexivity.
Defined.

(** X10.  [download] does not look at the paths already recorded: run a
    second time on the same playlist, with every transfer completing both
    times, it sends the stream request of every track again and records
    every path a second time, after the first ones. *)
Theorem X10_second_download_repeats {E : Env} (self : Playlist.t) (w : World) :
  transfers_succeed (Playlist.title self) (Playlist.tracks self) w = true ->
  transfers_succeed (Playlist.title self) (Playlist.tracks self)
    (snd (snd (Playlist.download (self, w)))) = true ->
  exists self1 w1 self2 w2,
    Playlist.download (self, w) = (Ok tt, (self1, w1)) /\
    Playlist.download (self1, w1) = (Ok tt, (self2, w2)) /\
    Playlist.download_paths self2
    = (Playlist.download_paths self
       ++ map (Playlist.path_of (Playlist.title self)) (Playlist.tracks self)
       ++ map (Playlist.path_of (Playlist.title self)) (Playlist.tracks self))%list /\
    sent w2
    = (sent w
       ++ map (stream_request (Playlist.title self)) (Playlist.tracks self)
       ++ map (stream_request (Playlist.title self)) (Playlist.tracks self))%list.
Proof.
  intros Hok1 Hok2.
  destruct (download_loop_succeeds (Playlist.title self) (Playlist.tracks self)
              self self w Hok1) as (self1 & w1 & Hrun1 & (Ht & Htr & Hpl & Hp) & Hs).
  { unfold recorded. auto. }
  assert (Hd1 : Playlist.download (self, w) = (Ok tt, (self1, w1))) by exact Hrun1.
  rewrite Hd1 in Hok2. cbn [snd] in Hok2.
  destruct (download_loop_succeeds (Playlist.title self) (Playlist.tracks self)
              self1 self1 w1 Hok2) as (self2 & w2 & Hrun2 & (_ & _ & _ & Hp2) & Hs2).
  { unfold recorded. auto. }
  exists self1, w1, self2, w2. split; [exact Hd1|]. split.
  - unfold Playlist.download, bind, get_self. cbn [fst]. rewrite Ht, Htr. exact Hrun2.
  - rewrite Hp2, Hp, Hs2, Hs, <- !app_assoc. auto.
Qed.

Lemma X10_witness :
  exists self2 w2,
    Playlist.download (E := Scenario.env)
      (snd (Playlist.download (E := Scenario.env)
              (Scenario.three_chapters, Scenario.premium_world)))
    = (Ok tt, (self2, w2)) /\
    List.length (Playlist.download_paths self2) = 6.
Proof.
  destruct (X10_second_download_repeats (E := Scenario.env) Scenario.three_chapters
              Scenario.premium_world eq_refl eq_refl)
    as (self1 & w1 & self2 & w2 & H1 & H2 & Hp & _).
  exists self2, w2. rewrite H1. cbn [snd]. split; [exact H2|].
  rewrite Hp. reflexivity.
Defined.

(** ** The attributes agree with what they are derived from *)

Section Inversion.
Context {S0 : Type}.

Lemma bind_inv {A B : Type} (m : M (S0 * World) A) (k : A -> M (S0 * World) B) (st st' : S0 * World) (r : Result B) :
  bind m k st = (r, st') ->
  (exists e, m st = (Raise e, st') /\ r = Raise e) \/
  (exists a st1, m st = (Ok a, st1) /\ k a st1 = (r, st')).
Proof.
  unfold bind. destruct (m st) as [[a|e] st1]; intros H.
  - right. eauto.
  - left. injection H as <- <-. eauto.
Qed.

Lemma bind_get_self {B : Type} (k : S0 -> M (S0 * World) B) (st : S0 * World) :
  bind get_self k st = k (fst st) st.
Proof. reflexivity. Qed.

Lemma lift_inv {A : Type} (x r : Result A) (st st' : S0 * World) :
  lift x st = (r, st') -> r = x /\ st' = st.
Proof. unfold lift. intros H; injection H as <- <-. auto. Qed.

Lemma ret_inv {A : Type} (x : A) (r : Result A) (st st' : S0 * World) :
  ret x st = (r, st') -> r = Ok x /\ st' = st.
Proof. unfold ret. intros H; injection H as <- <-. auto. Qed.

Lemma raise_inv {A : Type} (e : PyError) (r : Result A) (st st' : S0 * World) :
  raise e st = (r, st') -> r = Raise e /\ st' = st.
Proof. unfold raise. intros H; injection H as <- <-. auto. Qed.

Lemma set_self_inv (f : S0 -> S0) (r : Result unit) (st st' : S0 * World) :
  set_self f st = (r, st') -> r = Ok tt /\ st' = (f (fst st), snd st).
Proof. unfold set_self. intros H; injection H as <- <-. auto. Qed.

Lemma in_world_inv {A : Type} (m : M World A) (r : Result A) (st st' : S0 * World) :
  in_world m st = (r, st') -> fst st' = fst st /\ m (snd st) = (r, snd st').
Proof.
  unfold in_world. destruct (m (snd st)) as [r0 w']. intros H; injection H as <- <-. auto.
Qed.

End Inversion.

(** Takes apart an equation [m st = (r, st')] along the binds of [m], down
    to the equations of the properties it reads. *)
Ltac inv H :=
  lazymatch type of H with
  | bind get_self _ _ = _ => rewrite bind_get_self in H; cbv beta in H; inv H
  | bind _ _ _ = _ =>
      let e := fresh "e" in
      let a := fresh "a" in
      let st1 := fresh "st" in
      let Hm := fresh "Hm" in
      let Hr := fresh "Hr" in
      apply bind_inv in H;
      destruct H as [(e & Hm & Hr)|(a & st1 & Hm & H)];
      [try discriminate Hr; try (injection Hr as Hr); try subst; inv Hm
      |cbv beta in H; inv Hm; inv H]
  | if_not ?c _ _ = _ =>
      let Hc := fresh "Hguard" in
      destruct c eqn:Hc; unfold if_not in H; inv H
  | (if ?c then _ else _) _ = _ =>
      destruct c; inv H
  | lift _ _ = _ =>
      let H1 := fresh "Hres" in
      let H2 := fresh "Hst" in
      apply lift_inv in H; destruct H as [H1 H2]; try discriminate H1; try (injection H1 as H1); try subst
  | ret _ _ = _ =>
      let H1 := fresh "Hres" in
      let H2 := fresh "Hst" in
      apply ret_inv in H; destruct H as [H1 H2]; try discriminate H1; try (injection H1 as H1); try subst
  | raise _ _ = _ =>
      let H1 := fresh "Hres" in
      let H2 := fresh "Hst" in
      apply raise_inv in H; destruct H as [H1 H2]; try discriminate H1; try (injection H1 as H1); try subst
  | set_self _ _ = _ =>
      let H1 := fresh "Hres" in
      let H2 := fresh "Hst" in
      apply set_self_inv in H; destruct H as [H1 H2]; try discriminate H1; try (injection H1 as H1); try subst
  | _ => idtac
  end.

(** Reduces the projections of an instance after an assignment. *)
Ltac attrs :=
  cbn [fst snd ScribdAudioBook._audiobook_keys ScribdAudioBook._preview_url
       ScribdAudioBook._book_id ScribdAudioBook._author_id ScribdAudioBook._license_url
       ScribdAudioBook._license_id ScribdAudioBook._playlist_url
       ScribdAudioBook._authenticate_url ScribdAudioBook._title ScribdAudioBook._playlist
       ScribdAudioBook.audiobook_url ScribdAudioBook.scribd_id
       ScribdAudioBook.session_key_header ScribdAudioBook.cookies
       ScribdAudioBook.set_audiobook_keys ScribdAudioBook.set_preview_url
       ScribdAudioBook.set_book_id ScribdAudioBook.set_author_id
       ScribdAudioBook.set_license_url ScribdAudioBook.set_license_id
       ScribdAudioBook.set_playlist_url ScribdAudioBook.set_authenticate_url
       ScribdAudioBook.set_title ScribdAudioBook.set_playlist] in *.

(** Splits the coherence of an instance after an assignment into its
    clauses, and settles those of the attributes not assigned. *)
Ltac coherent_after Hc :=
  let C1 := fresh "C1" in let C2 := fresh "C2" in let C3 := fresh "C3" in
  let C4 := fresh "C4" in let C5 := fresh "C5" in let C6 := fresh "C6" in
  let C7 := fresh "C7" in let C8 := fresh "C8" in
  destruct Hc as (C1 & C2 & C3 & C4 & C5 & C6 & C7 & C8);
  unfold coherent, listen_url_of in *; attrs;
  repeat split; try assumption.

(** Coherence of an instance that is one already known coherent, up to
    the requests in between. *)
Ltac coh :=
  cbn [fst];
  repeat match goal with
         | H : fst ?a = _ |- context [fst ?a] => rewrite H
         end;
  assumption.

(** Applies the specification [lemma] of a property to the equation [H]
    of a read of it. *)
Ltac use_spec_on H lemma :=
  let Hc := fresh "Hcoh" in
  let Hp := fresh "Hpost" in
  let Hc0 := fresh "Hpre" in
  match type of H with
  | _ ?st = (?r, ?st') =>
      assert (Hc0 : coherent (fst st)) by coh;
      destruct (lemma st r st' Hc0 H) as [Hc Hp]; clear Hc0
  end;
  try (specialize (Hp _ eq_refl); cbn beta in Hp).

(** A read that raised: the instance is as a property read on the way
    left it. *)
Ltac raised := try (split; [coh|discriminate]).

Section Coherence.
Context {E : Env}.

Lemma scrape_instance (st st' : ScribdAudioBook.State) (r : Result ScribdAudioBook.Keys) :
  ScribdAudioBook._scrape_audiobook st = (r, st') -> fst st' = fst st.
Proof.
  destruct st as [s w]. intros H. apply (f_equal snd) in H.
  rewrite scrape_state in H. cbn [snd] in H. subst st'. reflexivity.
Qed.

Lemma spec_audiobook_keys :
  spec ScribdAudioBook.audiobook_keys
    (fun o s => exists k, o = Some k /\ ScribdAudioBook._audiobook_keys s = Some k).
Proof.
  intros [s w] r st' Hc H. unfold ScribdAudioBook.audiobook_keys in H.
  inv H; cbn [fst snd] in *.
  - apply scrape_instance in Hm0. cbn [fst] in Hm0. rewrite Hm0.
    split; [exact Hc|discriminate].
  - split; [exact Hc|]. intros a Ha. injection Ha as <-.
    destruct (ScribdAudioBook._audiobook_keys s) as [k|]; [|discriminate]. eauto.
  - apply scrape_instance in Hm0. cbn [fst] in Hm0. rewrite Hm0.
    assert (Hnone : ScribdAudioBook._audiobook_keys s = None).
    { destruct (ScribdAudioBook._audiobook_keys s); [discriminate|reflexivity]. }
    split.
    + coherent_after Hc; intros v Hv;
        match goal with
        | C : forall v, ?attr = Some v -> exists k, _ |- _ =>
            match type of Hv with attr = _ => destruct (C v Hv) as (k' & Hk' & _) end
        end; rewrite Hnone in Hk'; discriminate.
    + intros a Ha. injection Ha as <-. attrs. eauto.
Qed.

Ltac after_keys :=
  match goal with
  | H : ScribdAudioBook.audiobook_keys _ = _ |- _ => use_spec_on H spec_audiobook_keys
  end.

Lemma spec_preview_url :
  spec ScribdAudioBook.preview_url
    (fun o s => exists k, ScribdAudioBook._audiobook_keys s = Some k /\
       o = Some (ScribdAudioBook.keys_preview_url k)).
Proof.
  intros [s w] r st' Hc H. unfold ScribdAudioBook.preview_url in H.
  inv H; cbn [fst snd] in *; try after_keys; raised.
  - split; [exact Hc|]. intros a Ha. injection Ha as <-.
    destruct (ScribdAudioBook._preview_url s) as [v|] eqn:Hv; [|discriminate].
    destruct Hc as (C1 & _). destruct (C1 v Hv) as (k & Hk & ->). eauto.
  - destruct Hpost as (k & -> & Hk). cbn in Hres. injection Hres as ->.
    split.
    + coherent_after Hcoh. intros v Hv. injection Hv as <-. eauto.
    + intros a Ha. injection Ha as <-. attrs. eauto.
Qed.

Lemma spec_book_id :
  spec ScribdAudioBook.book_id
    (fun o s => exists k, ScribdAudioBook._audiobook_keys s = Some k /\
       o = Some (ScribdAudioBook.keys_book_id k)).
Proof.
  intros [s w] r st' Hc H. unfold ScribdAudioBook.book_id in H.
  inv H; cbn [fst snd] in *; try after_keys; raised.
  - split; [exact Hc|]. intros a Ha. injection Ha as <-.
    destruct (ScribdAudioBook._book_id s) as [v|] eqn:Hv; [|discriminate].
    destruct Hc as (_ & C2 & _). destruct (C2 v Hv) as (k & Hk & ->). eauto.
  - destruct Hpost as (k & -> & Hk). cbn in Hres. injection Hres as ->.
    split.
    + coherent_after Hcoh. intros v Hv. injection Hv as <-. eauto.
    + intros a Ha. injection Ha as <-. attrs. eauto.
Qed.

Lemma spec_author_id :
  spec ScribdAudioBook.author_id
    (fun o s => exists k, ScribdAudioBook._audiobook_keys s = Some k /\
       o = ScribdAudioBook.keys_author_id k).
Proof.
  intros [s w] r st' Hc H. unfold ScribdAudioBook.author_id in H.
  inv H; cbn [fst snd] in *; try after_keys; raised.
  - split; [exact Hc|]. intros a Ha. injection Ha as <-.
    destruct (ScribdAudioBook._author_id s) as [v|] eqn:Hv; [|discriminate].
    destruct Hc as (_ & _ & C3 & _). destruct (C3 v Hv) as (k & Hk & Hkv).
    exists k. split; [exact Hk|symmetry; exact Hkv].
  - destruct Hpost as (k & -> & Hk). cbn in Hres. injection Hres as ->.
    split.
    + coherent_after Hcoh. intros v Hv. eauto.
    + intros a Ha. injection Ha as <-. attrs. eauto.
Qed.

(** The scraped keys, once set, stay as they are through a method that
    keeps truthy attributes. *)
Lemma keys_stay {A : Type} (m : M ScribdAudioBook.State A) (k : ScribdAudioBook.Keys)
    (st st' : ScribdAudioBook.State) (r : Result A) :
  preserves (holds FAudiobookKeys (VKeys (Some k))) m ->
  m st = (r, st') ->
  ScribdAudioBook._audiobook_keys (fst st) = Some k ->
  ScribdAudioBook._audiobook_keys (fst st') = Some k.
Proof.
  intros Hp Hm Hk. specialize (Hp st). rewrite Hm in Hp. cbn [snd] in Hp.
  unfold holds, stored in Hp.
  assert (H : VKeys (ScribdAudioBook._audiobook_keys (fst st')) = VKeys (Some k)).
  { apply Hp. rewrite Hk. reflexivity. }
  injection H as H. exact H.
Qed.

Ltac after_author :=
  match goal with
  | H : ScribdAudioBook.author_id _ = _ |- _ => use_spec_on H spec_author_id
  end.

Ltac after_book :=
  match goal with
  | H : ScribdAudioBook.book_id _ = _ |- _ => use_spec_on H spec_book_id
  end.

Lemma spec_license_url :
  spec ScribdAudioBook.license_url
    (fun o s => exists k, ScribdAudioBook._audiobook_keys s = Some k /\
       o = Some (license_url_of k)).
Proof.
  intros [s w] r st' Hc H. unfold ScribdAudioBook.license_url in H.
  inv H; cbn [fst snd] in *; try after_author; try after_book; raised.
  - split; [exact Hc|]. intros a Ha. injection Ha as <-.
    destruct (ScribdAudioBook._license_url s) as [v|] eqn:Hv; [|discriminate].
    destruct Hc as (_ & _ & _ & C4 & _). destruct (C4 v Hv) as (k & Hk & ->). eauto.
  - destruct Hpost as (k & Hk & ->). destruct Hpost0 as (k' & Hk' & ->).
    match goal with
    | H : ScribdAudioBook.book_id _ = _ |- _ =>
        pose proof (keys_stay _ k _ _ _
                      (book_id_keeps FAudiobookKeys (VKeys (Some k)) eq_refl) H Hk) as Hsame
    end.
    rewrite Hk' in Hsame. injection Hsame as ->.
    split.
    + coherent_after Hcoh0. intros v Hv. injection Hv as <-. exists k. auto.
    + intros a Ha. injection Ha as <-. attrs. exists k. auto.
Qed.

Lemma spec_playlist_url :
  spec ScribdAudioBook.playlist_url
    (fun o s => exists k, ScribdAudioBook._audiobook_keys s = Some k /\
       o = Some (playlist_url_of k)).
Proof.
  intros [s w] r st' Hc H. unfold ScribdAudioBook.playlist_url in H.
  inv H; cbn [fst snd] in *; try after_book; raised.
  - split; [exact Hc|]. intros a Ha. injection Ha as <-.
    destruct (ScribdAudioBook._playlist_url s) as [v|] eqn:Hv; [|discriminate].
    destruct Hc as (_ & _ & _ & _ & C5 & _). destruct (C5 v Hv) as (k & Hk & ->). eauto.
  - destruct Hpost as (k & Hk & ->).
    split.
    + coherent_after Hcoh. intros v Hv. injection Hv as <-. exists k. auto.
    + intros a Ha. injection Ha as <-. attrs. exists k. auto.
Qed.

Lemma spec_authenticate_url :
  spec ScribdAudioBook.authenticate_url (fun o s => o = Some (listen_url_of s)).
Proof.
  intros [s w] r st' Hc H. unfold ScribdAudioBook.authenticate_url in H.
  inv H; cbn [fst snd] in *; raised.
  - split; [exact Hc|]. intros a Ha. injection Ha as <-.
    destruct (ScribdAudioBook._authenticate_url s) as [v|] eqn:Hv; [|discriminate].
    destruct Hc as (_ & _ & _ & _ & _ & C6 & _). rewrite (C6 v Hv). reflexivity.
  - split.
    + coherent_after Hc. intros v Hv. injection Hv as <-. reflexivity.
    + intros a Ha. injection Ha as <-. reflexivity.
Qed.

Lemma spec_title :
  spec ScribdAudioBook.title
    (fun o s => exists t, o = Some t /\ ScribdAudioBook._title s = Some t).
Proof.
  intros [s w] r st' Hc H. unfold ScribdAudioBook.title in H.
  inv H; cbn [fst snd] in *; raised.
  - split; [exact Hc|]. intros a Ha. injection Ha as <-.
    destruct (ScribdAudioBook._title s) as [v|] eqn:Hv; [|discriminate]. eauto.
  - split.
    + coherent_after Hc.
      * intros v Hv. injection Hv as <-. unfold title_of_url.
        rewrite <- Hres. cbn [rbind]. rewrite <- Hres0. reflexivity.
      * intros p Hp. destruct (C8 p Hp) as (t & Ht & Hpt).
        pose proof (C7 t Ht) as Htitle. unfold title_of_url in Htitle.
        rewrite <- Hres in Htitle. cbn [rbind] in Htitle.
        rewrite <- Hres0 in Htitle. cbn [rbind] in Htitle.
        injection Htitle as <-. eauto.
    + intros a Ha. injection Ha as <-. attrs. eauto.
Qed.

Lemma get_url_instance (u : option string) (c : option Cookies) (h : option Headers)
    (st st' : ScribdAudioBook.State) (r : Result string) :
  ScribdAudioBook.get_url u c h st = (r, st') -> fst st' = fst st.
Proof.
  destruct u; cbn [ScribdAudioBook.get_url].
  - intros H. apply in_world_inv in H. tauto.
  - intros H. apply raise_inv in H. destruct H as [_ ->]. reflexivity.
Qed.

Lemma post_url_instance (u : option string) (h : Headers) (d : string)
    (st st' : ScribdAudioBook.State) (r : Result string) :
  ScribdAudioBook.post_url u h d st = (r, st') -> fst st' = fst st.
Proof.
  destruct u; cbn [ScribdAudioBook.post_url].
  - intros H. apply in_world_inv in H. tauto.
  - intros H. apply raise_inv in H. destruct H as [_ ->]. reflexivity.
Qed.

(** Requests leave the instance as it is. *)
Ltac requests :=
  repeat match goal with
         | H : ScribdAudioBook.get_url _ _ _ _ = _ |- _ =>
             apply get_url_instance in H; cbn [fst] in H
         | H : ScribdAudioBook.post_url _ _ _ _ = _ |- _ =>
             apply post_url_instance in H; cbn [fst] in H
         end.

Ltac after_authenticate :=
  match goal with
  | H : ScribdAudioBook.authenticate_url _ = _ |- _ => use_spec_on H spec_authenticate_url
  end.

Ltac after_license_url :=
  match goal with
  | H : ScribdAudioBook.license_url _ = _ |- _ => use_spec_on H spec_license_url
  end.

Lemma spec_license_id : spec ScribdAudioBook.license_id (fun _ _ => True).
Proof.
  intros [s w] r st' Hc H. unfold ScribdAudioBook.license_id in H.
  inv H; cbn [fst snd] in *; try after_authenticate; requests; try after_license_url;
    requests; raised.
  - split; [exact Hc|auto].
  - split; [|auto].
    repeat match goal with
           | H : fst ?a = _ |- context [fst ?a] => rewrite H
           end.
    coherent_after Hcoh0.
Qed.

Ltac after_preview :=
  match goal with
  | H : ScribdAudioBook.preview_url _ = _ |- _ => use_spec_on H spec_preview_url
  end.

Ltac after_license_id :=
  match goal with
  | H : ScribdAudioBook.license_id _ = _ |- _ => use_spec_on H spec_license_id
  end.

Ltac after_playlist_url :=
  match goal with
  | H : ScribdAudioBook.playlist_url _ = _ |- _ => use_spec_on H spec_playlist_url
  end.

Lemma spec_make_playlist : spec ScribdAudioBook.make_playlist (fun _ _ => True).
Proof.
  intros [s w] r st' Hc H.
  unfold ScribdAudioBook.make_playlist, ScribdAudioBook.premium_cookies,
    ScribdAudioBook.premium_branch, ScribdAudioBook.preview_branch in H.
  inv H; cbn [fst snd] in *; try after_author; try after_license_id;
    try after_playlist_url; try after_preview; requests; raised;
    (split; [coh|auto]).
Qed.

Lemma playlist_init_title (title : string) (record : PyVal) (p : Playlist.t) :
  Playlist.init title record = Ok p -> Playlist.title p = title.
Proof.
  unfold Playlist.init. intros H.
  destruct (getitem record "playlist") as [entries|]; cbn [rbind] in H; [|discriminate].
  destruct (py_iter entries) as [items|]; cbn [rbind] in H; [|discriminate].
  destruct (comprehension Track.init items) as [tracks|]; cbn [rbind] in H; [|discriminate].
  injection H as <-. reflexivity.
Qed.

Lemma title_stays {A : Type} (m : M ScribdAudioBook.State A) (t : option string)
    (st st' : ScribdAudioBook.State) (r : Result A) :
  preserves (holds FTitle (VStr t)) m ->
  m st = (r, st') ->
  ScribdAudioBook._title (fst st) = t ->
  ScribdAudioBook._title (fst st') = t.
Proof.
  intros Hp Hm Ht. specialize (Hp st). rewrite Hm in Hp. cbn [snd] in Hp.
  unfold holds, stored in Hp.
  assert (H : VStr (ScribdAudioBook._title (fst st')) = VStr t).
  { apply Hp. rewrite Ht. reflexivity. }
  injection H as H. exact H.
Qed.

Lemma spec_playlist : spec ScribdAudioBook.playlist (fun _ _ => True).
Proof.
  intros [s w] r st' Hc H. unfold ScribdAudioBook.playlist in H.
  inv H; cbn [fst snd] in *;
    try match goal with
        | H : ScribdAudioBook.title _ = _ |- _ => use_spec_on H spec_title
        end;
    try match goal with
        | H : ScribdAudioBook.make_playlist _ = _ |- _ =>
            pose proof H as Hmake; use_spec_on H spec_make_playlist
        end;
    raised.
  - split; [exact Hc|auto].
  - split; [|auto].
    destruct Hpost as (t & -> & Ht). cbn in Hres. injection Hres as ->.
    pose proof (title_stays _ (Some t) _ _ _
                  (make_playlist_frame FTitle (VStr (Some t)) eq_refl) Hmake Ht) as Ht'.
    symmetry in Hres0. apply playlist_init_title in Hres0.
    coherent_after Hcoh0. intros p Hp. injection Hp as <-. exists t. auto.
Qed.

Lemma spec_call (c : Call) : spec (call c) (fun _ _ => True).
Proof.
  intros st r st' Hc H.
  destruct c as [f| |]; [destruct f|..];
    unfold call, access, ScribdAudioBook.premium_cookies in H; inv H;
    try match goal with
        | H : ScribdAudioBook.audiobook_keys _ = _ |- _ => use_spec_on H spec_audiobook_keys
        | H : ScribdAudioBook.preview_url _ = _ |- _ => use_spec_on H spec_preview_url
        | H : ScribdAudioBook.book_id _ = _ |- _ => use_spec_on H spec_book_id
        | H : ScribdAudioBook.author_id _ = _ |- _ => use_spec_on H spec_author_id
        | H : ScribdAudioBook.license_url _ = _ |- _ => use_spec_on H spec_license_url
        | H : ScribdAudioBook.license_id _ = _ |- _ => use_spec_on H spec_license_id
        | H : ScribdAudioBook.playlist_url _ = _ |- _ => use_spec_on H spec_playlist_url
        | H : ScribdAudioBook.authenticate_url _ = _ |- _ =>
            use_spec_on H spec_authenticate_url
        | H : ScribdAudioBook.title _ = _ |- _ => use_spec_on H spec_title
        | H : ScribdAudioBook.playlist _ = _ |- _ => use_spec_on H spec_playlist
        | H : ScribdAudioBook.make_playlist _ = _ |- _ => use_spec_on H spec_make_playlist
        end;
    (split; [coh|auto]).
Qed.

End Coherence.

Lemma constructed_coherent (url id : string) (c : Cookies) : coherent (constructed url id c).
Proof. unfold coherent, constructed. cbn. repeat split; intros; discriminate. Qed.

Lemma later_coherent {E : Env} (s s' : ScribdAudioBook.t) :
  coherent s -> later s s' -> coherent s'.
Proof.
  intros Hc Hl. induction Hl as [|s' c w _ IH]; [exact Hc|].
  destruct (call c (s', w)) as [r st'] eqn:Hcall.
  exact (proj1 (spec_call c (s', w) r st' IH Hcall)).
Qed.

(** X11.  In every state an instance reaches from construction, by
    property reads and [premium_cookies] or [make_playlist] calls that
    return or raise, each attribute that is set agrees with what it is
    derived from: the preview URL, the book id and the author id are those
    of the scraped keys, the license URL is
    [".../v4/accounts/scribd-{author}/audiobooks/{book}"] and the playlist
    URL [".../v4/audiobooks/{book}/playlists"] for these keys (with
    ["None"] for an author id that is [None]), the listen URL ends in the
    content identifier, the title is the one of the content URL, and the
    title of the playlist is the title with its spaces replaced. *)
Theorem X11_attributes_agree {E : Env} (url id : string) (c : Cookies)
    (s : ScribdAudioBook.t) :
  later (constructed url id c) s ->
  (forall v, ScribdAudioBook._preview_url s = Some v ->
     exists k, ScribdAudioBook._audiobook_keys s = Some k /\
       v = ScribdAudioBook.keys_preview_url k) /\
  (forall v, ScribdAudioBook._book_id s = Some v ->
     exists k, ScribdAudioBook._audiobook_keys s = Some k /\
       v = ScribdAudioBook.keys_book_id k) /\
  (forall v, ScribdAudioBook._author_id s = Some v ->
     exists k, ScribdAudioBook._audiobook_keys s = Some k /\
       ScribdAudioBook.keys_author_id k = Some v) /\
  (forall v, ScribdAudioBook._license_url s = Some v ->
     exists k, ScribdAudioBook._audiobook_keys s = Some k /\
       v = "https://api.findawayworld.com/v4/accounts/scribd-"
           ++ str_opt (ScribdAudioBook.keys_author_id k)
           ++ "/audiobooks/" ++ ScribdAudioBook.keys_book_id k) /\
  (forall v, ScribdAudioBook._playlist_url s = Some v ->
     exists k, ScribdAudioBook._audiobook_keys s = Some k /\
       v = "https://api.findawayworld.com/v4/audiobooks/" ++ ScribdAudioBook.keys_book_id k
           ++ "/playlists") /\
  (forall v, ScribdAudioBook._authenticate_url s = Some v ->
     v = "https://www.scribd.com/listen/" ++ id) /\
  (forall v, ScribdAudioBook._title s = Some v -> title_of_url url = Ok v) /\
  (forall p, ScribdAudioBook._playlist s = Some p ->
     exists t, ScribdAudioBook._title s = Some t /\ Playlist.title p = replace " " "_" t).
Proof.
  intros Hl.
  pose proof (later_coherent _ _ (constructed_coherent url id c) Hl) as Hc.
  assert (Hin : same_inputs (constructed url id c) s).
  { clear Hc. induction Hl as [|s' c0 w _ IH]; [unfold same_inputs; auto|].
    apply (call_inputs _ c0 (s', w)). exact IH. }
  destruct Hin as (Hurl & Hid & _). cbn in Hurl, Hid.
  unfold coherent, listen_url_of, license_url_of, playlist_url_of in Hc.
  rewrite Hurl, Hid in Hc. exact Hc.
Qed.

Lemma X11_witness :
  let s := fst (snd (call (E := Scenario.env) (Property FLicenseUrl)
                       (Scenario.book, Scenario.premium_world))) in
  ScribdAudioBook._license_url s
  = Some "https://api.findawayworld.com/v4/accounts/scribd-12345678/audiobooks/54321" /\
  exists k, ScribdAudioBook._audiobook_keys s = Some k /\
    "https://api.findawayworld.com/v4/accounts/scribd-12345678/audiobooks/54321"
    = "https://api.findawayworld.com/v4/accounts/scribd-"
      ++ str_opt (ScribdAudioBook.keys_author_id k)
      ++ "/audiobooks/" ++ ScribdAudioBook.keys_book_id k.
Proof.
  intros s. split; [vm_compute; reflexivity|].
  destruct (X11_attributes_agree (E := Scenario.env) Scenario.book_url "123456789"
              (const_premium_cookies (Env := Scenario.env)) s
              (later_call _ _ (Property FLicenseUrl) Scenario.premium_world (later_now _)))
    as (_ & _ & _ & H & _).
  apply H. vm_compute. reflexivity.
Defined.

(** ** Once the page is scraped *)

Section Quiet.
Context {E : Env}.
Variable k : ScribdAudioBook.Keys.

Lemma quiet_ret {A : Type} (a : A) (post : A -> Prop) :
  post a -> quiet k (ret a) post.
Proof. intros Hp s w Hk. exists a, s. auto. Qed.

Lemma quiet_lift {A : Type} (a : A) (post : A -> Prop) :
  post a -> quiet k (lift (Ok a)) post.
Proof. intros Hp s w Hk. exists a, s. auto. Qed.

Lemma quiet_bind {A B : Type} (m : M ScribdAudioBook.State A)
    (f : A -> M ScribdAudioBook.State B) (mid : A -> Prop) (post : B -> Prop) :
  quiet k m mid -> (forall a, mid a -> quiet k (f a) post) -> quiet k (bind m f) post.
Proof.
  intros Hm Hf s w Hk. destruct (Hm s w Hk) as (a & s1 & Hrun & Hk1 & Ha).
  destruct (Hf a Ha s1 w Hk1) as (b & s2 & Hrun2 & Hk2 & Hb).
  exists b, s2. unfold bind. rewrite Hrun. auto.
Qed.

Lemma quiet_get_self {B : Type} (f : ScribdAudioBook.t -> M ScribdAudioBook.State B)
    (post : B -> Prop) :
  (forall self, quiet k (f self) post) -> quiet k (bind get_self f) post.
Proof. intros Hf s w Hk. rewrite bind_get_self. apply Hf, Hk. Qed.

Lemma quiet_set_self (f : ScribdAudioBook.t -> ScribdAudioBook.t) :
  (forall s, ScribdAudioBook._audiobook_keys (f s) = ScribdAudioBook._audiobook_keys s) ->
  quiet k (set_self f) (fun _ => True).
Proof. intros Hf s w Hk. exists tt, (f s). rewrite Hf. auto. Qed.

Lemma quiet_if_not (c : bool) (body : M ScribdAudioBook.State unit) :
  quiet k body (fun _ => True) -> quiet k (if_not c body) (fun _ => True).
Proof. destruct c; intros H; [apply quiet_ret; exact I|exact H]. Qed.

Lemma quiet_weaken {A : Type} (m : M ScribdAudioBook.State A) (post post' : A -> Prop) :
  quiet k m post -> (forall a, post a -> post' a) -> quiet k m post'.
Proof.
  intros Hm Hw s w Hk. destruct (Hm s w Hk) as (a & s' & Hrun & Hk' & Ha).
  exists a, s'. auto.
Qed.

Lemma quiet_audiobook_keys :
  quiet k ScribdAudioBook.audiobook_keys (fun o => o = Some k).
Proof.
  intros s w Hk. exists (Some k), s.
  unfold ScribdAudioBook.audiobook_keys, bind, get_self, if_not, ret. cbn [fst].
  rewrite Hk. cbn [truthy_obj fst]. rewrite Hk. auto.
Qed.

(** Walks a property whose reads are quiet. *)
Ltac walk_quiet :=
  repeat lazymatch goal with
  | |- quiet _ (bind get_self _) _ => apply quiet_get_self; intros ?
  | |- quiet _ (bind (if_not _ _) _) _ =>
      eapply quiet_bind; [apply quiet_if_not|intros ? _]
  | |- quiet _ (bind (lift (ScribdAudioBook.keys_item (Some _) _)) _) _ =>
      eapply quiet_bind; [apply quiet_lift with (post := fun _ => True); exact I|intros ? _]
  | |- quiet _ (bind ScribdAudioBook.audiobook_keys _) _ =>
      eapply quiet_bind; [apply quiet_audiobook_keys|intros ? ->]
  | |- quiet _ (bind _ _) _ => eapply quiet_bind; [solve [eauto with memo]|intros ? _]
  | |- quiet _ (set_self _) _ => apply quiet_set_self; intros ?; reflexivity
  | |- quiet _ (ret _) _ => apply quiet_ret; exact I
  end.

Lemma quiet_preview_url : quiet k ScribdAudioBook.preview_url (fun _ => True).
Proof. unfold ScribdAudioBook.preview_url. walk_quiet. Qed.

Lemma quiet_book_id : quiet k ScribdAudioBook.book_id (fun _ => True).
Proof. unfold ScribdAudioBook.book_id. walk_quiet. Qed.

Lemma quiet_author_id : quiet k ScribdAudioBook.author_id (fun _ => True).
Proof. unfold ScribdAudioBook.author_id. walk_quiet. Qed.

Lemma quiet_authenticate_url : quiet k ScribdAudioBook.authenticate_url (fun _ => True).
Proof. unfold ScribdAudioBook.authenticate_url. walk_quiet. Qed.

Lemma quiet_license_url : quiet k ScribdAudioBook.license_url (fun _ => True).
Proof.
  pose proof quiet_author_id. pose proof quiet_book_id.
  unfold ScribdAudioBook.license_url. walk_quiet.
Qed.

Lemma quiet_playlist_url : quiet k ScribdAudioBook.playlist_url (fun _ => True).
Proof.
  pose proof quiet_book_id.
  unfold ScribdAudioBook.playlist_url. walk_quiet.
Qed.

End Quiet.

(** A quiet read of a coherent instance: it returns what the
    specification of the property says, the world is as before, and the
    instance is coherent, with the same keys and inputs. *)
Lemma read_cached {E : Env} {A : Type} (m : M ScribdAudioBook.State A)
    (post : A -> ScribdAudioBook.t -> Prop) (k : ScribdAudioBook.Keys)
    (s : ScribdAudioBook.t) (w : World) :
  quiet k m (fun _ => True) ->
  spec m post ->
  preserves (same_inputs s) m ->
  coherent s ->
  ScribdAudioBook._audiobook_keys s = Some k ->
  exists a s',
    m (s, w) = (Ok a, (s', w)) /\
    ScribdAudioBook._audiobook_keys s' = Some k /\
    coherent s' /\ post a s' /\ same_inputs s s'.
Proof.
  intros Hq Hs Hi Hc Hk.
  destruct (Hq s w Hk) as (a & s' & Hrun & Hk' & _).
  destruct (Hs (s, w) (Ok a) (s', w) Hc Hrun) as [Hc' Hp].
  exists a, s'. split; [exact Hrun|]. split; [exact Hk'|]. split; [exact Hc'|].
  split; [apply Hp; reflexivity|].
  specialize (Hi (s, w)). rewrite Hrun in Hi. apply Hi. unfold same_inputs. auto.
Qed.

Lemma reached_coherent {E : Env} (url id : string) (c : Cookies) (s : ScribdAudioBook.t) :
  later (constructed url id c) s ->
  coherent s /\ same_inputs (constructed url id c) s.
Proof.
  intros Hl. split.
  - exact (later_coherent _ _ (constructed_coherent url id c) Hl).
  - induction Hl as [|s' c0 w _ IH]; [unfold same_inputs; auto|].
    apply (call_inputs _ c0 (s', w)). exact IH.
Qed.

(** X12.  Once the page is scraped, the identifiers and the URLs are
    read off the keys: on an instance reached from construction whose
    keys are [k], reading [preview_url], [book_id], [author_id],
    [license_url], [playlist_url] or [authenticate_url] does not raise,
    sends nothing, and returns the value derived from [k] (or, for the
    listen URL, from the content identifier). *)
Theorem X12_reads_after_scrape {E : Env} (url id : string) (c : Cookies)
    (s : ScribdAudioBook.t) (k : ScribdAudioBook.Keys) (w : World) :
  later (constructed url id c) s ->
  ScribdAudioBook._audiobook_keys s = Some k ->
  (exists s', ScribdAudioBook.preview_url (s, w)
              = (Ok (Some (ScribdAudioBook.keys_preview_url k)), (s', w))) /\
  (exists s', ScribdAudioBook.book_id (s, w)
              = (Ok (Some (ScribdAudioBook.keys_book_id k)), (s', w))) /\
  (exists s', ScribdAudioBook.author_id (s, w)
              = (Ok (ScribdAudioBook.keys_author_id k), (s', w))) /\
  (exists s', ScribdAudioBook.license_url (s, w)
              = (Ok (Some ("https://api.findawayworld.com/v4/accounts/scribd-"
                           ++ str_opt (ScribdAudioBook.keys_author_id k)
                           ++ "/audiobooks/" ++ ScribdAudioBook.keys_book_id k)), (s', w))) /\
  (exists s', ScribdAudioBook.playlist_url (s, w)
              = (Ok (Some ("https://api.findawayworld.com/v4/audiobooks/"
                           ++ ScribdAudioBook.keys_book_id k ++ "/playlists")), (s', w))) /\
  (exists s', ScribdAudioBook.authenticate_url (s, w)
              = (Ok (Some ("https://www.scribd.com/listen/" ++ id)), (s', w))).
Proof.
  intros Hl Hk. destruct (reached_coherent _ _ _ _ Hl) as [Hc (_ & Hid & _)].
  cbn in Hid.
  repeat split.
  - destruct (read_cached _ _ k s w (quiet_preview_url k) spec_preview_url
                (preview_url_inputs s) Hc Hk) as (a & s' & Hrun & Hk' & _ & Hp & _).
    destruct Hp as (k' & Hk'' & ->). rewrite Hk' in Hk''. injection Hk'' as <-. eauto.
  - destruct (read_cached _ _ k s w (quiet_book_id k) spec_book_id
                (book_id_inputs s) Hc Hk) as (a & s' & Hrun & Hk' & _ & Hp & _).
    destruct Hp as (k' & Hk'' & ->). rewrite Hk' in Hk''. injection Hk'' as <-. eauto.
  - destruct (read_cached _ _ k s w (quiet_author_id k) spec_author_id
                (author_id_inputs s) Hc Hk) as (a & s' & Hrun & Hk' & _ & Hp & _).
    destruct Hp as (k' & Hk'' & ->). rewrite Hk' in Hk''. injection Hk'' as <-. eauto.
  - destruct (read_cached _ _ k s w (quiet_license_url k) spec_license_url
                (license_url_inputs s) Hc Hk) as (a & s' & Hrun & Hk' & _ & Hp & _).
    destruct Hp as (k' & Hk'' & ->). rewrite Hk' in Hk''. injection Hk'' as <-. eauto.
  - destruct (read_cached _ _ k s w (quiet_playlist_url k) spec_playlist_url
                (playlist_url_inputs s) Hc Hk) as (a & s' & Hrun & Hk' & _ & Hp & _).
    destruct Hp as (k' & Hk'' & ->). rewrite Hk' in Hk''. injection Hk'' as <-. eauto.
  - destruct (read_cached _ _ k s w (quiet_authenticate_url k) spec_authenticate_url
                (authenticate_url_inputs s) Hc Hk)
      as (a & s' & Hrun & _ & _ & Hp & (_ & Hid' & _)).
    cbn beta in Hp. subst a. unfold listen_url_of in Hrun.
    rewrite Hid', Hid in Hrun. eauto.
Qed.

Lemma X12_witness :
  let s := fst (snd (call (E := Scenario.env) (Property FAudiobookKeys)
                       (Scenario.book, Scenario.free_world))) in
  exists s',
    ScribdAudioBook.license_url (E := Scenario.env) (s, Scenario.premium_world)
    = (Ok (Some "https://api.findawayworld.com/v4/accounts/scribd-None/audiobooks/54321"),
       (s', Scenario.premium_world)).
Proof.
  intros s.
  destruct (X12_reads_after_scrape (E := Scenario.env) Scenario.book_url "123456789"
              (const_premium_cookies (Env := Scenario.env)) s
              {| ScribdAudioBook.keys_preview_url := Scenario.sample_url;
                 ScribdAudioBook.keys_book_id := "54321";
                 ScribdAudioBook.keys_author_id := None |}
              Scenario.premium_world
              (later_call _ _ (Property FAudiobookKeys) Scenario.free_world (later_now _))
              eq_refl)
    as (_ & _ & _ & [s' H] & _).
  exists s'. exact H.
Defined.

(** ** The requests of the premium path *)

Section Wire.
Context {E : Env}.

(** With the license id not yet set, [license_id] is the exchange
    followed by the reading of the first license record; an exchange that
    raises ends the read where it raised. *)
Lemma license_id_by_exchange (s : ScribdAudioBook.t) (w : World) :
  truthy (ScribdAudioBook._license_id s) = false ->
  ScribdAudioBook.license_id (s, w) =
  match license_exchange (s, w) with
  | (Ok body, (s1, w1)) =>
      match first_license_id body with
      | Ok id => (Ok id, (ScribdAudioBook.set_license_id id s1, w1))
      | Raise e => (Raise e, (s1, w1))
      end
  | (Raise e, st1) => (Raise e, st1)
  end.
Proof.
  intros Hf.
  destruct (license_exchange (s, w)) as [[body|e] [s1 w1]] eqn:Hx.
  - rewrite (license_id_after_exchange s s1 w w1 body Hf Hx). reflexivity.
  - unfold ScribdAudioBook.license_id.
    unfold bind at 1 2. unfold get_self at 1. cbn [fst]. rewrite Hf. unfold if_not.
    unfold license_exchange in Hx.
    unfold bind, get_self in *. cbn [fst snd] in *.
    repeat match type of Hx with
           | match ?g with _ => _ end = _ =>
               destruct g as [[?|?] [? ?]]; cbn [fst snd] in *;
               [|injection Hx as <- <- <-; reflexivity]
           end.
    rewrite Hx. reflexivity.
Qed.

Lemma get_url_sends (u : string) (c : option Cookies) (h : option Headers)
    (s : ScribdAudioBook.t) (w : World) :
  ScribdAudioBook.get_url (Some u) c h (s, w)
  = (server w (sent w) (Get u c h), (s, after_request w (Get u c h))).
Proof. reflexivity. Qed.

Lemma post_url_sends (u : string) (h : Headers) (d : string)
    (s : ScribdAudioBook.t) (w : World) :
  ScribdAudioBook.post_url (Some u) h d (s, w)
  = (server w (sent w) (Post u h d), (s, after_request w (Post u h d))).
Proof. reflexivity. Qed.

(** The exchange on a coherent instance with the keys [k]: the listen
    request, then, when it is answered, the license request. *)
Lemma license_exchange_cached (s : ScribdAudioBook.t) (k : ScribdAudioBook.Keys) (w : World) :
  coherent s ->
  ScribdAudioBook._audiobook_keys s = Some k ->
  exists s1 s2,
    license_exchange (s, w) =
    match server w (sent w) (listen_request s) with
    | Raise e => (Raise e, (s1, after_request w (listen_request s)))
    | Ok _ =>
        (server w (sent w ++ [listen_request s])%list (license_request s k),
         (s2, after_request (after_request w (listen_request s)) (license_request s k)))
    end /\
    coherent s2 /\ ScribdAudioBook._audiobook_keys s2 = Some k /\ same_inputs s s2.
Proof.
  intros Hc Hk.
  destruct (read_cached _ _ k s w (quiet_authenticate_url k) spec_authenticate_url
              (authenticate_url_inputs s) Hc Hk)
    as (a & s1 & Hrun1 & Hk1 & Hc1 & Hp1 & (Hu1 & Hid1 & Hh1 & Hck1)).
  cbn beta in Hp1. subst a.
  destruct (read_cached _ _ k s1 (after_request w (listen_request s))
              (quiet_license_url k) spec_license_url
              (license_url_inputs s1) Hc1 Hk1)
    as (a & s2 & Hrun2 & Hk2 & Hc2 & Hp2 & (Hu2 & Hid2 & Hh2 & Hck2)).
  destruct Hp2 as (k' & Hk' & ->). rewrite Hk2 in Hk'. injection Hk' as <-.
  exists s1, s2. split; [|split; [exact Hc2|split; [exact Hk2|]]].
  - unfold license_exchange.
    unfold bind at 1. rewrite Hrun1. rewrite bind_get_self. cbn [fst].
    unfold bind at 1. rewrite get_url_sends.
    unfold listen_request, license_request, listen_url_of. rewrite Hid1, Hck1.
    destruct (server w (sent w) _) as [b1|e1]; [|reflexivity].
    unfold bind at 1. unfold listen_request, listen_url_of in Hrun2.
    rewrite Hrun2. rewrite bind_get_self. cbn [fst]. rewrite get_url_sends.
    rewrite Hh2, Hh1. reflexivity.
  - unfold same_inputs. rewrite Hu2, Hid2, Hh2, Hck2. auto.
Qed.

End Wire.

(** X13.  The license exchange on the wire.  On an instance reached from
    construction, with the page scraped and no license id yet, reading
    [license_id] first sends the listen request for the content
    identifier, with the cookies and no header.  When that request fails
    the error is raised and the license endpoint is not asked.  Otherwise
    the license record of the scraped author and book is requested, with
    the session-key header and no cookies; a failure of that request or of
    the reading of the first record is raised and leaves [_license_id] as
    it was; else the id of the first record is stored and returned,
    whatever other records follow. *)
Theorem X13_license_exchange {E : Env} (url id : string) (c : Cookies)
    (s : ScribdAudioBook.t) (k : ScribdAudioBook.Keys) (w : World) :
  later (constructed url id c) s ->
  ScribdAudioBook._audiobook_keys s = Some k ->
  truthy (ScribdAudioBook._license_id s) = false ->
  let listen := Get ("https://www.scribd.com/listen/" ++ id) (Some c) None in
  let license :=
    Get ("https://api.findawayworld.com/v4/accounts/scribd-"
         ++ str_opt (ScribdAudioBook.keys_author_id k)
         ++ "/audiobooks/" ++ ScribdAudioBook.keys_book_id k)
      None (Some [("Session-Key", "acea0b1d-62b9-4fb7-960b-06d9fbb4999d")]) in
  exists s',
    match server w (sent w) listen with
    | Raise e =>
        ScribdAudioBook.license_id (s, w) = (Raise e, (s', after_request w listen)) /\
        ScribdAudioBook._license_id s' = ScribdAudioBook._license_id s
    | Ok _ =>
        let w2 := after_request (after_request w listen) license in
        match server w (sent w ++ [listen])%list license with
        | Raise e =>
            ScribdAudioBook.license_id (s, w) = (Raise e, (s', w2)) /\
            ScribdAudioBook._license_id s' = ScribdAudioBook._license_id s
        | Ok body =>
            match first_license_id body with
            | Raise e =>
                ScribdAudioBook.license_id (s, w) = (Raise e, (s', w2)) /\
                ScribdAudioBook._license_id s' = ScribdAudioBook._license_id s
            | Ok v =>
                ScribdAudioBook.license_id (s, w) = (Ok v, (s', w2)) /\
                ScribdAudioBook._license_id s' = v
            end
        end
    end.
Proof.
  intros Hl Hk Hf listen license.
  destruct (reached_coherent _ _ _ _ Hl) as [Hc (_ & Hid & Hh & Hck)].
  cbn in Hid, Hh, Hck.
  destruct (license_exchange_cached s k w Hc Hk) as (s1 & s2 & Hx & _).
  assert (Hlisten : listen_request s = listen).
  { unfold listen_request, listen_url_of, listen. rewrite Hid, Hck. reflexivity. }
  assert (Hlicense : license_request s k = license).
  { unfold license_request, license_url_of, license. rewrite Hh. reflexivity. }
  rewrite Hlisten, Hlicense in Hx.
  pose proof (license_exchange_keeps_license (ScribdAudioBook._license_id s) (s, w) eq_refl)
    as Hkeep.
  unfold license_is in Hkeep. rewrite Hx in Hkeep.
  rewrite (license_id_by_exchange s w Hf), Hx.
  destruct (server w (sent w) listen) as [b1|e1].
  - cbn zeta. destruct (server w (sent w ++ [listen])%list license) as [body|e2].
    + destruct (first_license_id body) as [v|e3].
      * exists (ScribdAudioBook.set_license_id v s2). split; reflexivity.
      * exists s2. split; [reflexivity|exact Hkeep].
    + exists s2. split; [reflexivity|exact Hkeep].
  - exists s1. split; [reflexivity|exact Hkeep].
Qed.

Lemma X13_witness :
  let s := fst (snd (call (E := Scenario.env) (Property FAudiobookKeys)
                       (Scenario.book, Scenario.premium_world))) in
  let w := Scenario.world Scenario.premium_page [Scenario.license_body "L-42"] EmptyString in
  exists s' w',
    ScribdAudioBook.license_id (E := Scenario.env) (s, w) = (Ok (PyStr "L-42"), (s', w')) /\
    sent w'
    = [Get "https://www.scribd.com/listen/123456789" (Some [("_scribd_session", "s3cr3t")]) None;
       Get "https://api.findawayworld.com/v4/accounts/scribd-12345678/audiobooks/54321" None
         (Some [("Session-Key", "acea0b1d-62b9-4fb7-960b-06d9fbb4999d")])].
Proof.
  intros s w.
  destruct (X13_license_exchange (E := Scenario.env) Scenario.book_url "123456789"
              (const_premium_cookies (Env := Scenario.env)) s
              {| ScribdAudioBook.keys_preview_url := Scenario.sample_url;
                 ScribdAudioBook.keys_book_id := "54321";
                 ScribdAudioBook.keys_author_id := Some "12345678" |}
              w
              (later_call _ _ (Property FAudiobookKeys) Scenario.premium_world (later_now _))
              eq_refl eq_refl)
    as [s' H].
  cbv in H. destruct H as [H _].
  exists s'. eexists. split; [exact H|reflexivity].
Defined.

Lemma license_id_cached {E : Env} (s : ScribdAudioBook.t) (w : World) :
  truthy (ScribdAudioBook._license_id s) = true ->
  ScribdAudioBook.license_id (s, w) = (Ok (ScribdAudioBook._license_id s), (s, w)).
Proof.
  intros Ht. unfold ScribdAudioBook.license_id.
  unfold bind at 1 2. unfold get_self at 1. cbn [fst]. rewrite Ht. reflexivity.
Qed.

(** X14.  The playlist request on the wire.  On an instance reached from
    construction, with the page scraped, a truthy author id and a license
    id memoized: when the license id is a string, [make_playlist] sends
    one request, the POST of [{"license_id":"<id>"}] to the playlist URL
    of the scraped book with the session-key header, and returns the
    parsed response (raising the error of the request or
    [JSONDecodeError]); when the license id is not a string (a JSON
    number, say), it raises [TypeError] and sends nothing. *)
Theorem X14_playlist_request {E : Env} (url id : string) (c : Cookies)
    (s : ScribdAudioBook.t) (k : ScribdAudioBook.Keys) (w : World) :
  later (constructed url id c) s ->
  ScribdAudioBook._audiobook_keys s = Some k ->
  truthy_str (ScribdAudioBook.keys_author_id k) = true ->
  truthy (ScribdAudioBook._license_id s) = true ->
  exists s',
    match as_str (ScribdAudioBook._license_id s) with
    | Raise _ => ScribdAudioBook.make_playlist (s, w) = (Raise TypeError, (s', w))
    | Ok license =>
        let request :=
          Post ("https://api.findawayworld.com/v4/audiobooks/"
                ++ ScribdAudioBook.keys_book_id k ++ "/playlists")
            [("Session-Key", "acea0b1d-62b9-4fb7-960b-06d9fbb4999d")]
            ("{" ++ dquote ++ "license_id" ++ dquote ++ ":" ++ dquote ++ license
             ++ dquote ++ "}") in
        ScribdAudioBook.make_playlist (s, w)
        = (match server w (sent w) request with
           | Ok body => json_loads body
           | Raise e => Raise e
           end, (s', after_request w request))
    end.
Proof.
  intros Hl Hk Ha Ht.
  destruct (reached_coherent _ _ _ _ Hl) as [Hc (_ & _ & Hh & _)]. cbn in Hh.
  destruct (read_cached _ _ k s w (quiet_author_id k) spec_author_id
              (author_id_inputs s) Hc Hk)
    as (a & s1 & Hrun1 & Hk1 & Hc1 & Hp1 & (_ & _ & Hh1 & _)).
  destruct Hp1 as (k' & Hk' & ->). rewrite Hk1 in Hk'. injection Hk' as <-.
  assert (Hlic : ScribdAudioBook._license_id s1 = ScribdAudioBook._license_id s).
  { pose proof (author_id_keeps_license (ScribdAudioBook._license_id s) (s, w) eq_refl) as H.
    rewrite Hrun1 in H. exact H. }
  destruct (read_cached _ _ k s1 w (quiet_playlist_url k) spec_playlist_url
              (playlist_url_inputs s1) Hc1 Hk1)
    as (pu & s2 & Hrun2 & _ & _ & Hp2 & (_ & _ & Hh2 & _)).
  destruct Hp2 as (k' & Hk' & ->).
  assert (Hk2 : k' = k).
  { destruct (quiet_playlist_url k s1 w Hk1) as (a' & s2' & Hrun2' & Hk2' & _).
    rewrite Hrun2 in Hrun2'. injection Hrun2' as _ <-. rewrite Hk2' in Hk'.
    injection Hk' as <-. reflexivity. }
  subst k'.
  assert (Hmake : ScribdAudioBook.make_playlist (s, w)
                  = ScribdAudioBook.premium_branch (s1, w)).
  { unfold ScribdAudioBook.make_playlist, ScribdAudioBook.premium_cookies.
    unfold bind at 1 2. rewrite Hrun1. unfold ret. rewrite Ha. reflexivity. }
  assert (Hbranch : ScribdAudioBook.premium_branch (s1, w)
                    = match as_str (ScribdAudioBook._license_id s) with
                      | Ok license =>
                          (pu <- ScribdAudioBook.playlist_url ;;
                           self <- get_self ;;
                           response_text <-
                             ScribdAudioBook.post_url pu
                               (ScribdAudioBook.session_key_header self)
                               ("{" ++ dquote ++ "license_id" ++ dquote ++ ":" ++ dquote
                                ++ license ++ dquote ++ "}") ;;
                           lift (json_loads response_text)) (s1, w)
                      | Raise e => (Raise e, (s1, w))
                      end).
  { unfold ScribdAudioBook.premium_branch.
    unfold bind at 1. rewrite license_id_cached by (rewrite Hlic; exact Ht).
    rewrite Hlic. unfold bind at 1. unfold lift at 1.
    destruct (as_str (ScribdAudioBook._license_id s)); reflexivity. }
  rewrite Hmake, Hbranch.
  destruct (as_str (ScribdAudioBook._license_id s)) as [license|e] eqn:Has.
  - exists s2. cbn zeta. unfold bind at 1. rewrite Hrun2.
    rewrite bind_get_self. cbn [fst]. unfold bind at 1. rewrite post_url_sends.
    unfold playlist_url_of. rewrite Hh2, Hh1, Hh.
    destruct (server w (sent w) _) as [body|e]; reflexivity.
  - exists s1. rewrite (as_str_raise _ _ Has). reflexivity.
Qed.

Lemma X14_witness :
  let s := fst (snd (call (E := Scenario.env) (Property FLicenseId)
                       (Scenario.book, Scenario.premium_world))) in
  exists s' w',
    ScribdAudioBook.make_playlist (E := Scenario.env) (s, Scenario.premium_world)
    = (Ok Scenario.server_playlist, (s', w')) /\
    sent w'
    = [Post "https://api.findawayworld.com/v4/audiobooks/54321/playlists"
         [("Session-Key", "acea0b1d-62b9-4fb7-960b-06d9fbb4999d")]
         ("{" ++ dquote ++ "license_id" ++ dquote ++ ":" ++ dquote ++ "L-42" ++ dquote ++ "}")].
Proof.
  intros s.
  destruct (X14_playlist_request (E := Scenario.env) Scenario.book_url "123456789"
              (const_premium_cookies (Env := Scenario.env)) s
              {| ScribdAudioBook.keys_preview_url := Scenario.sample_url;
                 ScribdAudioBook.keys_book_id := "54321";
                 ScribdAudioBook.keys_author_id := Some "12345678" |}
              Scenario.premium_world
              (later_call _ _ (Property FLicenseId) Scenario.premium_world (later_now _))
              eq_refl eq_refl eq_refl)
    as [s' H].
  cbv in H. exists s'. eexists. split; [exact H|reflexivity].
Defined.

(** ** The preview path, from construction to the file name *)

Section Steps.
Context {E : Env}.

Lemma keys_first_read (s : ScribdAudioBook.t) (w w' : World) (k : ScribdAudioBook.Keys) :
  ScribdAudioBook._audiobook_keys s = None ->
  ScribdAudioBook._scrape_audiobook (s, w) = (Ok k, (s, w')) ->
  ScribdAudioBook.audiobook_keys (s, w)
  = (Ok (Some k), (ScribdAudioBook.set_audiobook_keys (Some k) s, w')).
Proof.
  intros Hn Hs. unfold ScribdAudioBook.audiobook_keys.
  unfold bind at 1 2. unfold get_self at 1. cbn [fst]. rewrite Hn. cbn [truthy_obj if_not].
  unfold bind at 1. rewrite Hs. reflexivity.
Qed.

Lemma keys_next_read (s : ScribdAudioBook.t) (w : World) (k : ScribdAudioBook.Keys) :
  ScribdAudioBook._audiobook_keys s = Some k ->
  ScribdAudioBook.audiobook_keys (s, w) = (Ok (Some k), (s, w)).
Proof.
  intros Hk. unfold ScribdAudioBook.audiobook_keys.
  unfold bind at 1 2. unfold get_self at 1. cbn [fst]. rewrite Hk. cbn [truthy_obj if_not].
  unfold ret at 1. rewrite bind_get_self. cbn [fst]. rewrite Hk. reflexivity.
Qed.

Lemma author_first_read (s s1 : ScribdAudioBook.t) (w w1 : World)
    (k : ScribdAudioBook.Keys) :
  truthy_str (ScribdAudioBook._author_id s) = false ->
  ScribdAudioBook.audiobook_keys (s, w) = (Ok (Some k), (s1, w1)) ->
  ScribdAudioBook.author_id (s, w)
  = (Ok (ScribdAudioBook.keys_author_id k),
     (ScribdAudioBook.set_author_id (ScribdAudioBook.keys_author_id k) s1, w1)).
Proof.
  intros Hf Hk. unfold ScribdAudioBook.author_id.
  unfold bind at 1 2. unfold get_self at 1. cbn [fst]. rewrite Hf. cbn [if_not].
  unfold bind at 1. rewrite Hk. reflexivity.
Qed.

Lemma preview_first_read (s s1 : ScribdAudioBook.t) (w w1 : World)
    (k : ScribdAudioBook.Keys) :
  truthy_str (ScribdAudioBook._preview_url s) = false ->
  ScribdAudioBook.audiobook_keys (s, w) = (Ok (Some k), (s1, w1)) ->
  ScribdAudioBook.preview_url (s, w)
  = (Ok (Some (ScribdAudioBook.keys_preview_url k)),
     (ScribdAudioBook.set_preview_url (Some (ScribdAudioBook.keys_preview_url k)) s1, w1)).
Proof.
  intros Hf Hk. unfold ScribdAudioBook.preview_url.
  unfold bind at 1 2. unfold get_self at 1. cbn [fst]. rewrite Hf. cbn [if_not].
  unfold bind at 1. rewrite Hk. reflexivity.
Qed.

Lemma title_first_read (s : ScribdAudioBook.t) (w : World) (t : string) :
  truthy_str (ScribdAudioBook._title s) = false ->
  title_of_url (ScribdAudioBook.audiobook_url s) = Ok t ->
  ScribdAudioBook.title (s, w) = (Ok (Some t), (ScribdAudioBook.set_title (Some t) s, w)).
Proof.
  intros Hf Ht. rewrite (title_computed s w Hf).
  unfold title_of_url in Ht. rewrite Ht. reflexivity.
Qed.

Lemma scrape_by_request (s s0 : ScribdAudioBook.t) (w : World) (k : ScribdAudioBook.Keys) :
  page_request s = page_request s0 ->
  fst (ScribdAudioBook._scrape_audiobook (s0, w)) = Ok k ->
  ScribdAudioBook._scrape_audiobook (s, w) = (Ok k, (s, after_request w (page_request s0))).
Proof.
  intros Hreq Hs.
  rewrite (surjective_pairing (ScribdAudioBook._scrape_audiobook (s, w))).
  rewrite scrape_state, scrape_result, Hreq, <- scrape_result, Hs. reflexivity.
Qed.

(** With [author_id] returning a falsy value, [make_playlist] is the
    preview branch. *)
Lemma make_playlist_preview (st st1 st2 : ScribdAudioBook.State) (a u : option string) :
  ScribdAudioBook.author_id st = (Ok a, st1) ->
  truthy_str a = false ->
  ScribdAudioBook.preview_url st1 = (Ok u, st2) ->
  ScribdAudioBook.make_playlist st = (Ok (ScribdAudioBook.preview_playlist u), st2).
Proof.
  intros Ha Hf Hp.
  unfold ScribdAudioBook.make_playlist, ScribdAudioBook.premium_cookies.
  unfold bind at 1 2. rewrite Ha. unfold ret at 1. rewrite Hf.
  unfold ScribdAudioBook.preview_branch, bind. rewrite Hp. reflexivity.
Qed.

Lemma playlist_first_read (s s1 s2 : ScribdAudioBook.t) (w w1 w2 : World)
    (t : string) (record : PyVal) (p : Playlist.t) :
  ScribdAudioBook._playlist s = None ->
  ScribdAudioBook.title (s, w) = (Ok (Some t), (s1, w1)) ->
  ScribdAudioBook.make_playlist (s1, w1) = (Ok record, (s2, w2)) ->
  Playlist.init (replace " " "_" t) record = Ok p ->
  ScribdAudioBook.playlist (s, w)
  = (Ok (Some p), (ScribdAudioBook.set_playlist (Some p) s2, w2)).
Proof.
  intros Hn Ht Hm Hi. unfold ScribdAudioBook.playlist.
  unfold bind at 1 2. unfold get_self at 1. cbn [fst]. rewrite Hn. cbn [truthy_obj if_not].
  unfold bind at 1. rewrite Ht. unfold bind at 1. unfold lift at 1.
  unfold bind at 1. rewrite Hm. unfold bind at 1. unfold lift at 1. rewrite Hi.
  reflexivity.
Qed.

End Steps.

(** X15.  The preview path end to end.  For a freshly constructed
    instance whose URL has the title [t] and whose page gives no author
    id, reading [playlist] returns (and stores) a playlist named by the
    file-name stem of [t], with the single track of the preview URL,
    labelled ["preview"], and no path recorded; the only request sent on
    the way is the one for the page, none to the licensing service; and
    the one file [download] will write is ["{stem}_preview.mp3"]. *)
Theorem X15_preview_end_to_end {E : Env} (url id : string) (c : Cookies) (w : World)
    (k : ScribdAudioBook.Keys) (t : string) :
  title_of_url url = Ok t ->
  fst (ScribdAudioBook._scrape_audiobook (constructed url id c, w)) = Ok k ->
  ScribdAudioBook.keys_author_id k = None ->
  let stem := replace " " "_" t in
  let entry := PyDict [("url", PyStr (ScribdAudioBook.keys_preview_url k));
                       ("part_number", PyStr "preview");
                       ("chapter_number", PyStr "preview")] in
  let p := Playlist.Build stem
             [Track.Build (PyStr (ScribdAudioBook.keys_preview_url k))
                (PyStr "preview") (PyStr "preview") entry]
             (ScribdAudioBook.preview_playlist (Some (ScribdAudioBook.keys_preview_url k)))
             [] in
  exists s',
    ScribdAudioBook.playlist (constructed url id c, w)
    = (Ok (Some p), (s', after_request w (Get url (Some c) None))) /\
    ScribdAudioBook._playlist s' = Some p /\
    sent (after_request w (Get url (Some c) None)) = (sent w ++ [Get url (Some c) None])%list /\
    map (Playlist.path_of stem) (Playlist.tracks p) = [stem ++ "_preview.mp3"].
Proof.
  intros Htitle Hscrape Hauthor stem entry p.
  set (s0 := constructed url id c).
  set (s1 := ScribdAudioBook.set_title (Some t) s0).
  set (s2 := ScribdAudioBook.set_audiobook_keys (Some k) s1).
  set (s3 := ScribdAudioBook.set_author_id (ScribdAudioBook.keys_author_id k) s2).
  set (s4 := ScribdAudioBook.set_preview_url
               (Some (ScribdAudioBook.keys_preview_url k)) s3).
  set (w1 := after_request w (Get url (Some c) None)).
  assert (E1 : ScribdAudioBook.title (s0, w) = (Ok (Some t), (s1, w))).
  { apply title_first_read; [reflexivity|exact Htitle]. }
  assert (E2 : ScribdAudioBook.audiobook_keys (s1, w) = (Ok (Some k), (s2, w1))).
  { apply keys_first_read; [reflexivity|].
    apply (scrape_by_request s1 s0 w k eq_refl Hscrape). }
  assert (E3 : ScribdAudioBook.author_id (s1, w)
               = (Ok (ScribdAudioBook.keys_author_id k), (s3, w1))).
  { apply author_first_read; [reflexivity|exact E2]. }
  assert (E4 : ScribdAudioBook.preview_url (s3, w1)
               = (Ok (Some (ScribdAudioBook.keys_preview_url k)), (s4, w1))).
  { apply preview_first_read; [reflexivity|]. apply keys_next_read. reflexivity. }
  assert (E5 : ScribdAudioBook.make_playlist (s1, w)
               = (Ok (ScribdAudioBook.preview_playlist
                        (Some (ScribdAudioBook.keys_preview_url k))), (s4, w1))).
  { eapply make_playlist_preview; [exact E3|rewrite Hauthor; reflexivity|exact E4]. }
  exists (ScribdAudioBook.set_playlist (Some p) s4).
  split; [|split; [reflexivity|split; reflexivity]].
  apply (playlist_first_read s0 s1 s4 w w w1 t _ p eq_refl E1 E5). reflexivity.
Qed.

Lemma X15_witness :
  exists s' w',
    ScribdAudioBook.playlist (E := Scenario.env) (Scenario.book, Scenario.free_world)
    = (Ok (Some
             (Playlist.Build "My_Great_Book"
                [Track.Build (PyStr Scenario.sample_url) (PyStr "preview") (PyStr "preview")
                   (PyDict [("url", PyStr Scenario.sample_url);
                            ("part_number", PyStr "preview");
                            ("chapter_number", PyStr "preview")])]
                (ScribdAudioBook.preview_playlist (Some Scenario.sample_url)) [])),
       (s', w')) /\
    sent w' = [Get Scenario.book_url (Some [("_scribd_session", "s3cr3t")]) None].
Proof.
  destruct (X15_preview_end_to_end (E := Scenario.env) Scenario.book_url "123456789"
              (const_premium_cookies (Env := Scenario.env)) Scenario.free_world
              {| ScribdAudioBook.keys_preview_url := Scenario.sample_url;
                 ScribdAudioBook.keys_book_id := "54321";
                 ScribdAudioBook.keys_author_id := None |}
              "My Great Book" eq_refl eq_refl eq_refl)
    as (s' & H & _).
  exists s'. eexists. split; [exact H|reflexivity].
Defined.

(** ** The premium path, from construction to the playlist *)

Lemma set_license_id_coherent (s : ScribdAudioBook.t) (v : PyVal) :
  coherent s -> coherent (ScribdAudioBook.set_license_id v s).
Proof. intros Hc. coherent_after Hc. Qed.

(** X16.  The premium path end to end.  For a freshly constructed
    instance whose page gives a truthy author id, when the listen request
    is answered and the first license record has the string id
    [license], [make_playlist] sends exactly four requests, in this
    order: the page (with the cookies), the listen page (with the
    cookies), the license record (with the session-key header), and the
    POST of the license id to the playlist endpoint (with the session-key
    header); it returns the parsed answer of the last, or raises its
    error. *)
Theorem X16_premium_end_to_end {E : Env} (url id : string) (c : Cookies) (w : World)
    (k : ScribdAudioBook.Keys) (body license : string) :
  let header := [("Session-Key", "acea0b1d-62b9-4fb7-960b-06d9fbb4999d")] in
  let page := Get url (Some c) None in
  let listen := Get ("https://www.scribd.com/listen/" ++ id) (Some c) None in
  let record :=
    Get ("https://api.findawayworld.com/v4/accounts/scribd-"
         ++ str_opt (ScribdAudioBook.keys_author_id k)
         ++ "/audiobooks/" ++ ScribdAudioBook.keys_book_id k) None (Some header) in
  let post :=
    Post ("https://api.findawayworld.com/v4/audiobooks/" ++ ScribdAudioBook.keys_book_id k
          ++ "/playlists") header
      ("{" ++ dquote ++ "license_id" ++ dquote ++ ":" ++ dquote ++ license ++ dquote ++ "}") in
  fst (ScribdAudioBook._scrape_audiobook (constructed url id c, w)) = Ok k ->
  truthy_str (ScribdAudioBook.keys_author_id k) = true ->
  is_ok (server w (sent w ++ [page])%list listen) = true ->
  server w (sent w ++ [page; listen])%list record = Ok body ->
  first_license_id body = Ok (PyStr license) ->
  exists s' w',
    ScribdAudioBook.make_playlist (constructed url id c, w)
    = (match server w (sent w ++ [page; listen; record])%list post with
       | Ok text => json_loads text
       | Raise e => Raise e
       end, (s', w')) /\
    sent w' = (sent w ++ [page; listen; record; post])%list /\
    ScribdAudioBook._license_id s' = PyStr license.
Proof.
  intros header page listen record post Hscrape Hauthor Hlisten Hrecord Hid.
  set (s0 := constructed url id c).
  set (s2 := ScribdAudioBook.set_audiobook_keys (Some k) s0).
  set (s3 := ScribdAudioBook.set_author_id (ScribdAudioBook.keys_author_id k) s2).
  set (w1 := after_request w page).
  assert (E2 : ScribdAudioBook.audiobook_keys (s0, w) = (Ok (Some k), (s2, w1))).
  { apply keys_first_read; [reflexivity|].
    apply (scrape_by_request s0 s0 w k eq_refl Hscrape). }
  assert (E3 : ScribdAudioBook.author_id (s0, w)
               = (Ok (ScribdAudioBook.keys_author_id k), (s3, w1))).
  { apply author_first_read; [reflexivity|exact E2]. }
  assert (Hc3 : coherent s3).
  { apply (later_coherent s0); [apply constructed_coherent|].
    replace s3 with (fst (snd (call (Property FAuthorId) (s0, w)))).
    - apply later_call, later_now.
    - unfold call, access. unfold bind at 1 2. rewrite E3. reflexivity. }
  destruct (license_exchange_cached s3 k w1 Hc3 eq_refl)
    as (sa & sb & Hx & Hcb & Hkb & (_ & _ & Hhb & _)).
  change (listen_request s3) with listen in Hx.
  change (license_request s3 k) with record in Hx.
  change (server w1) with (server w) in Hx.
  change (sent w1) with (sent w ++ [page])%list in Hx.
  destruct (server w (sent w ++ [page])%list listen) as [b1|e1]; [|discriminate Hlisten].
  rewrite <- app_assoc in Hx. cbn [app] in Hx. rewrite Hrecord in Hx.
  set (w3 := after_request (after_request w1 listen) record) in *.
  set (s5 := ScribdAudioBook.set_license_id (PyStr license) sb).
  assert (E5 : ScribdAudioBook.license_id (s3, w1) = (Ok (PyStr license), (s5, w3))).
  { rewrite (license_id_by_exchange s3 w1 eq_refl), Hx, Hid. reflexivity. }
  destruct (read_cached _ _ k s5 w3 (quiet_playlist_url k) spec_playlist_url
              (playlist_url_inputs s5) (set_license_id_coherent sb _ Hcb) Hkb)
    as (pu & s6 & Hrun6 & Hk6 & _ & Hp6 & (_ & _ & Hh6 & _)).
  destruct Hp6 as (k' & Hk' & ->). rewrite Hk6 in Hk'. injection Hk' as <-.
  assert (Hlic6 : ScribdAudioBook._license_id s6 = PyStr license).
  { pose proof (playlist_url_frame FLicenseId (VPy (PyStr license)) eq_refl (s5, w3) eq_refl)
      as H.
    rewrite Hrun6 in H. unfold holds, stored in H. cbn [fst snd] in H.
    injection H as H. exact H. }
  exists s6, (after_request w3 post). split; [|split; [|exact Hlic6]].
  - unfold ScribdAudioBook.make_playlist, ScribdAudioBook.premium_cookies.
    unfold bind at 1 2. rewrite E3. unfold ret at 1. rewrite Hauthor.
    unfold ScribdAudioBook.premium_branch.
    unfold bind at 1. rewrite E5. unfold bind at 1. unfold lift at 1. cbn [as_str].
    unfold bind at 1. rewrite Hrun6. rewrite bind_get_self. cbn [fst].
    unfold bind at 1. rewrite post_url_sends.
    unfold playlist_url_of. rewrite Hh6.
    change (ScribdAudioBook.session_key_header s5)
      with (ScribdAudioBook.session_key_header sb).
    rewrite Hhb.
    change (ScribdAudioBook.session_key_header s3) with header.
    change (server w3) with (server w).
    change (sent w3) with (((sent w ++ [page]) ++ [listen]) ++ [record])%list.
    rewrite <- !app_assoc. cbn [app].
    destruct (server w (sent w ++ [page; listen; record])%list _) as [text|e];
      reflexivity.
  - cbn [after_request sent]. unfold w3, w1. cbn [after_request sent].
    rewrite <- !app_assoc. reflexivity.
Qed.

Lemma X16_witness :
  exists s' w',
    ScribdAudioBook.make_playlist (E := Scenario.env) (Scenario.book, Scenario.premium_world)
    = (Ok Scenario.server_playlist, (s', w')) /\
    List.length (sent w') = 4.
Proof.
  destruct (X16_premium_end_to_end (E := Scenario.env) Scenario.book_url "123456789"
              (const_premium_cookies (Env := Scenario.env)) Scenario.premium_world
              {| ScribdAudioBook.keys_preview_url := Scenario.sample_url;
                 ScribdAudioBook.keys_book_id := "54321";
                 ScribdAudioBook.keys_author_id := Some "12345678" |}
              (Scenario.license_body "L-42") "L-42"
              eq_refl eq_refl eq_refl eq_refl eq_refl)
    as (s' & w' & H & Hs & _).
  exists s', w'. split; [exact H|]. rewrite Hs. reflexivity.
Defined.

(** ** Construction *)

(** X17.  What construction gives.  [ScribdAudioBook(url)] either raises
    [AttributeError] or returns the instance with every derived attribute
    unset, the URL as given, the fixed session-key header and the cookies
    of [const]; its [scribd_id] is then exactly 9 characters, all digits,
    occurring in the URL.  Nothing is sent in either case. *)
Theorem X17_construction {E : Env} (url : string) (w : World) :
  snd (ScribdAudioBook.init url w) = w /\
  (fst (ScribdAudioBook.init url w) = Raise AttributeError \/
   exists i,
     fst (ScribdAudioBook.init url w)
     = Ok (constructed url (substring i 9 url) const_premium_cookies) /\
     String.length (substring i 9 url) = 9 /\
     all_digits (substring i 9 url) = true).
Proof.
  destruct (windows 9 url) as [|i rest] eqn:Hw.
  - rewrite (init_not_found url w Hw). auto.
  - rewrite (init_found url w i rest Hw). split; [reflexivity|]. right. exists i.
    split; [reflexivity|]. apply window_length.
    unfold windows in Hw. apply filter_seq_head in Hw. tauto.
Qed.

(** ** From the server's record to the files *)

(** X18.  The files follow the entries.  For a playlist built from a
    record and downloaded with every transfer completing, the paths
    recorded are, entry by entry and in the order of the record,
    ["{title}_{chapter_number}.mp3"] with the chapter number of the entry,
    and the stream requests those of the entries' URLs to these paths.
    The path depends on nothing else of an entry: two entries with the
    same chapter number are written to the same path, whatever their part
    numbers and URLs. *)
Theorem X18_files_follow_entries {E : Env} (title : string) (record : PyVal)
    (entries : list PyVal) (p : Playlist.t) (w : World) :
  getitem record "playlist" = Ok (PyList entries) ->
  Playlist.init title record = Ok p ->
  transfers_succeed title (Playlist.tracks p) w = true ->
  exists fields,
    Forall2 (fun e f => getitem e "url" = Ok (fst f) /\
                        getitem e "chapter_number" = Ok (snd f)) entries fields /\
    Playlist.download_paths (fst (snd (Playlist.download (p, w))))
    = map (fun f => title ++ "_" ++ py_str (snd f) ++ ".mp3") fields /\
    sent (snd (snd (Playlist.download (p, w))))
    = (sent w
       ++ map (fun f => Stream (fst f) (title ++ "_" ++ py_str (snd f) ++ ".mp3")) fields)%list /\
    forall i j fi fj,
      nth_error fields i = Some fi -> nth_error fields j = Some fj ->
      snd fi = snd fj ->
      nth_error (Playlist.download_paths (fst (snd (Playlist.download (p, w))))) i
      = nth_error (Playlist.download_paths (fst (snd (Playlist.download (p, w))))) j.
Proof.
  intros Hrec Hinit Hok.
  assert (Hp : Playlist.title p = title /\ Playlist.download_paths p = [] /\
               Forall2 (fun e t => Track.init e = Ok t) entries (Playlist.tracks p)).
  { unfold Playlist.init in Hinit. rewrite Hrec in Hinit. cbn [rbind py_iter] in Hinit.
    destruct (comprehension Track.init entries) as [ts|] eqn:Hts; cbn [rbind] in Hinit;
      [|discriminate].
    injection Hinit as <-. cbn. repeat split. apply comprehension_Forall2, Hts. }
  destruct Hp as (Ht & Hpaths & Htracks).
  exists (map (fun t => (Track.url t, Track.chapter_number t)) (Playlist.tracks p)).
  assert (Hrun : exists self' w',
             Playlist.download (p, w) = (Ok tt, (self', w')) /\
             Playlist.download_paths self'
             = map (Playlist.path_of title) (Playlist.tracks p) /\
             sent w' = (sent w ++ map (stream_request title) (Playlist.tracks p))%list).
  { rewrite <- Ht in Hok.
    destruct (download_loop_succeeds (Playlist.title p) (Playlist.tracks p) p p w Hok)
      as (self' & w' & Hrun & (_ & _ & _ & Hp') & Hs).
    { unfold recorded. auto. }
    exists self', w'. rewrite Hpaths in Hp'. cbn [app] in Hp'.
    split; [exact Hrun|]. rewrite <- Ht. split; [exact Hp'|exact Hs]. }
  destruct Hrun as (self' & w' & Hrun & Hp' & Hs). rewrite Hrun. cbn [fst snd].
  split; [|split; [|split]].
  - clear Hok Hrun Hp' Hs Hrec Hinit. induction Htracks as [|e t es ts He _ IH]; cbn [map].
    + constructor.
    + constructor; [|exact IH]. apply track_init_fields in He. cbn [fst snd]. tauto.
  - rewrite Hp', map_map. reflexivity.
  - rewrite Hs, map_map. reflexivity.
  - intros i j fi fj Hi Hj Heq. rewrite Hp'.
    rewrite nth_error_map in Hi, Hj. rewrite !nth_error_map.
    destruct (nth_error (Playlist.tracks p) i) as [ti|]; [|discriminate].
    destruct (nth_error (Playlist.tracks p) j) as [tj|]; [|discriminate].
    cbn [option_map] in *. injection Hi as <-. injection Hj as <-. cbn [snd] in Heq.
    unfold Playlist.path_of. rewrite Heq. reflexivity.
Qed.

Lemma X18_witness :
  Playlist.download_paths
    (fst (snd (Playlist.download (E := Scenario.env)
                 (Playlist.Build "t"
                    [Track.Build (PyStr "a") (PyInt 1) (PyInt 7) (numbered_entry "a" 1 7);
                     Track.Build (PyStr "b") (PyInt 2) (PyInt 7) (numbered_entry "b" 2 7)]
                    (PyDict [("playlist",
                              PyList [numbered_entry "a" 1 7; numbered_entry "b" 2 7])])
                    [],
                  Scenario.premium_world))))
  = ["t_7.mp3"; "t_7.mp3"].
Proof.
  destruct (X18_files_follow_entries (E := Scenario.env) "t"
              (PyDict [("playlist",
                        PyList [numbered_entry "a" 1 7; numbered_entry "b" 2 7])])
              [numbered_entry "a" 1 7; numbered_entry "b" 2 7]
              (Playlist.Build "t"
                 [Track.Build (PyStr "a") (PyInt 1) (PyInt 7) (numbered_entry "a" 1 7);
                  Track.Build (PyStr "b") (PyInt 2) (PyInt 7) (numbered_entry "b" 2 7)]
                 (PyDict [("playlist",
                           PyList [numbered_entry "a" 1 7; numbered_entry "b" 2 7])])
                 [])
              Scenario.premium_world eq_refl eq_refl eq_refl)
    as (fields & Hf & Hp & _).
  rewrite Hp.
  inversion Hf as [|e1 f1 es fs (Hu1 & Hc1) Hf' Heq1 Heq2]; subst.
  inversion Hf' as [|e2 f2 es' fs' (Hu2 & Hc2) Hf'' Heq1 Heq2]; subst.
  inversion Hf''; subst.
  destruct f1 as [u1 c1], f2 as [u2 c2]. cbn [fst snd map] in *.
  cbv in Hc1, Hc2. injection Hc1 as Hc1. injection Hc2 as Hc2. subst c1 c2.
  reflexivity.
Defined.
